(** * lean-cli local API server and data downloader

    A shallow embedding of
      - [lean/components/api/server/api_server.py]      (module [ApiServer]),
      - [lean/components/api/server/account_server.py]  (module [AccountServer]),
      - [lean/components/cloud/data_downloader.py]      (module [DataDownloader]),
      - [lean/components/api/server/project_server.py]  (module [ProjectServer]),
    together with the properties of these components.

    Python objects are modelled as follows: a [dict] is a [gmap], an exception
    is a constructor of [exn], a method that mutates [self] or the file system
    is a function in the state-and-exception monad [M]. *)

From Stdlib Require Import ZArith String Ascii List.
From stdpp Require Import gmap strings list fin_maps pretty.

Local Open Scope string_scope.
Local Open Scope list_scope.
Local Open Scope stdpp_scope.

(** ** Exceptions and the state/exception monad *)

(** The exceptions that the modelled code raises, or that reach it from the
    Python library and the collaborators it calls. *)
Inductive exn :=
  | KeyError (key : string)
  | RuntimeError (msg : string)
  | ValueError (msg : string)
  | TypeError (msg : string)
  | AttributeError (msg : string)
  | StopIteration
  | OSError (msg : string)
  | ShutilError (msg : string)
  | RequestFailedError (msg : string)
  | HTTPNotFound
  | HTTPMethodNotAllowed
  | RequestRedirect (new_url body : string)
  | UnicodeDecodeError (msg : string)
  | ValidationError (msg : string)
  | OtherError (msg : string).

(** [str(exception)]. *)
Definition str (e : exn) : string :=
  match e with
  | KeyError key => "'" +:+ key +:+ "'"
  | RuntimeError msg | ValueError msg | TypeError msg | AttributeError msg
  | OSError msg | ShutilError msg | RequestFailedError msg | OtherError msg
  | UnicodeDecodeError msg | ValidationError msg => msg
  | StopIteration => ""
  | HTTPNotFound =>
      "404 Not Found: The requested URL was not found on the server. "
      +:+ "If you entered the URL manually please check your spelling and try again."
  | HTTPMethodNotAllowed =>
      "405 Method Not Allowed: The method is not allowed for the requested URL."
  | RequestRedirect new_url _ => "308 Permanent Redirect: " +:+ new_url
  end.

Inductive Result (A : Type) :=
  | Ok (a : A)
  | Raise (e : exn).
Arguments Ok {A} a.
Arguments Raise {A} e.

Global Instance Result_fmap : FMap Result := λ A B f r,
  match r with
  | Ok a => Ok (f a)
  | Raise e => Raise e
  end.

Definition is_ok {A} (r : Result A) : bool :=
  match r with Ok _ => true | Raise _ => false end.

(** A computation over a mutable state [S] that may raise: the state reached
    so far survives an exception, as it does in Python. *)
Definition M (S A : Type) : Type := S → Result A * S.

Global Instance M_ret {S} : MRet (M S) := λ A a s, (Ok a, s).
Global Instance M_bind {S} : MBind (M S) := λ A B f m s,
  match m s with
  | (Ok a, s') => f a s'
  | (Raise e, s') => (Raise e, s')
  end.

Definition raise {S A} (e : exn) : M S A := λ s, (Raise e, s).
Definition get_state {S} : M S S := λ s, (Ok s, s).
Definition modify {S} (f : S → S) : M S unit := λ s, (Ok tt, f s).
Definition lift_result {S A} (r : Result A) : M S A := λ s, (r, s).

(** [try: m except Exception as e: handler(e)] *)
Definition try_except {S A} (m : M S A) (handler : exn → M S A) : M S A := λ s,
  match m s with
  | (Ok a, s') => (Ok a, s')
  | (Raise e, s') => handler e s'
  end.

(** [[f(x) for x in l]] *)
Fixpoint list_comprehension {S A B} (f : A → M S B) (l : list A) : M S (list B) :=
  match l with
  | [] => mret []
  | x :: l' => y ← f x; ys ← list_comprehension f l'; mret (y :: ys)
  end.

(** An equation between closed terms, checked by evaluating both sides. *)
Ltac by_evaluation :=
  lazymatch goal with
  | |- ?a = ?b => vm_cast_no_check (@eq_refl _ b)
  end.

Ltac unfold_monad :=
  unfold mbind, mret, M_bind, M_ret, raise, get_state, modify, lift_result,
    try_except in *.

(** ** JSON values and Python strings *)

#[warnings="-register-all"]
Inductive json :=
  | JNull
  | JBool (b : bool)
  | JNum (z : Z)
  | JStr (s : string)
  | JArr (l : list json)
  | JObj (l : list (string * json)).

(** A JSON object at the top level of a response: a Python [dict]. *)
Abbreviation dict := (gmap string json).

(** [s.lstrip(c)] for a one-character set. *)
Fixpoint lstrip (c : ascii) (s : string) : string :=
  match s with
  | String c' s' => if Ascii.eqb c' c then lstrip c s' else s
  | EmptyString => EmptyString
  end.

(** [needle in haystack] on strings. *)
Fixpoint contains (needle haystack : string) : bool :=
  String.prefix needle haystack ||
  match haystack with
  | String _ h' => contains needle h'
  | EmptyString => false
  end.

(** ** The part of Flask that the servers use *)

Module Flask.

(** [request.data.decode("utf-8")]: the text of the body, or the
    [UnicodeDecodeError] of a body that is not UTF-8, with its message. *)
Inductive Decoded :=
  | Text (body : string)
  | NotUtf8 (msg : string).

(** [request.json]: a JSON object, any other value ([None] included, as
    [JNull]), or the exception with which Flask refuses the body. *)
Inductive RequestJson :=
  | JsonObject (body : dict)
  | JsonValue (v : json)
  | JsonError (e : exn).

(** The part of a Flask request that the server reads: the method (in
    upper case, as the framework gives it), the URL and its path, the
    decoded body and [request.json]. *)
Record Request := {
  method : string;
  url : string;
  rule : string;
  data_decode : Decoded;
  request_json : RequestJson
}.

(** A view function, as the dispatcher sees it: it returns a [dict] or
    raises. *)
Definition view_func := Request → Result dict.

(** [app.add_url_rule(rule, view_func=..., methods=[...])] *)
Record url_rule := {
  rule_path : string;
  rule_view : view_func;
  rule_methods : list string
}.

(** [c.upper()] and [s.upper()] on ASCII letters. *)
Definition upper_ascii (c : ascii) : ascii :=
  let n := nat_of_ascii c in
  if (97 <=? n)%nat && (n <=? 122)%nat then ascii_of_nat (n - 32) else c.

Fixpoint upper (s : string) : string :=
  match s with
  | EmptyString => EmptyString
  | String c s' => String (upper_ascii c) (upper s')
  end.

(** Flask answers OPTIONS for a rule itself unless the rule lists
    OPTIONS. *)
Definition provide_automatic_options (r : url_rule) : bool :=
  bool_decide ("OPTIONS" ∉ upper <$> rule_methods r).

(** The methods that a rule is registered with: the given ones in upper
    case, OPTIONS when Flask answers it itself, and HEAD along with
    GET. *)
Definition methods (r : url_rule) : list string :=
  let given := upper <$> rule_methods r in
  given
  ++ (if provide_automatic_options r then ["OPTIONS"] else [])
  ++ (if bool_decide ("GET" ∈ given ∧ "HEAD" ∉ given) then ["HEAD"] else []).

(** URL matching is werkzeug's: for the rules of an application and a
    request, the rule that the request is routed to ([request.url_rule]),
    or the routing exception ([request.routing_exception]): [NotFound],
    [MethodNotAllowed], or the redirect to the URL that a rule is written
    with, for example for a path with a doubled slash. *)
Class UrlMatching := {
  url_match : list url_rule → Request → Result url_rule
}.

(** What reaches [make_response]: the [dict] of a view function or of the
    error handler, or a response object that is not JSON, with its body:
    the response of [make_default_options_response()], which is empty, or a
    routing redirect. *)
Inductive ReturnValue :=
  | ViewDict (rv : dict)
  | ResponseObject (body : string).

Definition make_default_options_response : ReturnValue := ResponseObject "".

Inductive Payload :=
  | Json (d : dict)
  | Raw (s : string).

(** A response: whether it is JSON, with its body, and the headers that
    the server sets (those that Flask sets itself, the content type, the
    length, [Allow] and [Location], are left out). *)
Record Response := {
  headers : gmap string string;
  payload : Payload
}.

(** Flask turns a returned [dict] into a JSON response. *)
Definition make_response (rv : ReturnValue) : Response :=
  match rv with
  | ViewDict rv => {| headers := ∅; payload := Json rv |}
  | ResponseObject body => {| headers := ∅; payload := Raw body |}
  end.

(** [Flask.dispatch_request]: a routing exception is raised; an OPTIONS
    request for a rule that leaves OPTIONS to Flask is answered without the
    view function; else the view function of the rule is called. *)
Definition dispatch_request `{UrlMatching} (app : list url_rule) (request : Request)
  : Result ReturnValue :=
  match url_match app request with
  | Raise e => Raise e
  | Ok r =>
      if provide_automatic_options r && bool_decide (method request = "OPTIONS")
      then Ok make_default_options_response
      else ViewDict <$> rule_view r request
  end.

End Flask.

(** ** The account handler ([account_server.py]) *)

Module AccountServer.
Import Flask.

(** Modelled from the spec: the validation of a field declared [str] by
    the models of lean/models/api.py, which are not part of the sources: a
    string is kept, a number or a boolean becomes its [str], and anything
    else is refused. *)
Definition str_validator (field : string) (v : json) : Result string :=
  match v with
  | JStr s => Ok s
  | JNum z => Ok (pretty z)
  | JBool b => Ok (if b then "True" else "False")
  | JNull | JArr _ | JObj _ =>
      Raise (ValidationError
               ("1 validation error for QCAccount" +:+ String "010" field
                  +:+ String "010" "  str type expected (type=type_error.str)"))
  end.

(** Modelled from the spec: [QCAccount(...).dict(exclude_none=True)], whose
    declaration (lean/models/api.py) is not part of the sources: a fixed
    account record (placeholder credit balance) tagged with the resolved
    organization id, a string. *)
Definition QCAccount_dict (organizationId : json) (creditBalance : Z) : Result dict :=
  match str_validator "organizationId" organizationId with
  | Ok organizationId =>
      Ok {[ "organizationId" := JStr organizationId;
            "creditBalance" := JNum creditBalance ]}
  | Raise e => Raise e
  end.

(** The name of the Python type of a JSON value. *)
Definition type_name (v : json) : string :=
  match v with
  | JNull => "NoneType"
  | JBool _ => "bool"
  | JNum _ => "int"
  | JStr _ => "str"
  | JArr _ => "list"
  | JObj _ => "dict"
  end.

Definition _read (request : Request) : Result dict :=
  match request_json request with
  | JsonError e => Raise e
  | JsonValue v =>
      Raise (AttributeError ("'" +:+ type_name v +:+ "' object has no attribute 'get'"))
  | JsonObject body =>
      let organization_id := default JNull (body !! "organizationId") in
      let organization_id :=
        match organization_id with
        | JNull => JStr "fake-organization-id"
        | _ => organization_id
        end in
      QCAccount_dict organization_id 1000%Z
  end.

Definition register_routes (app : list url_rule) : list url_rule :=
  app ++ [ {| rule_path := "/account/read"; rule_view := _read;
              rule_methods := ["POST"] |} ].

End AccountServer.

(** ** The route dispatcher ([api_server.py]) *)

Module ApiServer.
Import Flask.

(** What the logger's debug channel receives: a message, or the traceback
    of the exception that is being handled, whose text is not modelled. *)
Inductive LogEntry :=
  | Message (msg : string)
  | Traceback (e : exn).

(** The logger's debug channel is the state of the dispatcher. *)
Definition Log := list LogEntry.

(** [APIServer.__init__]: the application with the account routes. *)
Definition _app : list url_rule := AccountServer.register_routes [].

Definition _before_request (request : Request) : M Log unit :=
  body ← match data_decode request with
         | Text body => mret body
         | NotUtf8 msg => raise (UnicodeDecodeError msg)
         end;
  let body := if decide (body ≠ "") then " with body:" +:+ String "010" body else "" in
  modify (λ log, log ++ [Message ("<-- " +:+ method request +:+ " " +:+ url request
                                    +:+ body)]).

Definition _after_request (response : Response) : Response :=
  let response :=
    foldl (λ r header, {| headers := <[header := "*"]> (headers r);
                           payload := payload r |})
      response
      ["Access-Control-Allow-Origin"; "Access-Control-Allow-Headers";
       "Access-Control-Allow-Methods"] in
  match payload response with
  | Json data =>
      (* response.is_json *)
      if decide ("success" ∈ dom data) then response
      else {| headers := headers response;
              payload := Json (<["success" := JBool true]> data) |}
  | Raw _ => response
  end.

Definition _error_handler (exception : exn) : M Log dict :=
  _ ← modify (λ log, log ++ [Traceback exception]);
  mret ({[ "errors" := JArr [JStr (str exception)];
           "success" := JBool false ]} : dict).

(** [Flask.handle_user_exception] with the handler that [__init__]
    registers for [Exception]: a routing redirect is returned as the
    response that it is, every other exception goes to the handler. *)
Definition handle_user_exception (e : exn) : M Log ReturnValue :=
  match e with
  | RequestRedirect _ body => mret (ResponseObject body)
  | _ => rv ← _error_handler e; mret (ViewDict rv)
  end.

(** One request through the application, as [Flask.full_dispatch_request]
    runs it with the hooks that [__init__] registers: the before-request
    hook and the dispatch; the exception handling on an exception of
    either; the after-request hook on the response. *)
Definition full_dispatch_request `{UrlMatching} (app : list url_rule)
    (request : Request) : M Log Response :=
  rv ← try_except
         (_ ← _before_request request;
          lift_result (dispatch_request app request))
         handle_user_exception;
  mret (_after_request (make_response rv)).

(** The line that the before-request hook logs for a request with the
    body [body]. *)
Definition request_line (request : Request) (body : string) : LogEntry :=
  Message ("<-- " +:+ method request +:+ " " +:+ url request +:+
           (if decide (body = "") then ""
            else " with body:" +:+ String "010" body)).

(** What a handler promises about a [success] field of its own. *)
Definition success_well_typed (rv : Result ReturnValue) : Prop :=
  ∀ body v, rv = Ok (ViewDict body) → body !! "success" = Some v → ∃ b, v = JBool b.

End ApiServer.

(** ** A scenario for the dispatcher

    URL matching as far as the scenarios need it: a request whose path is
    the path of a rule as it is written is routed to the first such rule
    that is registered with the method, and refused with a 405 if there is
    none; every other path is taken to match no rule, which is a 404
    (werkzeug's redirects, for instance for a doubled slash, are not part of
    the scenario). *)

Module RouteScenario.
Import Flask.

Definition match_exact (app : list url_rule) (request : Request) : Result url_rule :=
  let matching := List.filter (λ r, bool_decide (rule_path r = rule request)) app in
  match List.find (λ r, bool_decide (method request ∈ methods r)) matching with
  | Some r => Ok r
  | None =>
      match matching with
      | [] => Raise HTTPNotFound
      | _ :: _ => Raise HTTPMethodNotAllowed
      end
  end.

Definition matching : UrlMatching := {| url_match := match_exact |}.

(** A POST request to the account route. *)
Definition account_request (body : RequestJson) : Request :=
  {| method := "POST"; url := "http://localhost:5612/account/read";
     rule := "/account/read"; data_decode := Text ""; request_json := body |}.

End RouteScenario.

(** ** Paths and the file system *)

Module Fs.

(** An absolute path, as the list of its components. *)
Abbreviation path := (list string).

(** The part of [os.stat_result] that the servers read. *)
Record stat_result := {
  st_mtime_ns : Z;
  st_ctime_ns : Z
}.

(** The values a sidecar configuration file holds. *)
Inductive value :=
  | VStr (s : string)
  | VInt (z : Z)
  | VDict (d : gmap string string).

(** The content of a regular file: a JSON object (a sidecar file), or
    anything else. *)
Inductive content :=
  | Bytes (b : string)
  | Config (data : gmap string value).

Inductive node :=
  | Dir (st : stat_result)
  | File (st : stat_result) (c : content).

(** The file system: what is found at each path. *)
Abbreviation FS := (gmap path node).

(** What the operating system decides when a file or directory is written:
    the stat record after a write (given the one before, if any), and of
    a new directory. *)
Class Os := {
  stat_on_write : option stat_result → stat_result;
  new_dir_stat : stat_result
}.

(** [s.split(sep)] *)
Fixpoint split (sep : ascii) (s : string) : list string :=
  match s with
  | EmptyString => [EmptyString]
  | String c s' =>
      if Ascii.eqb c sep then EmptyString :: split sep s'
      else match split sep s' with
           | [] => [String c EmptyString]
           | w :: ws => String c w :: ws
           end
  end.

(** The components of a POSIX path string, as pathlib keeps them: empty
    components and [.] are dropped, a component [..] stays. *)
Definition parts (s : string) : path :=
  filter (λ w, w ≠ "" ∧ w ≠ ".") (split "/" s).

(** A path that the operating system resolves to itself: no component is
    [..].  The file system below is indexed by such paths; it has no
    symbolic links and does not resolve a [..] itself. *)
Definition plain (p : path) : Prop := ".." ∉ p.

Definition is_absolute (s : string) : bool :=
  match s with
  | String c _ => Ascii.eqb c "/"
  | EmptyString => false
  end.

(** [p / s]: an absolute right operand replaces the left one. *)
Definition truediv (p : path) (s : string) : path :=
  if is_absolute s then parts s else p ++ parts s.

(** [p.parent] *)
Definition parent (p : path) : path := removelast p.

(** [p.as_posix()] for an absolute path. *)
Definition as_posix (p : path) : string :=
  match p with
  | [] => "/"
  | _ => String.concat "" (map (λ c, "/" +:+ c) p)
  end.

Definition exists_ (fs : FS) (p : path) : bool := bool_decide (is_Some (fs !! p)).

Definition is_dir (fs : FS) (p : path) : bool :=
  match fs !! p with
  | Some (Dir _) => true
  | _ => false
  end.

(** Nothing is found at [p] or below it. *)
Definition free (fs : FS) (p : path) : Prop :=
  ∀ q, p `prefix_of` q → fs !! q = None.

(** [p.stat()] *)
Definition stat (fs : FS) (p : path) : Result stat_result :=
  match fs !! p with
  | Some (Dir st) | Some (File st _) => Ok st
  | None => Raise (OSError "No such file or directory")
  end.

(** [root.rglob(name)] for a literal name: every entry below [root] with
    that name, in the order in which the file system lists them, which
    depends on the names that exist only. *)
Definition rglob (fs : FS) (root : path) (name : string) : list path :=
  filter (λ p, root `prefix_of` p ∧ length root < length p ∧ last p = Some name)
    (elements (dom fs)).

(** [p.relative_to(root)] *)
Definition relative_to (p root : path) : Result path :=
  if decide (root `prefix_of` p) then Ok (drop (length root) p)
  else Raise (ValueError "path is not in the subpath of the root").

(** [as_posix()] of a relative path. *)
Definition as_posix_relative (p : path) : string :=
  match p with
  | [] => "."
  | _ => String.concat "/" p
  end.

(** [shutil.rmtree(p)] *)
Definition rmtree (p : path) (fs : FS) : Result FS :=
  match fs !! p with
  | Some (Dir _) => Ok (filter (λ kv, ¬ p `prefix_of` kv.1) fs)
  | Some (File _ _) => Raise (OSError "Not a directory")
  | None => Raise (OSError "No such file or directory")
  end.

(** A file-system operation as a computation on the file system. *)
Definition fs_op (f : FS → Result FS) : M FS unit := λ fs,
  match f fs with
  | Ok fs' => (Ok tt, fs')
  | Raise e => (Raise e, fs)
  end.

Section os.
Context `{Os}.

Definition mkdir_exist_ok (p : path) (fs : FS) : Result FS :=
  match fs !! p with
  | None => Ok (<[p := Dir new_dir_stat]> fs)
  | Some (Dir _) => Ok fs
  | Some (File _ _) => Raise (OSError "File exists")
  end.

Fixpoint makedirs_go (base rest : path) (fs : FS) : Result FS :=
  match rest with
  | [] => Ok fs
  | c :: rest' =>
      match mkdir_exist_ok (base ++ [c]) fs with
      | Ok fs' => makedirs_go (base ++ [c]) rest' fs'
      | Raise e => Raise e
      end
  end.

(** [p.mkdir(parents=True, exist_ok=True)] *)
Definition makedirs (p : path) (fs : FS) : Result FS := makedirs_go [] p fs.

(** [with p.open("wb+") as f: f.write(c)] *)
Definition write_file (p : path) (c : content) (fs : FS) : Result FS :=
  match fs !! p with
  | Some (Dir _) => Raise (OSError "Is a directory")
  | Some (File st _) => Ok (<[p := File (stat_on_write (Some st)) c]> fs)
  | None => Ok (<[p := File (stat_on_write None) c]> fs)
  end.

(** Where an entry goes when the tree at [src] is renamed to [dst]. *)
Definition rebase (src dst p : path) : path :=
  if decide (src `prefix_of` p) then dst ++ drop (length src) p else p.

Definition rename_tree (src dst : path) (fs : FS) : FS :=
  list_to_map (prod_map (rebase src dst) id <$> map_to_list fs).

(** [shutil.move(src, dst)] for a directory [src]: into [dst] when that
    is a directory; refused into [src] itself or onto a file; else the tree
    is renamed (or copied and removed, which creates missing parents). *)
Definition shutil_move (src dst : path) (fs : FS) : Result FS :=
  let real_dst :=
    if is_dir fs dst then dst ++ option_list (last src) else dst in
  if is_dir fs dst && exists_ fs real_dst
  then Raise (ShutilError "Destination path already exists")
  else if decide (src `prefix_of` real_dst)
  then Raise (ShutilError "Cannot move a directory into itself")
  else if exists_ fs real_dst
  then Raise (OSError "File exists")
  else match makedirs (parent real_dst) fs with
       | Raise e => Raise e
       | Ok fs' => Ok (rename_tree src real_dst fs')
       end.

End os.
End Fs.

(** ** The data downloader ([data_downloader.py]) *)

Module DataDownloader.
Import Fs.

(** What the run shows and does, in order. *)
Inductive Event :=
  | Info (msg : string)
  | Warn (msg : string)
  | Confirm (text : string) (answer : bool)
  | Download (relative_file organization_id : string).

(** The instance ([self._force_overwrite]), the local disk and the
    events so far. *)
Record State := {
  fs : FS;
  _force_overwrite : option bool;
  events : list Event
}.

(** The collaborators: the API client's [data.download_file], the user at
    [click.confirm], and the data directory of the Lean configuration. *)
Class Collaborators := {
  download_file : string → string → Result string;
  click_confirm : string → bool;
  get_data_directory : path
}.

Definition log (e : Event) : M State unit :=
  modify (λ s, {| fs := fs s; _force_overwrite := _force_overwrite s;
                  events := events s ++ [e] |}).

Definition set_force_overwrite (b : bool) : M State unit :=
  modify (λ s, {| fs := fs s; _force_overwrite := Some b; events := events s |}).

Definition on_fs (f : FS → Result FS) : M State unit := λ s,
  match f (fs s) with
  | Ok fs' => (Ok tt, {| fs := fs'; _force_overwrite := _force_overwrite s;
                         events := events s |})
  | Raise e => (Raise e, s)
  end.

Definition confirm_text : string :=
  "Do you want to temporarily enable overwriting for the previously selected products?".

Section downloader.
Context `{Os} `{Collaborators}.

Definition _should_overwrite (overwrite_flag : bool) (path : path) : M State bool :=
  s ← get_state;
  if overwrite_flag || default false (_force_overwrite s) then mret true
  else
    _ ← log (Warn (as_posix path +:+ " already exists, use --overwrite to overwrite it"));
    _ ← match _force_overwrite s with
        | None =>
            let answer := click_confirm confirm_text in
            _ ← log (Confirm confirm_text answer);
            set_force_overwrite answer
        | Some _ => mret tt
        end;
    s ← get_state;
    mret (default false (_force_overwrite s)).

Definition not_billed (relative_file : string) : string :=
  relative_file +:+ " does not exist in the QuantConnect Data Library"
    +:+ String "010" "You have not been billed for this file".

(** The second half of [_download_file]: the request to the remote and
    the write to the local disk. *)
Definition fetch_and_write (relative_file : string) (local_path : path)
    (organization_id : string) : M State unit :=
  _ ← log (Download relative_file organization_id);
  match download_file relative_file organization_id with
  | Raise (RequestFailedError error) =>
      if contains "File not found" error
      then log (Warn (not_billed relative_file))
      else raise (RequestFailedError error)
  | Raise error => raise error
  | Ok file_content =>
      _ ← on_fs (makedirs (parent local_path));
      on_fs (write_file local_path (Bytes file_content))
  end.

Definition _download_file (relative_file : string) (overwrite_flag : bool)
    (data_directory : path) (organization_id : string) : M State unit :=
  let local_path := truediv data_directory relative_file in
  s ← get_state;
  skip ← (if exists_ (fs s) local_path
          then b ← _should_overwrite overwrite_flag local_path; mret (negb b)
          else mret false);
  if (skip : bool) then mret tt
  else fetch_and_write relative_file local_path organization_id.

(** Whether [_download_file] goes to the remote for a file in a state: it
    does unless the file exists locally and overwriting is not allowed, by
    the flag, by the answer remembered or by the answer now given. *)
Definition goes_to_remote (overwrite_flag : bool) (s : State) (local_path : path) : bool :=
  negb (exists_ (fs s) local_path) || overwrite_flag ||
  match _force_overwrite s with
  | Some answer => answer
  | None => click_confirm confirm_text
  end.

(** Whether [_download_file] asks the user in a state. *)
Definition asks_user (overwrite_flag : bool) (s : State) (local_path : path) : bool :=
  exists_ (fs s) local_path && negb overwrite_flag &&
  match _force_overwrite s with
  | Some _ => false
  | None => true
  end.

(** The loop of [download_files], from position [index] of [total]. *)
Fixpoint download_loop (total index : nat) (files : list string)
    (overwrite_flag : bool) (data_dir : path) (organization_id : string)
  : M State unit :=
  match files with
  | [] => mret tt
  | file :: files' =>
      _ ← log (Info ("[" +:+ pretty (index + 1)%nat +:+ "/" +:+ pretty total
                       +:+ "] Downloading " +:+ file));
      _ ← _download_file file overwrite_flag data_dir organization_id;
      download_loop total (S index) files' overwrite_flag data_dir organization_id
  end.

Definition download_files (files : list string) (overwrite_flag : bool)
    (organization_id : string) : M State unit :=
  let data_dir := get_data_directory in
  download_loop (length files) 0 files overwrite_flag data_dir organization_id.

End downloader.

(** A fresh instance ([__init__]) over a disk. *)
Definition init (disk : FS) : State :=
  {| fs := disk; _force_overwrite := None; events := [] |}.

Definition is_confirm (e : Event) : bool :=
  match e with Confirm _ _ => true | _ => false end.

Definition is_download (e : Event) : bool :=
  match e with Download _ _ => true | _ => false end.

(** How often the user was asked. *)
Definition prompts (l : list Event) : nat := length (List.filter is_confirm l).

(** How often the remote was asked for a file. *)
Definition downloads (l : list Event) : nat := length (List.filter is_download l).

Definition is_info (e : Event) : bool :=
  match e with Info _ => true | _ => false end.

(** The progress lines of [download_files] for the files from position
    [index] (counted from 0) of [total]. *)
Fixpoint progress_lines (total index : nat) (files : list string) : list Event :=
  match files with
  | [] => []
  | file :: files' =>
      Info ("[" +:+ pretty (index + 1)%nat +:+ "/" +:+ pretty total
              +:+ "] Downloading " +:+ file)
      :: progress_lines total (S index) files'
  end.

End DataDownloader.

(** ** The project handler ([project_server.py]) *)

Module ProjectServer.
Import Fs.

(** The request fields ([g.input]). *)
Abbreviation Input := (gmap string string).

(** What [project_server.py] imports and is constructed with: the
    constants and the enum of languages, the working root of the
    configuration manager, the file enumerator of the sync component, the
    policy that picks a local id for a directory without one, the project
    scaffolding command, and [int] and [datetime] of Python. *)
Class Collaborators := {
  datetime : Type;
  QCLanguage : Type;
  PROJECT_CONFIG_FILE_NAME : string;
  FAKE_ORGANIZATION_id : string;
  FAKE_ORGANIZATION_member_id : string;
  FAKE_ORGANIZATION_member_name : string;
  QCLanguage_members : list (string * QCLanguage);
  get_cli_root_directory : path;
  get_files_to_sync : FS → path → list path;
  new_local_id : FS → path → Z;
  create_project_callback : string → string → M FS unit;
  int : string → Result Z;
  datetime_now : datetime;
  fromtimestamp_utc : Z → datetime
}.

(** [d[key]] *)
Definition getitem {S} (d : Input) (key : string) : M S string :=
  match d !! key with
  | Some v => mret v
  | None => raise (KeyError key)
  end.

(** [key in d] *)
Definition contains_key (key : string) (d : Input) : bool :=
  bool_decide (is_Some (d !! key)).

(** [max(...)] and [min(...)] of a sequence. *)
Definition py_max (l : list Z) : Result Z :=
  match l with
  | [] => Raise (ValueError "max() arg is an empty sequence")
  | x :: l' => Ok (foldl Z.max x l')
  end.

Definition py_min (l : list Z) : Result Z :=
  match l with
  | [] => Raise (ValueError "min() arg is an empty sequence")
  | x :: l' => Ok (foldl Z.min x l')
  end.

(** [[f(x) for x in l]] for an [f] that reads only. *)
Fixpoint map_result {A B} (f : A → Result B) (l : list A) : Result (list B) :=
  match l with
  | [] => Ok []
  | x :: l' =>
      match f x with
      | Raise e => Raise e
      | Ok y => match map_result f l' with
                | Raise e => Raise e
                | Ok ys => Ok (y :: ys)
                end
      end
  end.

Record QCParameter := {
  key : string;
  value_ : string
}.

Record QCCollaborator := {
  id : Z;
  uid : string;
  blivecontrol : bool;
  epermission : string;
  profileimage : string;
  collaborator_name : string;
  owner : bool
}.

Record QCLiveResults := {
  eStatus : string
}.

(** Modelled from the spec: the sidecar store of a project directory
    (lean/components/config/storage.py is not part of the sources): one
    persisted key/value store per project directory, read when the object
    is made and written back on every [set]. *)
Record Storage := {
  file : path;
  _data : gmap string value
}.

Section server.
Context `{Os} `{Collaborators}.

Record QCProject := {
  projectId : Z;
  organizationId : string;
  name : string;
  description : string;
  modified : datetime;
  created : datetime;
  language : QCLanguage;
  collaborators : list QCCollaborator;
  leanVersionId : Z;
  leanPinnedToMaster : bool;
  parameters : list QCParameter;
  liveResults : QCLiveResults;
  libraries : list Z
}.

Record QCCreatedProject := {
  created_projectId : Z;
  created_name : string;
  created_modified : datetime;
  created_created : datetime
}.

(** Modelled from the spec: [Storage(file)], see [Storage]. *)
Definition Storage_init (file : path) : M FS Storage :=
  fs ← get_state;
  match fs !! file with
  | None => mret {| file := file; _data := ∅ |}
  | Some (File _ (Config data)) => mret {| file := file; _data := data |}
  | Some (File _ (Bytes _)) => raise (ValueError "JSONDecodeError")
  | Some (Dir _) => raise (OSError "Is a directory")
  end.

(** Modelled from the spec: [storage.get(key, default)], see [Storage]. *)
Definition Storage_get (storage : Storage) (key : string) (default : value) : value :=
  match _data storage !! key with
  | Some v => v
  | None => default
  end.

(** Modelled from the spec: [storage.set(key, value)], see [Storage]: the
    object is updated and the file rewritten. *)
Definition Storage_set (storage : Storage) (key : string) (v : value) : M FS Storage :=
  let data := <[key := v]> (_data storage) in
  _ ← fs_op (write_file (file storage) (Config data));
  mret {| file := file storage; _data := data |}.

(** Modelled from the spec: [ProjectConfigManager.get_project_config]
    (not part of the sources): the sidecar store of the directory. *)
Definition get_project_config (project_directory : path) : M FS Storage :=
  Storage_init (project_directory ++ [PROJECT_CONFIG_FILE_NAME]).

(** Modelled from the spec: [ProjectConfigManager.get_local_id] (not part
    of the sources): resolve the local integer id stored in the sidecar
    file of the directory, or assign one and store it there. *)
Definition get_local_id (project_directory : path) : M FS Z :=
  project_config ← get_project_config project_directory;
  match _data project_config !! "local-id" with
  | Some (VInt local_id) => mret local_id
  | Some _ => raise (TypeError "local-id is not an integer")
  | None =>
      fs ← get_state;
      let project_id := new_local_id fs project_directory in
      _ ← Storage_set project_config "local-id" (VInt project_id);
      mret project_id
  end.

(** The directories below the working root that hold a sidecar file:
    [p.parent for p in cli_root.rglob(PROJECT_CONFIG_FILE_NAME)]. *)
Definition project_directories (fs : FS) : list path :=
  parent <$> rglob fs get_cli_root_directory PROJECT_CONFIG_FILE_NAME.

(** The local id that the sidecar file of a directory stores. *)
Definition stored_local_id (fs : FS) (project_directory : path) : option Z :=
  match fs !! (project_directory ++ [PROJECT_CONFIG_FILE_NAME]) with
  | Some (File _ (Config data)) =>
      match data !! "local-id" with
      | Some (VInt local_id) => Some local_id
      | _ => None
      end
  | _ => None
  end.

(** Modelled from the spec: [ProjectManager.find_project_by_id] (not part
    of the sources): resolve exactly one project by id; fails (the NotFound
    of the spec) if the id does not correspond to a tracked directory. *)
Definition find_project_by_id (local_id : Z) : M FS path :=
  fs ← get_state;
  match
    List.find (λ d, bool_decide (stored_local_id fs d = Some local_id))
      (project_directories fs)
  with
  | Some project_dir => mret project_dir
  | None => raise (RuntimeError ("Project with local id '" +:+ pretty local_id
                                   +:+ "' does not exist"))
  end.

(** [next(v for k, v in QCLanguage.__members__.items() if k == project_language)] *)
Definition next_language (project_language : value) : Result QCLanguage :=
  match
    List.find (λ kv, match project_language with
                     | VStr s => bool_decide (kv.1 = s)
                     | _ => false
                     end) QCLanguage_members
  with
  | Some kv => Ok kv.2
  | None => Raise StopIteration
  end.

Definition _create_project (project_dir : path) : M FS QCProject :=
  project_id ← get_local_id project_dir;
  project_config ← get_project_config project_dir;
  relative_dir ← lift_result (relative_to project_dir get_cli_root_directory);
  let project_language := Storage_get project_config "language" (VStr "Python") in
  fs ← get_state;
  stats ← lift_result (map_result (stat fs) (get_files_to_sync fs project_dir));
  stats ← (if decide (length stats = 0%nat)
           then st ← lift_result (stat fs project_dir); mret [st]
           else mret stats);
  mtime ← lift_result (py_max (st_mtime_ns <$> stats));
  let modified_time := fromtimestamp_utc mtime in
  ctime ← lift_result (py_min (st_ctime_ns <$> stats));
  let created_time := fromtimestamp_utc ctime in
  project_parameters ←
    match Storage_get project_config "parameters" (VDict ∅) with
    | VDict d => mret ((λ kv, {| key := kv.1; value_ := kv.2 |}) <$> map_to_list d)
    | _ => raise (TypeError "object has no attribute 'items'")
    end;
  language ← lift_result (next_language project_language);
  description ←
    match Storage_get project_config "description" (VStr "") with
    | VStr s => mret s
    | _ => raise (ValueError "description: str type expected")
    end;
  mret {| projectId := project_id;
          organizationId := FAKE_ORGANIZATION_id;
          name := as_posix_relative relative_dir;
          description := description;
          modified := modified_time;
          created := created_time;
          language := language;
          collaborators :=
            [ {| id := 0; uid := FAKE_ORGANIZATION_member_id;
                 blivecontrol := true; epermission := "write";
                 profileimage := "https://cdn.quantconnect.com/i/tu/qc-logo.svg";
                 collaborator_name := FAKE_ORGANIZATION_member_name;
                 owner := true |} ];
          leanVersionId := -1;
          leanPinnedToMaster := true;
          parameters := project_parameters;
          liveResults := {| eStatus := "Undefined" |};
          libraries := [] |}.

Definition _projects_read (input : Input) : M FS (list QCProject) :=
  match input !! "projectId" with
  | Some project_id =>
      project_id ← lift_result (int project_id);
      project_dir ← find_project_by_id project_id;
      project ← _create_project project_dir;
      mret [project]
  | None =>
      fs ← get_state;
      list_comprehension _create_project (project_directories fs)
  end.

(** The f-strings of the indexed parameter fields. *)
Definition parameters_key (index : nat) : string :=
  "parameters[" +:+ pretty index +:+ "][key]".

Definition parameters_value (index : nat) : string :=
  "parameters[" +:+ pretty index +:+ "][value]".

(** The [while] loop of [_projects_update]; [None] when the fuel is used up
    before the loop condition fails. *)
Fixpoint parameters_loop (fuel : nat) (input : Input) (index : nat)
    (parameters : gmap string string) : option (Result (gmap string string)) :=
  match fuel with
  | O => None
  | S fuel' =>
      match input !! parameters_key index with
      | None => Some (Ok parameters)
      | Some k =>
          match input !! parameters_value index with
          | None => Some (Raise (KeyError (parameters_value index)))
          | Some v => parameters_loop fuel' input (S index) (<[k := v]> parameters)
          end
      end
  end.

(** The loop with fuel for one more round than the request has fields. *)
Definition indexed_parameters (input : Input) : M FS (gmap string string) :=
  match parameters_loop (S (size input)) input 0 ∅ with
  | Some r => lift_result r
  | None => raise (OtherError "unreachable")
  end.

(** The three partial updates of [_projects_update]. *)
Definition update_description (input : Input) (project_config : Storage)
  : M FS Storage :=
  if contains_key "description" input then
    description ← getitem input "description";
    Storage_set project_config "description" (VStr description)
  else mret project_config.

Definition update_parameters (input : Input) (project_config : Storage)
  : M FS Storage :=
  if contains_key "parameters" input then
    Storage_set project_config "parameters" (VDict ∅)
  else if contains_key "parameters[0][key]" input then
    parameters ← indexed_parameters input;
    Storage_set project_config "parameters" (VDict parameters)
  else mret project_config.

Definition conflict_message (name : string) : string :=
  "There already exists a project named '" +:+ name +:+ "'".

Definition update_name (input : Input) (project_dir : path) : M FS unit :=
  if contains_key "name" input then
    name ← getitem input "name";
    let new_dir := truediv get_cli_root_directory (lstrip "/" name) in
    fs ← get_state;
    if is_dir fs new_dir then raise (RuntimeError (conflict_message name))
    else fs_op (shutil_move project_dir new_dir)
  else mret tt.

Definition _projects_update (input : Input) : M FS unit :=
  project_id ← getitem input "projectId";
  project_id ← lift_result (int project_id);
  project_dir ← find_project_by_id project_id;
  project_config ← get_project_config project_dir;
  project_config ← update_description input project_config;
  project_config ← update_parameters input project_config;
  update_name input project_dir.

(** The language that [_projects_create] hands to the scaffolding. *)
Definition create_language (language : string) : string :=
  if decide (language = "Py") then "python" else "csharp".

(** The second half of [_projects_create], after the scaffolding. *)
Definition created_record (name : string) : M FS (list QCCreatedProject) :=
  let project_dir := truediv get_cli_root_directory name in
  let now := datetime_now in
  project_id ← get_local_id project_dir;
  mret [ {| created_projectId := project_id; created_name := name;
            created_modified := now; created_created := now |} ].

Definition _projects_create (input : Input) : M FS (list QCCreatedProject) :=
  name ← getitem input "name";
  let name := lstrip "/" name in
  language ← getitem input "language";
  let language := create_language language in
  _ ← create_project_callback name language;
  created_record name.

Definition _projects_delete (input : Input) : M FS unit :=
  project_id ← getitem input "projectId";
  project_id ← lift_result (int project_id);
  project_dir ← find_project_by_id project_id;
  fs_op (rmtree project_dir).

(** The data of the sidecar file of a directory. *)
Definition sidecar (fs : FS) (project_dir : path) : option (gmap string value) :=
  match fs !! (project_dir ++ [PROJECT_CONFIG_FILE_NAME]) with
  | Some (File _ (Config data)) => Some data
  | _ => None
  end.

(** A sidecar that the metadata can be derived from: the local id, if
    stored, is an integer; the language (Python if none is stored) names
    a member of the enum; the parameters, if stored, are a dictionary and the
    description, if stored, is a string. *)
Definition readable_config (data : gmap string value) : Prop :=
  (data !! "local-id" = None ∨ ∃ z, data !! "local-id" = Some (VInt z)) ∧
  is_ok (next_language (default (VStr "Python") (data !! "language"))) = true ∧
  (data !! "parameters" = None ∨ ∃ d, data !! "parameters" = Some (VDict d)) ∧
  (data !! "description" = None ∨ ∃ s, data !! "description" = Some (VStr s)).

(** A valid project directory: a directory at or below the working root
    with a readable sidecar file. *)
Definition valid_project (fs : FS) (project_dir : path) : Prop :=
  get_cli_root_directory `prefix_of` project_dir ∧
  is_dir fs project_dir = true ∧
  ∃ data, sidecar fs project_dir = Some data ∧ readable_config data.

(** What is assumed of the file enumerator of the sync component: the
    files it lists exist. *)
Definition lists_existing_files : Prop :=
  ∀ fs project_dir p, p ∈ get_files_to_sync fs project_dir → is_Some (fs !! p).

(** A request that carries the parameters as the indexed pair list
    [pairs], the indices consecutive from 0, and no empty-parameters
    signal. *)
Definition encodes_parameters (input : Input) (pairs : list (string * string)) : Prop :=
  input !! "parameters" = None ∧
  pairs ≠ [] ∧
  (∀ i k v, pairs !! i = Some (k, v) →
     input !! parameters_key i = Some k ∧ input !! parameters_value i = Some v) ∧
  input !! parameters_key (length pairs) = None.

(** The map formed from a pair list, a later pair replacing an earlier
    one with the same key. *)
Definition dict_of_pairs (pairs : list (string * string)) : gmap string string :=
  foldl (λ m kv, <[kv.1 := kv.2]> m) ∅ pairs.

(** The parameters of a record, as a map. *)
Definition parameters_dict (project : QCProject) : gmap string string :=
  list_to_map ((λ p, (key p, value_ p)) <$> parameters project).

(** [fs'] is [fs] with the sidecar file of a directory rewritten to hold
    [data']: no name appears or disappears, nothing else changes. *)
Definition rewrites_sidecar (fs fs' : FS) (project_dir : path)
    (data' : gmap string value) : Prop :=
  sidecar fs' project_dir = Some data' ∧
  dom fs' = dom fs ∧
  ∀ q, q ≠ project_dir ++ [PROJECT_CONFIG_FILE_NAME] → fs' !! q = fs !! q.

(** The sidecar data after the description step of a request. *)
Definition described (input : Input) (data : gmap string value) : gmap string value :=
  match input !! "description" with
  | Some description => <["description" := VStr description]> data
  | None => data
  end.

(** What a request asks for the parameters: nothing, or a new parameter
    set, which the loop over the indexed fields may fail to build. *)
Inductive parameters_request :=
  | KeepParameters
  | SetParameters (r : Result (gmap string string)).

Definition requested_parameters (input : Input) : parameters_request :=
  if contains_key "parameters" input then SetParameters (Ok ∅)
  else if contains_key "parameters[0][key]" input then
    match parameters_loop (S (size input)) input 0 ∅ with
    | Some r => SetParameters r
    | None => SetParameters (Raise (OtherError "unreachable"))
    end
  else KeepParameters.

End server.
End ProjectServer.

(** ** A scenario for the data downloader

    The data-fetch scenario of the spec: [a.zip] is on the local disk,
    [b.zip] is not, the remote has [b.zip] and [c.zip] only, reports
    "File not found" for [a.zip] and a server error for anything else,
    and the user answers no. *)

Module Scenario.
Import Fs DataDownloader.

Definition epoch : stat_result := {| st_mtime_ns := 0; st_ctime_ns := 0 |}.

Definition os : Os :=
  {| stat_on_write := λ _, {| st_mtime_ns := 1; st_ctime_ns := 1 |};
     new_dir_stat := {| st_mtime_ns := 1; st_ctime_ns := 1 |} |}.

Definition remote : Collaborators :=
  {| download_file := λ relative_file _,
       if decide (relative_file = "b.zip") then Ok "b-bytes"
       else if decide (relative_file = "c.zip") then Ok "c-bytes"
       else if decide (relative_file = "a.zip")
       then Raise (RequestFailedError "GET request failed: File not found")
       else Raise (RequestFailedError "GET request failed: 500");
     click_confirm := λ _, false;
     get_data_directory := ["data"] |}.

Definition disk : FS :=
  {[ ["data"] := Dir epoch; ["data"; "a.zip"] := File epoch (Bytes "old") ]}.

(** The disk with a stale copy of [b.zip] as well. *)
Definition stale_disk : FS :=
  <[ ["data"; "b.zip"] := File epoch (Bytes "stale") ]> disk.

End Scenario.

(** ** A scenario for the project handler

    A working root [/home/lean] with two projects, [alpha] (local id 1, two
    source files) and [gamma] (no local id yet, no source file), and a
    regular file [notes.txt]; a second disk has a project [beta] as well,
    whose sidecar stores a language that the enum does not have. *)

Module ProjectScenario.
Import Fs ProjectServer.

(** Modelled from the spec: the language enum of lean/models/api.py (not
    part of the sources), with the members Python and C#. *)
Inductive Language :=
  | CSharp
  | Python.

(** [int] on a string of decimal digits, which is all the scenario needs. *)
Fixpoint digits (s : string) (acc : Z) : Result Z :=
  match s with
  | EmptyString => Ok acc
  | String c s' =>
      match Ascii.is_nat c with
      | Some n => digits s' (10 * acc + Z.of_nat n)%Z
      | None => Raise (ValueError "invalid literal for int() with base 10")
      end
  end.

Definition int_of_digits (s : string) : Result Z :=
  match s with
  | EmptyString => Raise (ValueError "invalid literal for int() with base 10")
  | _ => digits s 0
  end.

Definition root : path := ["home"; "lean"].

(** The scaffolding: a directory with a sidecar file that stores the
    language. *)
Definition scaffold (name language : string) : M FS unit :=
  fs_op (λ fs,
    Ok (<[truediv root name ++ ["config.json"] :=
            File Scenario.epoch
              (Config {[ "language" :=
                           VStr (if decide (language = "python")
                                 then "Python" else "CSharp") ]})]>
          (<[truediv root name := Dir Scenario.epoch]> fs))).

Definition collaborators : Collaborators :=
  {| datetime := Z;
     QCLanguage := Language;
     PROJECT_CONFIG_FILE_NAME := "config.json";
     FAKE_ORGANIZATION_id := "fake-organization-id";
     FAKE_ORGANIZATION_member_id := "fake-member-id";
     FAKE_ORGANIZATION_member_name := "Local user";
     QCLanguage_members := [("CSharp", CSharp); ("Python", Python)];
     get_cli_root_directory := root;
     get_files_to_sync := λ fs project_dir,
       filter (λ p, project_dir `prefix_of` p ∧ last p ≠ Some "config.json"
                    ∧ is_dir fs p = false)
         (elements (dom fs));
     new_local_id := λ fs _, (100000000 + Z.of_nat (size fs))%Z;
     create_project_callback := scaffold;
     int := int_of_digits;
     datetime_now := 0%Z;
     fromtimestamp_utc := λ ns, ns |}.

Definition alpha : path := ["home"; "lean"; "alpha"].
Definition gamma : path := ["home"; "lean"; "gamma"].
Definition beta : path := ["home"; "lean"; "beta"].

Definition alpha_config : gmap string value :=
  {[ "language" := VStr "Python"; "local-id" := VInt 1;
     "description" := VStr "first" ]}.

Definition disk : FS :=
  {[ ["home"] := Dir Scenario.epoch;
     root := Dir Scenario.epoch;
     alpha := Dir Scenario.epoch;
     alpha ++ ["config.json"] := File Scenario.epoch (Config alpha_config);
     alpha ++ ["main.py"] :=
       File {| st_mtime_ns := 20; st_ctime_ns := 7 |} (Bytes "main");
     alpha ++ ["research.py"] :=
       File {| st_mtime_ns := 30; st_ctime_ns := 5 |} (Bytes "research");
     gamma := Dir {| st_mtime_ns := 40; st_ctime_ns := 3 |};
     gamma ++ ["config.json"] :=
       File Scenario.epoch (Config {[ "language" := VStr "CSharp" ]});
     root ++ ["notes.txt"] := File Scenario.epoch (Bytes "notes") ]}.

Definition disk_with_beta : FS :=
  <[beta := Dir Scenario.epoch]>
    (<[beta ++ ["config.json"] :=
         File Scenario.epoch (Config {[ "language" := VStr "Ruby" ]})]> disk).

(** A working root with one project, [delta], whose sidecar file holds
    the empty object. *)
Definition delta : path := ["home"; "lean"; "delta"].

Definition bare_disk : FS :=
  {[ ["home"] := Dir Scenario.epoch;
     root := Dir Scenario.epoch;
     delta := Dir Scenario.epoch;
     delta ++ ["config.json"] := File Scenario.epoch (Config ∅) ]}.

End ProjectScenario.

(** * Properties *)

(** ** The route dispatcher *)

Section dispatcher.
Import Flask ApiServer.
Context {matching : UrlMatching}.

Local Abbreviation envelope e :=
  ({[ "errors" := JArr [JStr (str e)]; "success" := JBool false ]} : dict).

(** What answers a request that ends in an exception. *)
Local Abbreviation error_payload e :=
  (match e with
   | RequestRedirect _ body => Raw body
   | _ => Json (envelope e)
   end).

(** The exception of the before-request hook, if it raises. *)
Local Abbreviation decode_error request :=
  (match data_decode request with
   | Text _ => None
   | NotUtf8 msg => Some (UnicodeDecodeError msg)
   end).

Lemma _after_request_payload (response : Response) (data : dict) :
  payload response = Json data →
  payload (_after_request response) =
    Json (if decide ("success" ∈ dom data) then data
          else <["success" := JBool true]> data).
Proof.
  intros Hp. unfold _after_request. simpl. rewrite Hp.
  destruct (decide ("success" ∈ dom data)); simpl; [done | reflexivity].
Qed.

Lemma _after_request_raw (response : Response) (text : string) :
  payload response = Raw text → payload (_after_request response) = Raw text.
Proof. intros Hp. unfold _after_request. simpl. by rewrite Hp. Qed.

Lemma _after_request_headers (response : Response) (header : string) :
  header ∈ ["Access-Control-Allow-Origin"; "Access-Control-Allow-Headers";
            "Access-Control-Allow-Methods"] →
  headers (_after_request response) !! header = Some "*".
Proof.
  intros Hin. unfold _after_request. simpl.
  assert (∀ h, h ∈ ["Access-Control-Allow-Origin"; "Access-Control-Allow-Headers";
                    "Access-Control-Allow-Methods"] →
    (<["Access-Control-Allow-Methods" := "*"]>
       (<["Access-Control-Allow-Headers" := "*"]>
          (<["Access-Control-Allow-Origin" := "*"]> (headers response)))) !! h
    = Some "*") as Hall.
  { intros h Hh. repeat (apply elem_of_cons in Hh as [-> | Hh]);
      [by simplify_map_eq .. | by apply elem_of_nil in Hh]. }
  destruct (payload response) as [d | s]; simpl; [| by apply Hall].
  destruct (decide ("success" ∈ dom d)); simpl; by apply Hall.
Qed.

(** The exception handling: what is answered and what is logged. *)
Lemma handle_user_exception_eq (e : exn) (log : Log) :
  handle_user_exception e log =
    match e with
    | RequestRedirect _ body => (Ok (ResponseObject body), log)
    | _ => (Ok (ViewDict (envelope e)), log ++ [Traceback e])
    end.
Proof. by destruct e. Qed.

(** One request: what is answered and what is logged. *)
Lemma full_dispatch_request_eq (app : list url_rule) (request : Request) (log : Log) :
  ∃ rv log',
    full_dispatch_request app request log
      = (Ok (_after_request (make_response rv)), log') ∧
    match data_decode request with
    | NotUtf8 msg => (Ok rv, log') = handle_user_exception (UnicodeDecodeError msg) log
    | Text body =>
        match dispatch_request app request with
        | Ok rv0 => rv = rv0 ∧ log' = log ++ [request_line request body]
        | Raise e =>
            (Ok rv, log') = handle_user_exception e (log ++ [request_line request body])
        end
    end.
Proof.
  assert (∀ e log0, ∃ rv log',
    handle_user_exception e log0 = (Ok rv, log')) as Hhandled.
  { intros e log0. rewrite handle_user_exception_eq. destruct e; eauto. }
  cbv [full_dispatch_request mbind M_bind mret M_ret try_except _before_request
       raise modify lift_result request_line].
  destruct (data_decode request) as [body | msg].
  2:{ destruct (Hhandled (UnicodeDecodeError msg) log) as (rv & log' & Hh).
      exists rv, log'. by rewrite Hh. }
  assert ((if decide (body ≠ "") then " with body:" +:+ String "010" body else "")
          = (if decide (body = "") then "" else " with body:" +:+ String "010" body))
    as ->.
  { destruct (decide (body = "")) as [Hb | Hb].
    - by rewrite decide_False by (by intros ?).
    - by rewrite decide_True. }
  destruct (dispatch_request app request) as [rv0 | e].
  - exists rv0. eexists. split; [reflexivity | done].
  - destruct (Hhandled e (log ++ [Message
        ("<-- " +:+ method request +:+ " " +:+ url request +:+
         (if decide (body = "") then "" else " with body:" +:+ String "010" body))]))
      as (rv & log' & Hh).
    exists rv, log'. by rewrite Hh.
Qed.

(** Flask answers a request itself only if it is an OPTIONS request that
    is routed to a rule which does not list OPTIONS; the answer is
    empty. *)
Lemma dispatch_request_options (app : list url_rule) (request : Request)
    (text : string) :
  dispatch_request app request = Ok (ResponseObject text) →
  text = "" ∧ method request = "OPTIONS" ∧
  ∃ r, url_match app request = Ok r ∧ "OPTIONS" ∉ upper <$> rule_methods r.
Proof.
  unfold dispatch_request.
  destruct (url_match app request) as [r | e]; [| discriminate].
  destruct (provide_automatic_options r && bool_decide (method request = "OPTIONS"))
    eqn:Hauto.
  - intros [= <-]. apply andb_true_iff in Hauto as [Hp Hm].
    apply bool_decide_eq_true in Hp, Hm. eauto.
  - destruct (rule_view r request); discriminate.
Qed.

(** C1, as the code has it: every request is answered with a response.
    When the handler returns, the body is its object, with [success: true]
    added only if it set no [success] field: a field that is present is
    never overwritten.  When the handler, the routing (no rule for the URL,
    or none with the method) or the decoding of the body in the
    before-request hook raises, the body is exactly
    [{errors: [message], success: false}], the [errors] list holding the one
    message string.  Two responses are Flask's own, have a body that is not
    JSON, and get no [success] field: the empty answer to an OPTIONS
    request that is routed to a rule which does not list OPTIONS, and a
    routing redirect.  Every other response is a JSON object that has a
    [success] field, and the field is a boolean whenever the handler's own
    [success], if it set one, is. *)
Theorem dispatcher_envelope (app : list url_rule) (request : Request) (log : Log) :
  ∃ response,
    (full_dispatch_request app request log).1 = Ok response ∧
    payload response =
      match decode_error request with
      | Some e => error_payload e
      | None =>
          match dispatch_request app request with
          | Raise e => error_payload e
          | Ok (ResponseObject body) => Raw body
          | Ok (ViewDict rv) =>
              Json (match rv !! "success" with
                    | Some _ => rv
                    | None => <["success" := JBool true]> rv
                    end)
          end
      end ∧
    (∀ text, dispatch_request app request = Ok (ResponseObject text) →
       text = "" ∧ method request = "OPTIONS" ∧
       ∃ r, url_match app request = Ok r ∧ "OPTIONS" ∉ upper <$> rule_methods r) ∧
    (∀ text, payload response = Raw text →
       decode_error request = None ∧
       (dispatch_request app request = Ok (ResponseObject text) ∨
        ∃ new_url, dispatch_request app request = Raise (RequestRedirect new_url text))) ∧
    (∀ body, payload response = Json body →
       is_Some (body !! "success") ∧
       (success_well_typed (dispatch_request app request) →
        ∃ b, body !! "success" = Some (JBool b))).
Proof.
  destruct (full_dispatch_request_eq app request log) as (rv & log' & Heq & Hrv).
  exists (_after_request (make_response rv)). rewrite Heq. split; [reflexivity |].
  assert (∀ e, payload (_after_request (make_response (ViewDict (envelope e))))
               = Json (envelope e)) as Herr.
  { intros e. rewrite (_after_request_payload _ (envelope e)) by done.
    by rewrite decide_True by (by vm_compute). }
  assert (∀ rv0, payload (_after_request (make_response (ViewDict rv0)))
                 = Json (match rv0 !! "success" with
                         | Some _ => rv0
                         | None => <["success" := JBool true]> rv0
                         end)) as Hview.
  { intros rv0. rewrite (_after_request_payload _ rv0) by done.
    destruct (rv0 !! "success") as [v |] eqn:Hs.
    - by rewrite decide_True by (apply elem_of_dom; eauto).
    - by rewrite decide_False by (rewrite elem_of_dom, Hs; by intros [? ?]). }
  assert (∀ e log0, (Ok rv, log') = handle_user_exception e log0 →
            payload (_after_request (make_response rv)) = error_payload e) as Hhandled.
  { intros e log0 Hh. rewrite handle_user_exception_eq in Hh.
    assert (rv = match e with
                 | RequestRedirect _ body => ResponseObject body
                 | _ => ViewDict (envelope e)
                 end) as -> by (destruct e; congruence).
    destruct e; cbv beta iota;
      lazymatch goal with
      | |- _ = Raw _ => by apply _after_request_raw
      | |- _ => exact (Herr _)
      end. }
  assert (payload (_after_request (make_response rv)) =
      match decode_error request with
      | Some e => error_payload e
      | None =>
          match dispatch_request app request with
          | Raise e => error_payload e
          | Ok (ResponseObject body) => Raw body
          | Ok (ViewDict rv) =>
              Json (match rv !! "success" with
                    | Some _ => rv
                    | None => <["success" := JBool true]> rv
                    end)
          end
      end) as Hpayload.
  { destruct (data_decode request) as [body | msg];
      [| exact (Hhandled (UnicodeDecodeError msg) _ Hrv)].
    destruct (dispatch_request app request) as [[rv0 | text] | e].
    - destruct Hrv as [-> _]. apply Hview.
    - by destruct Hrv as [-> _].
    - exact (Hhandled e _ Hrv). }
  split_and!.
  - exact Hpayload.
  - apply dispatch_request_options.
  - intros text Htext. rewrite Htext in Hpayload.
    destruct (data_decode request) as [body | msg]; [| done]. split; [done |].
    destruct (dispatch_request app request) as [[rv0 | text0] | e]; [done | |].
    + left. congruence.
    + right. destruct e; try done. injection Hpayload as ->. eauto.
  - intros body Hbody. rewrite Hbody in Hpayload.
    assert (∀ e, Json body = error_payload e →
              is_Some (body !! "success") ∧ ∃ b, body !! "success" = Some (JBool b))
      as Henv.
    { intros e He. destruct e; try discriminate He; injection He as ->;
        (split; [| exists false]; by vm_compute; eauto). }
    destruct (data_decode request) as [text | msg].
    2:{ destruct (Henv (UnicodeDecodeError msg) Hpayload). eauto. }
    destruct (dispatch_request app request) as [[rv0 | text0] | e] eqn:Hd; [| done |].
    2:{ destruct (Henv e Hpayload). eauto. }
    injection Hpayload as ->.
    destruct (rv0 !! "success") as [v |] eqn:Hs.
    + split; [eauto |]. intros Hwt. destruct (Hwt rv0 v eq_refl Hs) as [b ->]. eauto.
    + rewrite lookup_insert_eq. split; eauto.
Qed.

(** The way to the account handler. *)
Lemma account_dispatch (app : list url_rule) (request : Request) :
  url_match app request
    = Ok {| rule_path := "/account/read"; rule_view := AccountServer._read;
            rule_methods := ["POST"] |} →
  method request = "POST" →
  dispatch_request app request = ViewDict <$> AccountServer._read request.
Proof.
  intros Hrule Hmethod. unfold dispatch_request. rewrite Hrule, Hmethod.
  by rewrite andb_false_r.
Qed.

(** The account handler sets no [success] field of its own. *)
Lemma account_read_well_typed (request : Request) (body : dict) :
  AccountServer._read request = Ok body → body !! "success" = None.
Proof.
  unfold AccountServer._read, AccountServer.QCAccount_dict.
  destruct (request_json request) as [rq | v | e]; [| done | done].
  destruct (AccountServer.str_validator _ _); [| done]. intros [= <-].
  by rewrite lookup_insert_ne, lookup_singleton_ne.
Qed.

End dispatcher.

Section dispatcher_scenario.
Import Flask ApiServer RouteScenario.
Existing Instance RouteScenario.matching.

(** The one rule of the application. *)
Lemma scenario_routes (request : Request) (r : url_rule) :
  url_match _app request = Ok r →
  r = {| rule_path := "/account/read"; rule_view := AccountServer._read;
         rule_methods := ["POST"] |}.
Proof.
  simpl. unfold match_exact, _app, AccountServer.register_routes.
  cbn [app List.filter rule_path].
  destruct (bool_decide ("/account/read" = rule request)); [| done].
  cbn [List.find]. destruct (bool_decide _); [| done]. by intros [= <-].
Qed.

Lemma account_routes_well_typed (request : Request) :
  success_well_typed (dispatch_request _app request).
Proof.
  intros body v Hrv Hv. unfold dispatch_request in Hrv.
  destruct (url_match _app request) as [r |] eqn:Hr; [| done].
  apply scenario_routes in Hr as ->.
  destruct (_ && _); [done |]. cbn [rule_view] in Hrv.
  destruct (AccountServer._read request) as [body0 |] eqn:Hread; [| done].
  injection Hrv as <-. apply account_read_well_typed in Hread. congruence.
Qed.

(** The account route answers an empty JSON request with a body that
    has a boolean [success] field. *)
Lemma dispatcher_envelope_witness :
  ∃ response body,
    (full_dispatch_request _app (account_request (JsonObject ∅)) []).1 = Ok response ∧
    payload response = Json body ∧
    ∃ b, body !! "success" = Some (JBool b).
Proof.
  destruct (dispatcher_envelope _app (account_request (JsonObject ∅)) [])
    as (response & H1 & H2 & _ & _ & H4).
  assert (dispatch_request _app (account_request (JsonObject ∅))
          = Ok (ViewDict {[ "organizationId" := JStr "fake-organization-id";
                            "creditBalance" := JNum 1000 ]})) as Hd by by_evaluation.
  rewrite Hd in H2. simpl in H2.
  exists response. eexists. split; [exact H1 |]. split; [exact H2 |].
  apply (H4 _ H2). apply account_routes_well_typed.
Defined.

(** The claim of the spec fails on an OPTIONS request for the account
    route: Flask answers it itself, the body of the response is empty and
    not a JSON object, and it has no [success] field. *)
Lemma dispatcher_claim_counterexample :
  (λ response, payload response) <$>
    (full_dispatch_request _app
       {| method := "OPTIONS"; url := "http://localhost:5612/account/read";
          rule := "/account/read"; data_decode := Text "";
          request_json := JsonValue JNull |} []).1
  = Ok (Raw "").
Proof. by_evaluation. Qed.

(** The answer of the account route, evaluated. *)
Example account_read_response :
  (λ response, payload response) <$>
    (full_dispatch_request _app (account_request (JsonObject ∅)) []).1
  = Ok (Json {[ "organizationId" := JStr "fake-organization-id";
                "creditBalance" := JNum 1000; "success" := JBool true ]}).
Proof. by_evaluation. Qed.

(** A request for a route that is not there, one with a method that the
    route does not have, and one with a body that is not UTF-8,
    evaluated. *)
Example unknown_route_response :
  (λ response, payload response) <$>
    (full_dispatch_request _app
       {| method := "GET"; url := "http://localhost:5612/nowhere";
          rule := "/nowhere"; data_decode := Text "";
          request_json := JsonValue JNull |} []).1
  = Ok (Json {[ "errors" := JArr [JStr (str HTTPNotFound)];
                "success" := JBool false ]}) ∧
  (λ response, payload response) <$>
    (full_dispatch_request _app
       {| method := "GET"; url := "http://localhost:5612/account/read";
          rule := "/account/read"; data_decode := Text "";
          request_json := JsonValue JNull |} []).1
  = Ok (Json {[ "errors" := JArr [JStr (str HTTPMethodNotAllowed)];
                "success" := JBool false ]}) ∧
  full_dispatch_request _app
    {| method := "POST"; url := "http://localhost:5612/account/read";
       rule := "/account/read"; data_decode := NotUtf8 "invalid start byte";
       request_json := JsonValue JNull |} []
  = (Ok {| headers := {[ "Access-Control-Allow-Origin" := "*";
                          "Access-Control-Allow-Headers" := "*";
                          "Access-Control-Allow-Methods" := "*" ]};
           payload := Json {[ "errors" := JArr [JStr "invalid start byte"];
                              "success" := JBool false ]} |},
     [Traceback (UnicodeDecodeError "invalid start byte")]).
Proof. split_and!; by_evaluation. Qed.

End dispatcher_scenario.

(** ** The file system *)

Section file_system.
Import Fs.
Context {os : Os}.

Lemma mkdir_exist_ok_lookup (p q : path) (fs fs' : FS) :
  mkdir_exist_ok p fs = Ok fs' →
  q ≠ p ∨ is_Some (fs !! q) →
  fs' !! q = fs !! q.
Proof.
  unfold mkdir_exist_ok. intros Hmk Hq.
  destruct (fs !! p) as [[st | st c] |] eqn:Hp; simplify_eq; try done.
  destruct (decide (q = p)) as [-> | Hne].
  - destruct Hq as [? | [x Hx]]; [done | congruence].
  - by rewrite lookup_insert_ne.
Qed.

(** [mkdir(parents=True, exist_ok=True)] leaves alone what exists, and
    every path that is not one of the directories to make. *)
Lemma makedirs_go_lookup (rest base q : path) (fs fs' : FS) :
  makedirs_go base rest fs = Ok fs' →
  is_Some (fs !! q) ∨ (length q ≤ length base)%nat
    ∨ (length base + length rest < length q)%nat
    ∨ ¬ q `prefix_of` base ++ rest →
  fs' !! q = fs !! q.
Proof.
  revert base fs. induction rest as [| c rest IH]; intros base fs Hgo Hq; simpl in Hgo.
  - by simplify_eq.
  - destruct (mkdir_exist_ok (base ++ [c]) fs) as [fs1 |] eqn:Hmk; [| done].
    assert (fs1 !! q = fs !! q) as Hstep.
    { eapply mkdir_exist_ok_lookup; [done |].
      destruct Hq as [Hq | [Hq | [Hq | Hq]]]; [by right | left | left | left];
        intros ->.
      - rewrite length_app in Hq; simpl in Hq; lia.
      - rewrite length_app in Hq; simpl in Hq; lia.
      - apply Hq. apply prefix_app, prefix_cons, prefix_nil. }
    rewrite <- Hstep. apply (IH _ _ Hgo). rewrite Hstep, length_app. simpl.
    simpl in Hq. destruct Hq as [Hq | [Hq | [Hq | Hq]]];
      [by left | right; left; lia | right; right; left; lia |].
    right; right; right. by rewrite <- app_assoc.
Qed.

Lemma makedirs_preserves (p q : path) (fs fs' : FS) :
  makedirs p fs = Ok fs' → is_Some (fs !! q) → fs' !! q = fs !! q.
Proof. intros Hmk Hq. eapply makedirs_go_lookup; [done | by left]. Qed.

Lemma length_parent (p : path) : length (parent p) = (length p - 1)%nat.
Proof.
  unfold parent. destruct (decide (p = [])) as [-> | Hne]; [done |].
  destruct (exists_last Hne) as (l & x & ->).
  rewrite removelast_last, length_app. simpl. lia.
Qed.

Lemma makedirs_parent_lookup (p : path) (fs fs' : FS) :
  makedirs (parent p) fs = Ok fs' → fs' !! p = fs !! p.
Proof.
  intros Hmk. eapply makedirs_go_lookup; [done |].
  rewrite length_parent. simpl. destruct p; simpl; [right; left; lia |].
  right; right; left; lia.
Qed.

Lemma write_file_lookup (p : path) (c : content) (fs fs' : FS) :
  write_file p c fs = Ok fs' →
  (∃ st, fs' !! p = Some (File st c)) ∧ ∀ q, q ≠ p → fs' !! q = fs !! q.
Proof.
  unfold write_file. intros Hw.
  destruct (fs !! p) as [[st | st c'] |]; simplify_eq;
    (split; [eexists; by rewrite lookup_insert_eq
            | intros q Hq; by rewrite lookup_insert_ne]).
Qed.

Lemma parent_prefix (p : path) : parent p `prefix_of` p.
Proof.
  unfold parent. destruct (decide (p = [])) as [-> | Hne]; [done |].
  destruct (exists_last Hne) as (l & x & ->).
  rewrite removelast_last. by apply prefix_app_r.
Qed.

(** Making the parents of a free path leaves it free, and changes nothing
    below a directory that the path is not inside of. *)
Lemma makedirs_parent_free (dst : path) (fs fs' : FS) :
  makedirs (parent dst) fs = Ok fs' → free fs dst → free fs' dst.
Proof.
  intros Hmk Hfree q Hq. rewrite <- (Hfree q Hq).
  destruct dst as [| c dst]; [by injection Hmk as -> |].
  eapply makedirs_go_lookup; [done |]. rewrite length_parent. simpl.
  apply prefix_length in Hq. simpl in Hq. right; right; left; lia.
Qed.

Lemma makedirs_parent_outside (src dst : path) (fs fs' : FS) (rel : path) :
  makedirs (parent dst) fs = Ok fs' → ¬ src `prefix_of` dst →
  fs' !! (src ++ rel) = fs !! (src ++ rel).
Proof.
  intros Hmk Hout. eapply makedirs_go_lookup; [done |].
  right; right; right. simpl. intros Hpre. apply Hout.
  trans (src ++ rel); [by apply prefix_app_r |].
  trans (parent dst); [done | apply parent_prefix].
Qed.

(** Whether the directories can be made depends on what kind of entry
    is found at each path only. *)
Lemma makedirs_go_same_kinds (rest base : path) (fs fs' : FS) :
  (∀ q, is_dir fs' q = is_dir fs q ∧ (fs' !! q = None ↔ fs !! q = None)) →
  is_ok (makedirs_go base rest fs') = is_ok (makedirs_go base rest fs).
Proof.
  revert base fs fs'. induction rest as [| c rest IH]; intros base fs fs' Hk; simpl; [done |].
  destruct (Hk (base ++ [c])) as [Hd Hn]. unfold mkdir_exist_ok, is_dir in *.
  destruct (fs !! (base ++ [c])) as [[st | st b] |] eqn:Hl;
    destruct (fs' !! (base ++ [c])) as [[st' | st' b'] |] eqn:Hl';
    try done; try (by apply IH);
    try (exfalso; destruct Hn as [Hn1 Hn2]; by (specialize (Hn1 eq_refl) || specialize (Hn2 eq_refl))).
  apply IH. intros q. unfold is_dir.
  destruct (decide (q = base ++ [c])) as [-> | Hne].
  - by rewrite !lookup_insert_eq.
  - rewrite !lookup_insert_ne by done. apply Hk.
Qed.

(** ** Renaming a tree *)

Lemma rebase_inside (src dst rel : path) : rebase src dst (src ++ rel) = dst ++ rel.
Proof.
  unfold rebase. rewrite decide_True by (by apply prefix_app_r).
  by rewrite drop_app_length.
Qed.

Lemma rebase_outside (src dst p : path) : ¬ src `prefix_of` p → rebase src dst p = p.
Proof. intros Hout. unfold rebase. by rewrite decide_False. Qed.

Lemma rename_tree_lookup_Some (src dst p : path) (fs : FS) (x : node) :
  (∀ q1 q2, is_Some (fs !! q1) → is_Some (fs !! q2) →
     rebase src dst q1 = rebase src dst q2 → q1 = q2) →
  fs !! p = Some x →
  rename_tree src dst fs !! rebase src dst p = Some x.
Proof.
  intros Hinj Hp. unfold rename_tree. apply elem_of_list_to_map_1.
  - rewrite <- list_fmap_compose.
    rewrite (list_fmap_ext _ (rebase src dst ∘ fst) (map_to_list fs)) by (by intros ? []).
    rewrite list_fmap_compose. apply NoDup_fmap_2_strong; [| apply NoDup_fst_map_to_list].
    intros q1 q2 Hq1 Hq2. apply Hinj.
    + apply list_elem_of_fmap in Hq1 as ([? y] & -> & Hy).
      apply elem_of_map_to_list in Hy. eauto.
    + apply list_elem_of_fmap in Hq2 as ([? y] & -> & Hy).
      apply elem_of_map_to_list in Hy. eauto.
  - apply list_elem_of_fmap. exists (p, x). split; [done |].
    by apply elem_of_map_to_list.
Qed.

Lemma rename_tree_lookup_None (src dst k : path) (fs : FS) :
  (∀ q, is_Some (fs !! q) → rebase src dst q ≠ k) →
  rename_tree src dst fs !! k = None.
Proof.
  intros Hno. unfold rename_tree. apply not_elem_of_list_to_map_1.
  intros Hin. apply list_elem_of_fmap in Hin as ([q' y] & -> & Hy).
  apply list_elem_of_fmap in Hy as ([q y'] & [= -> ->] & Hy).
  apply elem_of_map_to_list in Hy. eapply Hno; eauto.
Qed.

Lemma rebase_inj_on (src dst : path) (fs : FS) (q1 q2 : path) :
  free fs dst →
  is_Some (fs !! q1) → is_Some (fs !! q2) →
  rebase src dst q1 = rebase src dst q2 → q1 = q2.
Proof.
  intros Hfree [x1 H1] [x2 H2]. unfold rebase.
  destruct (decide (src `prefix_of` q1)) as [[r1 ->] | Ho1];
    destruct (decide (src `prefix_of` q2)) as [[r2 ->] | Ho2];
    rewrite ?drop_app_length; intros Heq.
  - by simplify_list_eq.
  - subst q2. rewrite Hfree in H2 by (by apply prefix_app_r). done.
  - subst q1. rewrite Hfree in H1 by (by apply prefix_app_r). done.
  - done.
Qed.

(** Renaming the tree at [src] to a free [dst] outside of it: what was
    at [src] and below is at [dst] and below, nothing is left at [src],
    and everything else is where it was. *)
Lemma rename_tree_moved (src dst rel : path) (fs : FS) :
  free fs dst →
  rename_tree src dst fs !! (dst ++ rel) = fs !! (src ++ rel).
Proof.
  intros Hfree. destruct (fs !! (src ++ rel)) as [x |] eqn:Hx.
  - rewrite <- (rebase_inside src dst rel).
    apply rename_tree_lookup_Some; [| done].
    intros q1 q2. by apply rebase_inj_on.
  - apply rename_tree_lookup_None. intros q [y Hy] Heq. unfold rebase in Heq.
    destruct (decide (src `prefix_of` q)) as [[r ->] | Ho].
    + rewrite drop_app_length in Heq. apply app_inv_head in Heq. congruence.
    + subst q. rewrite Hfree in Hy by (by apply prefix_app_r). done.
Qed.

Lemma rename_tree_source (src dst rel : path) (fs : FS) :
  free fs dst → ¬ src `prefix_of` dst →
  rename_tree src dst fs !! (src ++ rel) = None.
Proof.
  intros Hfree Hout. apply rename_tree_lookup_None. intros q [y Hy] Heq.
  unfold rebase in Heq.
  destruct (decide (src `prefix_of` q)) as [[r ->] | Ho].
  - rewrite drop_app_length in Heq.
    destruct (prefix_weak_total src dst (src ++ rel)) as [Hsd | Hds];
      [by apply prefix_app_r | rewrite <- Heq; by apply prefix_app_r | done |].
    rewrite Hfree in Hy; [done |]. trans src; [done | by apply prefix_app_r].
  - subst q. apply Ho. by apply prefix_app_r.
Qed.

Lemma rename_tree_other (src dst p : path) (fs : FS) :
  free fs dst → ¬ src `prefix_of` p → ¬ dst `prefix_of` p →
  rename_tree src dst fs !! p = fs !! p.
Proof.
  intros Hfree Hs Hd. destruct (fs !! p) as [x |] eqn:Hx.
  - rewrite <- (rebase_outside src dst p Hs) at 1.
    apply rename_tree_lookup_Some; [| done].
    intros q1 q2. by apply rebase_inj_on.
  - apply rename_tree_lookup_None. intros q [y Hy] Heq. unfold rebase in Heq.
    destruct (decide (src `prefix_of` q)) as [[r ->] | Ho].
    + apply Hd. rewrite <- Heq. by apply prefix_app_r.
    + congruence.
Qed.

End file_system.

(** ** The data downloader *)

Section data_downloader.
Import Fs DataDownloader.
Context {os : Os} {collaborators : Collaborators}.

Lemma prompts_app (l1 l2 : list Event) :
  prompts (l1 ++ l2) = (prompts l1 + prompts l2)%nat.
Proof. unfold prompts. by rewrite List.filter_app, length_app. Qed.

Lemma downloads_app (l1 l2 : list Event) :
  downloads (l1 ++ l2) = (downloads l1 + downloads l2)%nat.
Proof. unfold downloads. by rewrite List.filter_app, length_app. Qed.

Local Ltac count_events :=
  simpl; rewrite ?prompts_app, ?downloads_app; unfold prompts, downloads;
  simpl; try done; try lia.

(** The state after the overwrite decision of [_download_file]. *)
Lemma _download_file_decision (relative_file : string) (overwrite_flag : bool)
    (data_directory : path) (organization_id : string) (s : State) :
  let local_path := truediv data_directory relative_file in
  ∃ s1,
    _download_file relative_file overwrite_flag data_directory organization_id s =
      (if goes_to_remote overwrite_flag s local_path
       then fetch_and_write relative_file local_path organization_id s1
       else (Ok tt, s1)) ∧
    fs s1 = fs s ∧
    _force_overwrite s1 =
      (if asks_user overwrite_flag s local_path
       then Some (click_confirm confirm_text) else _force_overwrite s) ∧
    prompts (events s1) =
      (prompts (events s) + if asks_user overwrite_flag s local_path then 1 else 0)%nat ∧
    downloads (events s1) = downloads (events s) ∧
    (exists_ (fs s) local_path = false → s1 = s).
Proof.
  intros local_path.
  unfold _download_file, goes_to_remote, asks_user, _should_overwrite, log,
    set_force_overwrite.
  fold local_path. unfold_monad.
  destruct s as [disk force evs]. simpl.
  destruct (exists_ disk local_path); simpl.
  2:{ eexists. split; [reflexivity |]. split_and!; count_events. }
  destruct overwrite_flag; simpl.
  { eexists. split; [reflexivity |]. split_and!; count_events. }
  destruct force as [[|]|]; simpl.
  - eexists. split; [reflexivity |]. split_and!; count_events.
  - eexists. split; [reflexivity |]. split_and!; count_events.
  - destruct (click_confirm confirm_text); simpl.
    + eexists. split; [reflexivity |]. split_and!; count_events.
    + eexists. split; [reflexivity |]. split_and!; count_events.
Qed.

(** What the request to the remote and the write change. *)
Lemma fetch_and_write_inv (relative_file : string) (local_path : path)
    (organization_id : string) (s s' : State) (r : Result unit) :
  fetch_and_write relative_file local_path organization_id s = (r, s') →
  _force_overwrite s' = _force_overwrite s ∧
  prompts (events s') = prompts (events s) ∧
  downloads (events s') = S (downloads (events s)) ∧
  (∀ q, q ≠ local_path → is_Some (fs s !! q) → fs s' !! q = fs s !! q) ∧
  (∀ content, download_file relative_file organization_id = Ok content →
     r = Ok tt → ∃ st, fs s' !! local_path = Some (File st (Bytes content))) ∧
  (∀ e, download_file relative_file organization_id = Raise e → fs s' = fs s).
Proof.
  unfold fetch_and_write, log, on_fs. unfold_monad. destruct s as [disk force evs].
  simpl. intros Hrun.
  destruct (download_file relative_file organization_id) as [content | e] eqn:Hd.
  - simpl in Hrun.
    destruct (makedirs (parent local_path) disk) as [disk1 |] eqn:Hmk; simpl in Hrun.
    2:{ simplify_eq. split_and!; count_events. }
    destruct (write_file local_path (Bytes content) disk1) as [disk2 |] eqn:Hw;
      simplify_eq; simpl.
    + destruct (write_file_lookup _ _ _ _ Hw) as [[st Hst] Hother].
      split_and!; count_events.
      * intros q Hq Hsome. rewrite Hother by done. by eapply makedirs_preserves.
      * intros c [= <-] _. eauto.
    + split_and!; count_events. intros q Hq Hsome. by eapply makedirs_preserves.
  - destruct e; try (simplify_eq; split_and!; count_events; intros ? [=]).
    destruct (contains "File not found" msg); simpl in Hrun; simplify_eq;
      split_and!; count_events; intros ? [=].
Qed.

(** What one call of [_download_file] changes. *)
Lemma _download_file_inv (relative_file : string) (overwrite_flag : bool)
    (data_directory : path) (organization_id : string) (s s' : State)
    (r : Result unit) :
  let local_path := truediv data_directory relative_file in
  _download_file relative_file overwrite_flag data_directory organization_id s
    = (r, s') →
  _force_overwrite s' =
    (if asks_user overwrite_flag s local_path
     then Some (click_confirm confirm_text) else _force_overwrite s) ∧
  prompts (events s') =
    (prompts (events s) + if asks_user overwrite_flag s local_path then 1 else 0)%nat ∧
  downloads (events s') =
    (downloads (events s) + if goes_to_remote overwrite_flag s local_path then 1 else 0)%nat ∧
  (goes_to_remote overwrite_flag s local_path = false → r = Ok tt ∧ fs s' = fs s) ∧
  (∀ q, q ≠ local_path → is_Some (fs s !! q) → fs s' !! q = fs s !! q).
Proof.
  intros local_path Hrun.
  destruct (_download_file_decision relative_file overwrite_flag data_directory
              organization_id s) as (s1 & Heq & Hfs & Hforce & Hp & Hd & _).
  fold local_path in Heq, Hforce, Hp. rewrite Hrun in Heq.
  destruct (goes_to_remote overwrite_flag s local_path) eqn:Hgo.
  - symmetry in Heq. apply fetch_and_write_inv in Heq
      as (Hf' & Hp' & Hd' & Hkeep & _ & _).
    rewrite Hf', Hp', Hd', Hforce, Hp, Hd. split_and!; try done; try lia.
    intros q Hq Hsome. rewrite <- Hfs. apply Hkeep; [done | by rewrite Hfs].
  - simplify_eq. rewrite Hforce, Hp, Hd, Hfs. split_and!; try done; lia.
Qed.

Lemma download_loop_cons (total index : nat) (file : string) (files : list string)
    (overwrite_flag : bool) (data_dir : path) (organization_id : string) (s : State) :
  ∃ s0,
    fs s0 = fs s ∧ _force_overwrite s0 = _force_overwrite s ∧
    prompts (events s0) = prompts (events s) ∧
    downloads (events s0) = downloads (events s) ∧
    download_loop total index (file :: files) overwrite_flag data_dir organization_id s =
      match _download_file file overwrite_flag data_dir organization_id s0 with
      | (Ok _, s') =>
          download_loop total (S index) files overwrite_flag data_dir organization_id s'
      | (Raise e, s') => (Raise e, s')
      end.
Proof.
  simpl. unfold log. unfold_monad. destruct s as [disk force evs]. simpl.
  eexists. split_and!; [.. | reflexivity]; count_events.
Qed.

(** What a run of the loop changes: at most one prompt, none once an
    answer is remembered; the answer stays; and with the answer no and the
    flag unset, nothing that exists on the disk is touched. *)
Lemma download_loop_inv (files : list string) (total index : nat)
    (overwrite_flag : bool) (data_dir : path) (organization_id : string)
    (s s' : State) (r : Result unit) :
  download_loop total index files overwrite_flag data_dir organization_id s = (r, s') →
  (prompts (events s') ≤
     prompts (events s) + if _force_overwrite s is None then 1 else 0)%nat ∧
  (∀ answer, _force_overwrite s = Some answer →
     _force_overwrite s' = Some answer ∧ prompts (events s') = prompts (events s)) ∧
  (overwrite_flag = false → _force_overwrite s = Some false →
     ∀ q, is_Some (fs s !! q) → fs s' !! q = fs s !! q).
Proof.
  revert index s. induction files as [| file files IH]; intros index s Hrun.
  { simpl in Hrun. unfold_monad. simplify_eq.
    split_and!; [lia | done | done]. }
  destruct (download_loop_cons total index file files overwrite_flag data_dir
              organization_id s) as (s0 & Hfs0 & Hf0 & Hp0 & _ & Heq).
  rewrite Hrun in Heq.
  destruct (_download_file file overwrite_flag data_dir organization_id s0)
    as [r1 s1] eqn:Hone.
  pose proof (_download_file_inv _ _ _ _ _ _ _ Hone) as (Hf1 & Hp1 & _ & Hskip & Hkeep).
  rewrite Hf0, Hp0 in *.
  assert (asks_user overwrite_flag s0 (truediv data_dir file) = true →
          _force_overwrite s = None) as Hasks.
  { unfold asks_user. rewrite Hf0. destruct (_force_overwrite s); [| done].
    by rewrite andb_false_r. }
  assert (∀ q, overwrite_flag = false → _force_overwrite s = Some false →
            is_Some (fs s !! q) → fs s1 !! q = fs s !! q) as Hkeep1.
  { intros q -> Hno Hq. rewrite <- Hfs0 in *.
    destruct (decide (q = truediv data_dir file)) as [-> | Hne]; [| by apply Hkeep].
    assert (goes_to_remote false s0 (truediv data_dir file) = false) as Hgo.
    { unfold goes_to_remote, exists_. rewrite Hf0, Hno.
      by rewrite bool_decide_eq_true_2. }
    destruct (Hskip Hgo) as [_ ->]. done. }
  assert ((r, s') = (r1, s1) ∨
          download_loop total (S index) files overwrite_flag data_dir
            organization_id s1 = (r, s')) as [Hend | Hrest].
  { destruct r1; [by right | left; by simplify_eq]. }
  - simplify_eq. rewrite Hf1, Hp1.
    destruct (asks_user overwrite_flag s0 (truediv data_dir file)) eqn:Ha.
    + rewrite (Hasks eq_refl). split_and!; [lia | done | done].
    + split_and!; [lia | | by auto].
      intros answer Hans. split; [done | lia].
  - apply IH in Hrest as (Hle & Hstay & Hdisk). rewrite Hf1, Hp1 in *.
    destruct (asks_user overwrite_flag s0 (truediv data_dir file)) eqn:Ha.
    + rewrite (Hasks eq_refl).
      destruct (Hstay _ eq_refl) as [_ Hsame]. split_and!; [lia | done | done].
    + split_and!.
      * lia.
      * intros answer Hans. destruct (Hstay _ Hans) as [? ?]. split; [done | lia].
      * intros Hflag Hno q Hq.
        rewrite Hdisk; [by apply Hkeep1 | done | done |].
        by rewrite Hkeep1.
Qed.

Lemma fetch_and_write_failure (relative_file : string) (local_path : path)
    (organization_id : string) (s : State) (e : exn) :
  download_file relative_file organization_id = Raise e →
  fetch_and_write relative_file local_path organization_id s =
    if match e with
       | RequestFailedError error => contains "File not found" error
       | _ => false
       end
    then (Ok tt, {| fs := fs s; _force_overwrite := _force_overwrite s;
                    events := (events s ++ [Download relative_file organization_id])
                                ++ [Warn (not_billed relative_file)] |})
    else (Raise e, {| fs := fs s; _force_overwrite := _force_overwrite s;
                      events := events s ++ [Download relative_file organization_id] |}).
Proof.
  intros Hd. unfold fetch_and_write, log. unfold_monad. rewrite Hd. simpl.
  destruct e; try reflexivity.
  destruct (contains "File not found" msg); reflexivity.
Qed.

Lemma fetch_and_write_new (relative_file : string) (local_path : path)
    (organization_id : string) (s : State) (content : string) (disk1 : FS) :
  exists_ (fs s) local_path = false →
  download_file relative_file organization_id = Ok content →
  makedirs (parent local_path) (fs s) = Ok disk1 →
  fetch_and_write relative_file local_path organization_id s =
    (Ok tt, {| fs := <[local_path := File (stat_on_write None) (Bytes content)]> disk1;
               _force_overwrite := _force_overwrite s;
               events := events s ++ [Download relative_file organization_id] |}).
Proof.
  intros Hnew Hd Hmk. unfold fetch_and_write, log, on_fs. unfold_monad.
  rewrite Hd. simpl. rewrite Hmk. simpl. unfold write_file.
  rewrite (makedirs_parent_lookup _ _ _ Hmk).
  unfold exists_ in Hnew. apply bool_decide_eq_false in Hnew.
  destruct (fs s !! local_path) eqn:Hl; [exfalso; eauto | reflexivity].
Qed.

(** C8: when the remote fails for a file it is asked for, a failure whose
    message says "File not found" leaves the disk as it is, logs the
    warning that nothing was billed, and the loop goes on with the next
    file; any other failure is raised out of the loop at once, the request
    being the last thing done: the remaining files are not processed. *)
Theorem remote_failure_skips_or_aborts (total index : nat) (file : string)
    (files : list string) (overwrite_flag : bool) (organization_id : string)
    (s : State) (e : exn) :
  let data_dir := get_data_directory in
  goes_to_remote overwrite_flag s (truediv data_dir file) = true →
  download_file file organization_id = Raise e →
  ∃ s',
    fs s' = fs s ∧
    downloads (events s') = S (downloads (events s)) ∧
    if match e with
       | RequestFailedError error => contains "File not found" error
       | _ => false
       end
    then
      last (events s') = Some (Warn (not_billed file)) ∧
      download_loop total index (file :: files) overwrite_flag data_dir
        organization_id s
      = download_loop total (S index) files overwrite_flag data_dir
          organization_id s'
    else
      last (events s') = Some (Download file organization_id) ∧
      download_loop total index (file :: files) overwrite_flag data_dir
        organization_id s
      = (Raise e, s').
Proof.
  intros data_dir Hgo Hd.
  destruct (download_loop_cons total index file files overwrite_flag data_dir
              organization_id s) as (s0 & Hfs0 & Hf0 & _ & Hd0 & Heq).
  destruct (_download_file_decision file overwrite_flag data_dir organization_id s0)
    as (s1 & Hone & Hfs1 & _ & _ & Hd1 & _).
  assert (goes_to_remote overwrite_flag s0 (truediv data_dir file) = true) as Hgo0.
  { unfold goes_to_remote in *. by rewrite Hfs0, Hf0. }
  rewrite Hgo0, (fetch_and_write_failure _ _ _ _ _ Hd) in Hone.
  rewrite Heq, Hone.
  destruct (match e with
            | RequestFailedError error => contains "File not found" error
            | _ => false
            end).
  - eexists. split_and!; [| | | reflexivity]; simpl.
    + congruence.
    + rewrite !downloads_app, Hd1, Hd0. unfold downloads. simpl. lia.
    + by rewrite last_snoc.
  - eexists. split_and!; [| | | reflexivity]; simpl.
    + congruence.
    + rewrite !downloads_app, Hd1, Hd0. unfold downloads. simpl. lia.
    + by rewrite last_snoc.
Qed.

Lemma fetch_and_write_keeps (relative_file : string) (local_path : path)
    (organization_id : string) (s s' : State) (r : Result unit) (p : path) :
  fetch_and_write relative_file local_path organization_id s = (r, s') →
  (is_Some (fs s !! p) → is_Some (fs s' !! p)) ∧
  (is_dir (fs s) p = true → is_dir (fs s') p = true).
Proof.
  unfold fetch_and_write, log, on_fs. unfold_monad. destruct s as [disk force evs].
  simpl. intros Hrun.
  destruct (download_file relative_file organization_id) as [content | e] eqn:Hd.
  2:{ assert (fs s' = disk) as ->; [| done].
      destruct e; simpl in Hrun; try (by simplify_eq).
      destruct (contains "File not found" msg); by simplify_eq. }
  simpl in Hrun.
  destruct (makedirs (parent local_path) disk) as [disk1 |] eqn:Hmk; simpl in Hrun;
    [| by simplify_eq].
  assert (∀ q, is_Some (disk !! q) → disk1 !! q = disk !! q) as Hkeep
    by (intros q Hq; by eapply makedirs_preserves).
  assert (is_dir disk p = true → is_Some (disk !! p)) as Hdir_some.
  { unfold is_dir. destruct (disk !! p); [eauto | done]. }
  destruct (write_file local_path (Bytes content) disk1) as [disk2 |] eqn:Hw;
    simplify_eq; simpl.
  - destruct (write_file_lookup _ _ _ _ Hw) as [[st Hst] Hother].
    destruct (decide (p = local_path)) as [-> | Hne].
    + split; [rewrite Hst; eauto |]. intros Hdir. exfalso.
      unfold write_file in Hw. rewrite (Hkeep _ (Hdir_some Hdir)) in Hw.
      unfold is_dir in Hdir. destruct (disk !! local_path) as [[] |]; done.
    + pose proof (Hother _ Hne) as Hsame. split.
      * intros Hp. by rewrite Hsame, Hkeep.
      * intros Hdir. pose proof (Hdir_some Hdir) as Hp.
        unfold is_dir in Hdir |- *. by rewrite Hsame, (Hkeep _ Hp).
  - split.
    + intros Hp. by rewrite Hkeep.
    + intros Hdir. pose proof (Hdir_some Hdir) as Hp.
      unfold is_dir in Hdir |- *. by rewrite (Hkeep _ Hp).
Qed.

Lemma _download_file_keeps (relative_file : string) (overwrite_flag : bool)
    (data_directory : path) (organization_id : string) (s s' : State)
    (r : Result unit) (p : path) :
  _download_file relative_file overwrite_flag data_directory organization_id s
    = (r, s') →
  is_Some (fs s !! p) → is_Some (fs s' !! p).
Proof.
  intros Hrun Hp.
  destruct (_download_file_decision relative_file overwrite_flag data_directory
              organization_id s) as (s1 & Hone & Hfs1 & _).
  rewrite Hrun in Hone. destruct (goes_to_remote _ _ _).
  - symmetry in Hone. apply (fetch_and_write_keeps _ _ _ _ _ _ p) in Hone as [Hk _].
    apply Hk. by rewrite Hfs1.
  - simplify_eq. by rewrite Hfs1.
Qed.

(** The request to the remote for a local path that is no directory, when
    the remote returns content. *)
Lemma fetch_and_write_written (relative_file : string) (local_path : path)
    (organization_id : string) (s s' : State) (r : Result unit) (content : string) :
  fetch_and_write relative_file local_path organization_id s = (r, s') →
  download_file relative_file organization_id = Ok content →
  is_ok (makedirs (parent local_path) (fs s)) = true →
  is_dir (fs s) local_path = false →
  r = Ok tt ∧ ∃ st, fs s' !! local_path = Some (File st (Bytes content)).
Proof.
  intros Hrun Hd Hmk Hdir.
  destruct (makedirs (parent local_path) (fs s)) as [disk1 |] eqn:Hm; [| done].
  pose proof (makedirs_parent_lookup _ _ _ Hm) as Hlp.
  unfold fetch_and_write, log, on_fs in Hrun. unfold_monad. simpl in Hrun.
  rewrite Hd in Hrun. simpl in Hrun. rewrite Hm in Hrun. simpl in Hrun.
  unfold write_file in Hrun. rewrite Hlp in Hrun. unfold is_dir in Hdir.
  destruct (fs s !! local_path) as [[st | st old] |]; [done | |];
    simpl in Hrun; simplify_eq; simpl; rewrite lookup_insert_eq; eauto.
Qed.

(** A run of the loop with the flag unset: the one answer, given or
    remembered, decides for every file that exists. *)
Lemma download_loop_answer (files : list string) (total index : nat)
    (data_dir : path) (organization_id : string) (s s' : State) (r : Result unit) :
  download_loop total index files false data_dir organization_id s = (r, s') →
  let answer := click_confirm confirm_text in
  let effective := default answer (_force_overwrite s) in
  (_force_overwrite s = None →
     (_force_overwrite s' = None ∧ prompts (events s') = prompts (events s)) ∨
     (_force_overwrite s' = Some answer ∧
      prompts (events s') = S (prompts (events s)))) ∧
  (_force_overwrite s = None → r = Ok tt →
     (∃ file, file ∈ files ∧ exists_ (fs s) (truediv data_dir file) = true) →
     prompts (events s') = S (prompts (events s))) ∧
  (effective = false → ∀ q, is_Some (fs s !! q) → fs s' !! q = fs s !! q) ∧
  (effective = true → r = Ok tt →
     downloads (events s') = (downloads (events s) + length files)%nat).
Proof.
  intros Hrun answer. revert index s Hrun.
  induction files as [| file files IH]; intros index s Hrun effective.
  { simpl in Hrun. unfold_monad. simplify_eq. split_and!.
    - by left.
    - intros _ _ (file & Hin & _). by apply elem_of_nil in Hin.
    - done.
    - intros _ _. simpl. lia. }
  destruct (download_loop_cons total index file files false data_dir
              organization_id s) as (s0 & Hfs0 & Hf0 & Hp0 & Hd0 & Heq).
  rewrite Hrun in Heq.
  destruct (_download_file file false data_dir organization_id s0)
    as [r1 s1] eqn:Hone.
  pose proof (_download_file_inv _ _ _ _ _ _ _ Hone) as (Hf1 & Hp1 & Hd1 & Hskip & Hkeep).
  pose proof (λ p, _download_file_keeps _ _ _ _ _ _ _ p Hone) as Hstays.
  set (local_path := truediv data_dir file) in *.
  assert (asks_user false s0 local_path =
          exists_ (fs s) local_path && bool_decide (_force_overwrite s = None)) as Hasks.
  { unfold asks_user. rewrite Hfs0, Hf0.
    destruct (_force_overwrite s); destruct (exists_ (fs s) local_path); done. }
  assert (goes_to_remote false s0 local_path =
          negb (exists_ (fs s) local_path) || effective) as Hgoes.
  { unfold goes_to_remote, effective. rewrite Hfs0, Hf0.
    destruct (_force_overwrite s); by rewrite orb_false_r. }
  rewrite Hasks in Hf1, Hp1. rewrite Hgoes in Hd1, Hskip.
  rewrite Hf0 in Hf1. rewrite Hp0 in Hp1. rewrite Hd0 in Hd1. rewrite Hfs0 in Hskip, Hkeep.
  assert (default answer (_force_overwrite s1) = effective) as Heff.
  { rewrite Hf1. unfold effective.
    destruct (exists_ (fs s) local_path); destruct (_force_overwrite s); done. }
  assert (effective = false → ∀ q, is_Some (fs s !! q) → fs s1 !! q = fs s !! q)
    as Hkeep1.
  { intros Hno q Hq. destruct (decide (q = local_path)) as [-> | Hne]; [| by apply Hkeep].
    destruct Hskip as [_ ->]; [| done].
    unfold exists_. by rewrite bool_decide_eq_true_2, Hno. }
  assert (_force_overwrite s = None →
          (_force_overwrite s1 = None ∧ prompts (events s1) = prompts (events s) ∧
           exists_ (fs s) local_path = false) ∨
          (_force_overwrite s1 = Some answer ∧
           prompts (events s1) = S (prompts (events s)))) as Hfirst.
  { intros Hnone. rewrite Hnone in Hf1, Hp1. rewrite bool_decide_eq_true_2 in Hf1, Hp1 by done.
    destruct (exists_ (fs s) local_path); simpl in *; [right | left]; split_and!;
      try done; lia. }
  destruct r1 as [[] | e].
  - symmetry in Heq. pose proof (download_loop_inv _ _ _ _ _ _ _ _ _ Heq) as (_ & Hstay & _).
    apply IH in Heq as (Hone1 & Hex1 & Hno1 & Hyes1). rewrite Heff in Hno1, Hyes1.
    split_and!.
    + intros Hnone. destruct (Hfirst Hnone) as [(Hn1 & Hq1 & _) | [Ha1 Hq1]].
      * destruct (Hone1 Hn1) as [[? ?] | [? ?]]; [left | right]; split; congruence.
      * destruct (Hstay _ Ha1) as [? ?]. right. split; congruence.
    + intros Hnone Hr (f & Hin & Hex).
      destruct (Hfirst Hnone) as [(Hn1 & Hq1 & Hnew) | [Ha1 Hq1]].
      * rewrite <- Hq1. apply (Hex1 Hn1 Hr).
        apply elem_of_cons in Hin as [-> | Hin]; [fold local_path in Hex; congruence |].
        exists f. split; [done |]. unfold exists_ in *.
        apply bool_decide_eq_true in Hex. apply bool_decide_eq_true_2.
        rewrite <- Hfs0 in Hex. by apply Hstays.
      * destruct (Hstay _ Ha1) as [_ ?]. congruence.
    + intros Hno q Hq. rewrite Hno1; [by apply Hkeep1 | done |].
      by rewrite Hkeep1.
    + intros Hyes Hr. rewrite (Hyes1 Hyes Hr), Hd1, Hyes, orb_true_r. simpl. lia.
  - simplify_eq. split_and!.
    + intros Hnone. destruct (Hfirst Hnone) as [(? & ? & _) | [? ?]]; [left | right]; done.
    + intros _ [=].
    + done.
    + intros _ [=].
Qed.

(** C9: in a run of [download_files] on a fresh instance with the
    overwrite flag unset the user is asked at most once, and exactly once
    when the run completes and a file of the list exists locally; the
    answer, once given, is the remembered one.  It decides for the whole
    run: with the answer no, nothing that exists on the disk is changed;
    with the answer yes, a run that completes has asked the remote for
    every file of the list.  File by file: an existing file met while no
    answer is remembered triggers the question, the answer is remembered
    and decides for this file already, the file going to the remote if it is
    yes and being skipped if it is no; an existing file met once an answer
    is remembered goes to the remote or is skipped by that answer, without
    a question; and for the rest of the run the answer stays, nobody is
    asked again, with no nothing on the disk changes and with yes every
    remaining file goes to the remote.  A file that does not exist locally
    goes to the remote whatever the flag and the remembered answer are,
    without a question; and what the remote returns for a file that goes to
    it is written to the local path. *)
Theorem overwrite_prompt_once (organization_id : string) :
  let data_dir := get_data_directory in
  let answer := click_confirm confirm_text in
  (∀ files disk r s',
     download_files files false organization_id (init disk) = (r, s') →
     (prompts (events s') ≤ 1)%nat ∧
     (_force_overwrite s' = None ∧ prompts (events s') = 0%nat ∨
      _force_overwrite s' = Some answer ∧ prompts (events s') = 1%nat) ∧
     (r = Ok tt →
      (∃ file, file ∈ files ∧ exists_ disk (truediv data_dir file) = true) →
      prompts (events s') = 1%nat) ∧
     (answer = false → ∀ q, is_Some (disk !! q) → fs s' !! q = disk !! q) ∧
     (answer = true → r = Ok tt → downloads (events s') = length files)) ∧
  (∀ file s,
     _force_overwrite s = None →
     exists_ (fs s) (truediv data_dir file) = true →
     ∃ s1,
       fs s1 = fs s ∧ _force_overwrite s1 = Some answer ∧
       prompts (events s1) = S (prompts (events s)) ∧
       downloads (events s1) = downloads (events s) ∧
       _download_file file false data_dir organization_id s =
         if answer
         then fetch_and_write file (truediv data_dir file) organization_id s1
         else (Ok tt, s1)) ∧
  (∀ file remembered s,
     _force_overwrite s = Some remembered →
     exists_ (fs s) (truediv data_dir file) = true →
     ∃ s1,
       fs s1 = fs s ∧ _force_overwrite s1 = Some remembered ∧
       prompts (events s1) = prompts (events s) ∧
       downloads (events s1) = downloads (events s) ∧
       _download_file file false data_dir organization_id s =
         if remembered
         then fetch_and_write file (truediv data_dir file) organization_id s1
         else (Ok tt, s1)) ∧
  (∀ total index files remembered s r s',
     _force_overwrite s = Some remembered →
     download_loop total index files false data_dir organization_id s = (r, s') →
     _force_overwrite s' = Some remembered ∧
     prompts (events s') = prompts (events s) ∧
     (remembered = false → ∀ q, is_Some (fs s !! q) → fs s' !! q = fs s !! q) ∧
     (remembered = true → r = Ok tt →
      downloads (events s') = (downloads (events s) + length files)%nat)) ∧
  (∀ file overwrite_flag s,
     exists_ (fs s) (truediv data_dir file) = false →
     _download_file file overwrite_flag data_dir organization_id s =
       fetch_and_write file (truediv data_dir file) organization_id s) ∧
  (∀ file s r s',
     fetch_and_write file (truediv data_dir file) organization_id s = (r, s') →
     downloads (events s') = S (downloads (events s)) ∧
     prompts (events s') = prompts (events s) ∧
     _force_overwrite s' = _force_overwrite s ∧
     ∀ content,
       download_file file organization_id = Ok content →
       is_ok (makedirs (parent (truediv data_dir file)) (fs s)) = true →
       is_dir (fs s) (truediv data_dir file) = false →
       r = Ok tt ∧
       ∃ st, fs s' !! truediv data_dir file = Some (File st (Bytes content))).
Proof.
  intros data_dir answer. split_and!.
  - intros files disk r s' Hrun. unfold download_files in Hrun.
    pose proof (download_loop_answer _ _ _ _ _ _ _ _ Hrun) as (Hone & Hex & Hno & Hyes).
    simpl in Hone, Hex, Hno, Hyes. change (prompts []) with 0%nat in Hone, Hex.
    change (downloads []) with 0%nat in Hyes.
    destruct (Hone eq_refl) as [[Hf Hp] | [Hf Hp]].
    + split_and!; [lia | by left | by auto | done | done].
    + split_and!; [lia | by right | by auto | done | done].
  - intros file s Hnone Hex.
    destruct (_download_file_decision file false data_dir organization_id s)
      as (s1 & Hone & Hfs & Hforce & Hp & Hd & _).
    assert (asks_user false s (truediv data_dir file) = true) as Ha.
    { unfold asks_user. by rewrite Hex, Hnone. }
    assert (goes_to_remote false s (truediv data_dir file) = answer) as Hg.
    { unfold goes_to_remote. by rewrite Hex, Hnone. }
    rewrite Ha in Hforce, Hp. rewrite Hg in Hone.
    exists s1. split_and!; [done | done | lia | done | done].
  - intros file remembered s Hans Hex.
    destruct (_download_file_decision file false data_dir organization_id s)
      as (s1 & Hone & Hfs & Hforce & Hp & Hd & _).
    assert (asks_user false s (truediv data_dir file) = false) as Ha.
    { unfold asks_user. by rewrite Hans, andb_false_r. }
    assert (goes_to_remote false s (truediv data_dir file) = remembered) as Hg.
    { unfold goes_to_remote. by rewrite Hex, Hans. }
    rewrite Ha in Hforce, Hp. rewrite Hg in Hone.
    exists s1. split_and!; [done | congruence | lia | done | done].
  - intros total index files remembered s r s' Hans Hrun.
    pose proof (download_loop_inv _ _ _ _ _ _ _ _ _ Hrun) as (_ & Hstay & _).
    pose proof (download_loop_answer _ _ _ _ _ _ _ _ Hrun) as (_ & _ & Hno & Hyes).
    simpl in Hno, Hyes. rewrite Hans in Hno, Hyes. simpl in Hno, Hyes.
    destruct (Hstay _ Hans) as [? ?]. by split_and!.
  - intros file overwrite_flag s Hnew.
    destruct (_download_file_decision file overwrite_flag data_dir organization_id s)
      as (s1 & Hone & _ & _ & _ & _ & Hsame).
    rewrite (Hsame Hnew) in Hone.
    assert (goes_to_remote overwrite_flag s (truediv data_dir file) = true) as Hgo.
    { unfold goes_to_remote. by rewrite Hnew. }
    by rewrite Hgo in Hone.
  - intros file s r s' Hrun.
    pose proof (fetch_and_write_inv _ _ _ _ _ _ Hrun) as (Hf & Hp & Hd & _).
    split_and!; [done | done | done |].
    intros content Hc Hmk Hdir. by eapply fetch_and_write_written.
Qed.

End data_downloader.

(** The scenario: for [a.zip], which the remote does not have, the run
    goes on with [b.zip]. *)
Lemma remote_failure_skips_or_aborts_witness :
  ∃ s',
    @DataDownloader.download_loop Scenario.os Scenario.remote 2 0
      ["a.zip"; "b.zip"] true ["data"] "org" (DataDownloader.init Scenario.disk)
    = @DataDownloader.download_loop Scenario.os Scenario.remote 2 1
        ["b.zip"] true ["data"] "org" s'.
Proof.
  destruct (@remote_failure_skips_or_aborts Scenario.os Scenario.remote 2%nat 0%nat
              "a.zip" ["b.zip"] true "org" (DataDownloader.init Scenario.disk)
              (RequestFailedError "GET request failed: File not found")
              eq_refl eq_refl) as (s' & _ & _ & Hnext).
  exists s'. exact (proj2 Hnext).
Defined.

(** The scenario with the flag unset: [a.zip] exists, so there is one
    question in the run. *)
Lemma overwrite_prompt_once_witness :
  DataDownloader.prompts
    (DataDownloader.events
       (@DataDownloader.download_files Scenario.os Scenario.remote
          ["a.zip"; "b.zip"] false "org" (DataDownloader.init Scenario.disk)).2)
  = 1%nat.
Proof.
  destruct (@overwrite_prompt_once Scenario.os Scenario.remote "org") as (Hrun & _).
  destruct (Hrun ["a.zip"; "b.zip"] Scenario.disk _ _ (surjective_pairing _))
    as (_ & _ & Honce & _).
  apply Honce.
  - by_evaluation.
  - exists "a.zip". split; [by left | by_evaluation].
Defined.

(** The run of the scenario, evaluated: one question, answered no;
    [a.zip] keeps its old content and the remote is not asked for it;
    [b.zip] is fetched and written. *)
Example scenario_run :
  let s' := (@DataDownloader.download_files Scenario.os Scenario.remote
               ["a.zip"; "b.zip"] false "org" (DataDownloader.init Scenario.disk)).2 in
  DataDownloader.prompts (DataDownloader.events s') = 1%nat ∧
  DataDownloader.downloads (DataDownloader.events s') = 1%nat ∧
  DataDownloader.fs s' !! ["data"; "a.zip"]
    = Some (Fs.File Scenario.epoch (Fs.Bytes "old")) ∧
  DataDownloader.fs s' !! ["data"; "b.zip"]
    = Some (Fs.File {| Fs.st_mtime_ns := 1; Fs.st_ctime_ns := 1 |} (Fs.Bytes "b-bytes")).
Proof. vm_compute. done. Qed.

(** A server error for the first file ends the run: [b.zip] is not
    fetched. *)
Example scenario_abort :
  let run := @DataDownloader.download_files Scenario.os Scenario.remote
               ["x.zip"; "b.zip"] false "org" (DataDownloader.init Scenario.disk) in
  run.1 = Raise (RequestFailedError "GET request failed: 500") ∧
  DataDownloader.downloads (DataDownloader.events run.2) = 1%nat ∧
  DataDownloader.fs run.2 !! ["data"; "b.zip"] = None.
Proof. vm_compute. done. Qed.

(** ** Strings *)

Lemma string_length_app (a b : string) :
  String.length (a +:+ b) = (String.length a + String.length b)%nat.
Proof. induction a as [| c a IH]; simpl; [done | by rewrite IH]. Qed.

Lemma string_app_inj_r (s a b : string) : a +:+ s = b +:+ s → a = b.
Proof.
  revert b. induction a as [| c a IH]; intros [| c' b] Heq; simpl in Heq.
  - done.
  - apply (f_equal String.length) in Heq.
    rewrite ?string_length_app in Heq. simpl in Heq.
    rewrite ?string_length_app in Heq. lia.
  - apply (f_equal String.length) in Heq.
    rewrite ?string_length_app in Heq. simpl in Heq.
    rewrite ?string_length_app in Heq. lia.
  - injection Heq as -> Heq. f_equal. by apply IH.
Qed.

(** [lstrip] removes a run of the character from the front, and nothing
    else; what is left does not start with it. *)
Lemma lstrip_spec (c : ascii) (s : string) :
  ∃ n, s = String.concat "" (replicate n (String c "")) +:+ lstrip c s ∧
       ∀ s', lstrip c s ≠ String c s'.
Proof.
  induction s as [| c' s IH]; simpl.
  - exists 0%nat. done.
  - destruct (Ascii.eqb_spec c' c) as [-> | Hne].
    + destruct IH as (n & Hn & Hno). exists (S n). split; [| done].
      change (replicate (S n) (String c "")) with (String c "" :: replicate n (String c "")).
      destruct n as [| n]; simpl in *; [by rewrite Hn at 1 | by rewrite Hn at 1].
    + exists 0%nat. split; [done |]. intros s' [= ? ?]. done.
Qed.

(** The string and path functions on small inputs. *)
Example lstrip_slashes : lstrip "/" "//alpha/beta" = "alpha/beta".
Proof. reflexivity. Qed.

Example contains_is_case_sensitive :
  contains "File not found" "GET request failed: File not found" = true ∧
  contains "File not found" "GET request failed: file not found" = false.
Proof. split; reflexivity. Qed.

Example parts_drops_empty_and_dot : Fs.parts "alpha//beta/./gamma/" = ["alpha"; "beta"; "gamma"].
Proof. by_evaluation. Qed.

Example truediv_absolute_replaces :
  Fs.truediv ["home"; "lean"] "/alpha" = ["alpha"] ∧
  Fs.truediv ["home"; "lean"] (lstrip "/" "/alpha") = ["home"; "lean"; "alpha"].
Proof. split; by_evaluation. Qed.

Example parameters_key_10 : ProjectServer.parameters_key 10 = "parameters[10][key]".
Proof. by_evaluation. Qed.

(** ** The project handler *)

Lemma bind_ok {S A B} (m : M S A) (f : A → M S B) (s s' : S) (a : A) :
  m s = (Ok a, s') → (m ≫= f) s = f a s'.
Proof. intros Hm. unfold mbind, M_bind. by rewrite Hm. Qed.

Lemma bind_raise {S A B} (m : M S A) (f : A → M S B) (s s' : S) (e : exn) :
  m s = (Raise e, s') → (m ≫= f) s = (Raise e, s').
Proof. intros Hm. unfold mbind, M_bind. by rewrite Hm. Qed.

(** Two lists of records, related position by position to the same list
    by relations that determine a field, agree on the field. *)
Lemma Forall2_field_agree {A B C} (f : B → C) (R R' : A → C → Prop)
    (l : list A) (ps ps' : list B) :
  (∀ a x y, R a x → R' a y → y = x) →
  Forall2 (λ a p, R a (f p)) l ps →
  Forall2 (λ a p, R' a (f p)) l ps' →
  f <$> ps' = f <$> ps.
Proof.
  intros Hdet. revert ps ps'. induction l as [| a l IH]; intros ps ps' H1 H2.
  - apply Forall2_nil_inv_l in H1 as ->. by apply Forall2_nil_inv_l in H2 as ->.
  - apply Forall2_cons_inv_l in H1 as (p & ps0 & Hp & H1 & ->).
    apply Forall2_cons_inv_l in H2 as (p' & ps0' & Hp' & H2 & ->).
    simpl. f_equal; [by eapply Hdet | by apply IH].
Qed.

Lemma find_ext_in {A} (f g : A → bool) (l : list A) :
  (∀ x, x ∈ l → f x = g x) → List.find f l = List.find g l.
Proof.
  induction l as [| x l IH]; intros Hfg; simpl; [done |].
  rewrite <- (Hfg x) by (by left). destruct (f x); [done |].
  apply IH. intros y Hy. apply Hfg. by right.
Qed.

Section project_server.
Import Fs ProjectServer.
Context {os : Os} {collaborators : Collaborators}.

Local Abbreviation config_file d := (d ++ [PROJECT_CONFIG_FILE_NAME]).

Lemma sidecar_Some (fs : FS) (d : path) (data : gmap string value) :
  sidecar fs d = Some data ↔ ∃ st, fs !! config_file d = Some (File st (Config data)).
Proof.
  unfold sidecar. split.
  - destruct (fs !! config_file d) as [[st | st [b | data']] |]; intros; simplify_eq.
    eauto.
  - intros [st ->]. done.
Qed.

Lemma config_file_ne_dir (d : path) : d ≠ config_file d.
Proof. intros Heq. apply (f_equal length) in Heq. rewrite length_app in Heq. simpl in Heq. lia. Qed.

Lemma rewrites_sidecar_refl (fs : FS) (d : path) (data : gmap string value) :
  sidecar fs d = Some data → rewrites_sidecar fs fs d data.
Proof. intros Hs. by split_and!. Qed.

Lemma rewrites_sidecar_trans (fs fs1 fs2 : FS) (d : path)
    (data1 data2 : gmap string value) :
  rewrites_sidecar fs fs1 d data1 → rewrites_sidecar fs1 fs2 d data2 →
  rewrites_sidecar fs fs2 d data2.
Proof.
  intros (_ & Hd1 & Ho1) (Hs2 & Hd2 & Ho2). split_and!; [done | congruence |].
  intros q Hq. by rewrite Ho2, Ho1.
Qed.

Lemma rewrites_sidecar_other (fs fs' : FS) (d d' : path) (data' : gmap string value) :
  rewrites_sidecar fs fs' d data' → d' ≠ d → sidecar fs' d' = sidecar fs d'.
Proof.
  intros (_ & _ & Ho) Hne. unfold sidecar. rewrite Ho; [done |].
  intros Heq. by apply app_inj_tail in Heq as [? _].
Qed.

Lemma rewrites_sidecar_is_dir (fs fs' : FS) (d q : path) (data' : gmap string value) :
  sidecar fs d = Some data' ∨ is_Some (sidecar fs d) →
  rewrites_sidecar fs fs' d data' → is_dir fs' q = is_dir fs q.
Proof.
  intros Hold (Hs & _ & Ho). unfold is_dir.
  destruct (decide (q = config_file d)) as [-> | Hne]; [| by rewrite Ho].
  apply sidecar_Some in Hs as [st ->].
  assert (is_Some (sidecar fs d)) as [data Hd] by (destruct Hold; eauto).
  apply sidecar_Some in Hd as [st' ->]. done.
Qed.

(** Rewriting the sidecar file through the store object. *)
Lemma Storage_set_run (fs : FS) (d : path) (data0 data : gmap string value)
    (k : string) (v : value) :
  sidecar fs d = Some data0 →
  ∃ fs',
    Storage_set {| file := config_file d; _data := data |} k v fs
      = (Ok {| file := config_file d; _data := <[k := v]> data |}, fs') ∧
    rewrites_sidecar fs fs' d (<[k := v]> data).
Proof.
  intros Hs. apply sidecar_Some in Hs as [st Hst].
  unfold Storage_set, fs_op, write_file. unfold_monad. simpl. rewrite Hst.
  eexists. split; [reflexivity |]. split_and!.
  - unfold sidecar. by rewrite lookup_insert_eq.
  - rewrite dom_insert_L. apply subseteq_union_1_L, singleton_subseteq_l.
    apply elem_of_dom. eauto.
  - intros q Hq. by rewrite lookup_insert_ne.
Qed.

Lemma get_project_config_run (fs : FS) (d : path) (data : gmap string value) :
  sidecar fs d = Some data →
  get_project_config d fs = (Ok {| file := config_file d; _data := data |}, fs).
Proof.
  intros Hs. apply sidecar_Some in Hs as [st Hst].
  unfold get_project_config, Storage_init. unfold_monad. by rewrite Hst.
Qed.

(** Resolving the local id: the stored one, or a new one that is stored. *)
Lemma get_local_id_run (fs : FS) (d : path) (data : gmap string value) :
  sidecar fs d = Some data →
  (data !! "local-id" = None ∨ ∃ z, data !! "local-id" = Some (VInt z)) →
  ∃ local_id fs1,
    get_local_id d fs = (Ok local_id, fs1) ∧
    rewrites_sidecar fs fs1 d (<["local-id" := VInt local_id]> data) ∧
    (∀ z, data !! "local-id" = Some (VInt z) → local_id = z ∧ fs1 = fs).
Proof.
  intros Hs Hid. unfold get_local_id.
  rewrite (bind_ok _ _ _ _ _ (get_project_config_run _ _ _ Hs)). simpl.
  destruct Hid as [Hnone | [z Hz]].
  - rewrite Hnone.
    destruct (Storage_set_run fs d data data "local-id"
                (VInt (new_local_id fs d)) Hs) as (fs1 & Hset & Hrw).
    unfold_monad. rewrite Hset. eexists _, _. split; [reflexivity |].
    split; [done |]. intros z Hz. congruence.
  - rewrite Hz. unfold_monad. eexists _, _. split; [reflexivity |].
    rewrite insert_id by done. split; [by apply rewrites_sidecar_refl |].
    intros z' Hz'. split; congruence.
Qed.

Lemma project_directories_dom (fs fs' : FS) :
  dom fs' = dom fs → project_directories fs' = project_directories fs.
Proof. intros Hd. unfold project_directories, rglob. by rewrite Hd. Qed.

Lemma parent_config_file (d : path) : parent (config_file d) = d.
Proof. unfold parent. apply removelast_last. Qed.

Lemma elem_of_project_directories (fs : FS) (d : path) :
  d ∈ project_directories fs ↔
  get_cli_root_directory `prefix_of` d ∧ is_Some (fs !! config_file d).
Proof.
  unfold project_directories, rglob. rewrite list_elem_of_fmap. split.
  - intros (p & -> & Hp). apply list_elem_of_filter in Hp as [(Hpre & Hlen & Hlast) Hin].
    apply last_Some in Hlast as [d ->]. rewrite parent_config_file.
    apply elem_of_elements, elem_of_dom in Hin. split; [| done].
    destruct Hpre as [k Hk].
    destruct (decide (k = [])) as [-> | Hne].
    { rewrite app_nil_r in Hk. rewrite <- Hk in Hlen. lia. }
    destruct (exists_last Hne) as (k' & x & ->).
    rewrite app_assoc in Hk. apply app_inj_tail in Hk as [-> _]. by exists k'.
  - intros [Hpre Hin]. exists (config_file d). rewrite parent_config_file.
    split; [done |]. apply list_elem_of_filter. split_and!.
    + by apply prefix_app_r.
    + apply prefix_length in Hpre. rewrite length_app. simpl. lia.
    + by rewrite last_snoc.
    + by apply elem_of_elements, elem_of_dom.
Qed.

Lemma NoDup_project_directories (fs : FS) : NoDup (project_directories fs).
Proof.
  unfold project_directories, rglob. apply NoDup_fmap_2_strong.
  - intros p q Hp Hq Heq.
    apply list_elem_of_filter in Hp as [(_ & _ & Hp) _].
    apply list_elem_of_filter in Hq as [(_ & _ & Hq) _].
    apply last_Some in Hp as [p' ->]. apply last_Some in Hq as [q' ->].
    rewrite !parent_config_file in Heq. by subst.
  - apply NoDup_filter, NoDup_elements.
Qed.

(** ** Deriving the metadata *)

Lemma foldl_max_spec (l : list Z) (x : Z) :
  (foldl Z.max x l ∈ x :: l) ∧ ∀ y, y ∈ x :: l → (y ≤ foldl Z.max x l)%Z.
Proof.
  revert x. induction l as [| z l IH]; intros x; simpl.
  - split; [by left |]. intros y Hy. apply elem_of_cons in Hy as [-> | Hy]; [lia |].
    by apply elem_of_nil in Hy.
  - destruct (IH (x `max` z)%Z) as [Hin Hle]. split.
    + apply elem_of_cons in Hin as [Heq | Hin]; [| by do 2 right].
      rewrite Heq. destruct (Z.max_spec x z) as [[_ ->] | [_ ->]]; [right; left | left]; done.
    + intros y Hy. apply elem_of_cons in Hy as [-> | Hy].
      * specialize (Hle (x `max` z)%Z (list_elem_of_here _ _)). lia.
      * apply elem_of_cons in Hy as [-> | Hy].
        -- specialize (Hle (x `max` z)%Z (list_elem_of_here _ _)). lia.
        -- apply Hle. by right.
Qed.

Lemma foldl_min_spec (l : list Z) (x : Z) :
  (foldl Z.min x l ∈ x :: l) ∧ ∀ y, y ∈ x :: l → (foldl Z.min x l ≤ y)%Z.
Proof.
  revert x. induction l as [| z l IH]; intros x; simpl.
  - split; [by left |]. intros y Hy. apply elem_of_cons in Hy as [-> | Hy]; [lia |].
    by apply elem_of_nil in Hy.
  - destruct (IH (x `min` z)%Z) as [Hin Hle]. split.
    + apply elem_of_cons in Hin as [Heq | Hin]; [| by do 2 right].
      rewrite Heq. destruct (Z.min_spec x z) as [[_ ->] | [_ ->]]; [left | right; left]; done.
    + intros y Hy. apply elem_of_cons in Hy as [-> | Hy].
      * specialize (Hle (x `min` z)%Z (list_elem_of_here _ _)). lia.
      * apply elem_of_cons in Hy as [-> | Hy].
        -- specialize (Hle (x `min` z)%Z (list_elem_of_here _ _)). lia.
        -- apply Hle. by right.
Qed.

(** [max] of a sequence that is not empty is its greatest element, [min]
    its least. *)
Lemma py_max_spec (l : list Z) :
  l ≠ [] → ∃ m, py_max l = Ok m ∧ m ∈ l ∧ ∀ y, y ∈ l → (y ≤ m)%Z.
Proof.
  destruct l as [| x l]; [done |]. intros _. eexists. split; [reflexivity |].
  apply foldl_max_spec.
Qed.

Lemma py_min_spec (l : list Z) :
  l ≠ [] → ∃ m, py_min l = Ok m ∧ m ∈ l ∧ ∀ y, y ∈ l → (m ≤ y)%Z.
Proof.
  destruct l as [| x l]; [done |]. intros _. eexists. split; [reflexivity |].
  apply foldl_min_spec.
Qed.

Lemma map_result_stat (fs : FS) (l : list path) :
  (∀ p, p ∈ l → is_Some (fs !! p)) →
  ∃ stats, map_result (stat fs) l = Ok stats ∧
           Forall2 (λ p st, stat fs p = Ok st) l stats.
Proof.
  induction l as [| p l IH]; intros Hall; simpl.
  - eexists. split; [reflexivity | constructor].
  - destruct IH as (stats & -> & Hstats); [intros q Hq; apply Hall; by right |].
    destruct (Hall p (list_elem_of_here _ _)) as [x Hx].
    assert (∃ st, stat fs p = Ok st) as [st Hst].
    { unfold stat. rewrite Hx. destruct x; eauto. }
    rewrite Hst. eexists. split; [reflexivity | by constructor].
Qed.

(** The files whose stat records give the timestamps of a project: the
    files to sync, or the directory itself when there are none. *)
Lemma tracked_stats (fs : FS) (d : path) :
  lists_existing_files → is_dir fs d = true →
  ∃ stats0 stats,
    map_result (stat fs) (get_files_to_sync fs d) = Ok stats0 ∧
    (if decide (length stats0 = 0%nat)
     then st ← lift_result (stat fs d); mret [st]
     else mret stats0) fs = (Ok stats, fs) ∧
    stats ≠ [] ∧
    Forall2 (λ p st, stat fs p = Ok st)
      (match get_files_to_sync fs d with [] => [d] | l => l end) stats.
Proof.
  intros Hsync Hdir.
  destruct (map_result_stat fs (get_files_to_sync fs d)) as (stats0 & Hmap & Hall).
  { intros p Hp. by eapply Hsync. }
  exists stats0. destruct Hall as [| p st l stats' Hp Hrest].
  - unfold is_dir in Hdir. destruct (fs !! d) as [[st |] |] eqn:Hd; try done.
    exists [st]. split; [done |]. simpl. unfold_monad. unfold stat. rewrite Hd.
    split_and!; [done | done |]. constructor; [| constructor].
    unfold stat. by rewrite Hd.
  - exists (st :: stats'). split; [done |]. simpl. split_and!; [done | done |].
    by constructor.
Qed.

(** The metadata record of a valid project directory, field by field. *)
Lemma _create_project_valid (fs : FS) (d : path) :
  lists_existing_files → valid_project fs d →
  ∃ project fs1 data stats mtime ctime,
    sidecar fs d = Some data ∧
    _create_project d fs = (Ok project, fs1) ∧
    rewrites_sidecar fs fs1 d (<["local-id" := VInt (projectId project)]> data) ∧
    (∀ z, data !! "local-id" = Some (VInt z) → projectId project = z ∧ fs1 = fs) ∧
    relative_to d get_cli_root_directory = Ok (drop (length get_cli_root_directory) d) ∧
    name project = as_posix_relative (drop (length get_cli_root_directory) d) ∧
    next_language (default (VStr "Python") (data !! "language")) = Ok (language project) ∧
    parameters project =
      (λ kv, {| key := kv.1; value_ := kv.2 |}) <$>
        map_to_list (match data !! "parameters" with Some (VDict p) => p | _ => ∅ end) ∧
    description project =
      match data !! "description" with Some (VStr s) => s | _ => "" end ∧
    Forall2 (λ p st, stat fs1 p = Ok st)
      (match get_files_to_sync fs1 d with [] => [d] | l => l end) stats ∧
    stats ≠ [] ∧
    py_max (st_mtime_ns <$> stats) = Ok mtime ∧
    modified project = fromtimestamp_utc mtime ∧
    py_min (st_ctime_ns <$> stats) = Ok ctime ∧
    created project = fromtimestamp_utc ctime.
Proof.
  intros Hsync (Hroot & Hdir & data & Hside & Hid & Hlang & Hpar & Hdesc).
  destruct (get_local_id_run fs d data Hside Hid) as (local_id & fs1 & Hrun & Hrw & Hst).
  pose proof Hrw as (Hside1 & _ & _).
  assert (is_dir fs1 d = true) as Hdir1.
  { rewrite <- Hdir. eapply rewrites_sidecar_is_dir; [| done]. right. eauto. }
  destruct (tracked_stats fs1 d Hsync Hdir1) as (stats0 & stats & Hmap & Hsel & Hne & Hall).
  destruct (py_max_spec (st_mtime_ns <$> stats)) as (mtime & Hmax & _).
  { by destruct stats. }
  destruct (py_min_spec (st_ctime_ns <$> stats)) as (ctime & Hmin & _).
  { by destruct stats. }
  destruct (next_language (default (VStr "Python") (data !! "language")))
    as [lang |] eqn:Hl; [| done].
  assert (Storage_get {| file := config_file d;
                         _data := <["local-id" := VInt local_id]> data |}
            "language" (VStr "Python")
          = default (VStr "Python") (data !! "language")) as Hgl.
  { unfold Storage_get. simpl. rewrite lookup_insert_ne by done.
    by destruct (data !! "language"). }
  unfold _create_project.
  rewrite (bind_ok _ _ _ _ _ Hrun).
  rewrite (bind_ok _ _ _ _ _ (get_project_config_run _ _ _ Hside1)).
  unfold relative_to. rewrite decide_True by done.
  rewrite Hgl. unfold_monad. rewrite Hmap. simpl.
  unfold_monad. rewrite Hsel. rewrite Hmax, Hmin, Hl. simpl.
  unfold Storage_get. simpl. rewrite !lookup_insert_ne by done.
  destruct Hpar as [Hp | [p Hp]]; destruct Hdesc as [Hd | [ds Hd]]; rewrite Hp, Hd;
    eexists _, fs1, data, stats, mtime, ctime;
    (split; [done |]); (split; [reflexivity |]); simpl;
    split_and!; rewrite ?Hp, ?Hd; done.
Qed.

(** C5: the modification time of the record of a project is the greatest
    [st_mtime_ns], and its creation time the least [st_ctime_ns], among the
    stat records of the files that the sync component lists for the project,
    or of the directory itself when it lists none; both go through the
    conversion to a UTC time. *)
Theorem timestamps_from_tracked_files (fs : FS) (d : path) :
  lists_existing_files → valid_project fs d →
  ∃ project fs1 stats mtime ctime,
    _create_project d fs = (Ok project, fs1) ∧
    Forall2 (λ p st, stat fs1 p = Ok st)
      (match get_files_to_sync fs1 d with [] => [d] | l => l end) stats ∧
    modified project = fromtimestamp_utc mtime ∧
    mtime ∈ st_mtime_ns <$> stats ∧
    (∀ st, st ∈ stats → (st_mtime_ns st ≤ mtime)%Z) ∧
    created project = fromtimestamp_utc ctime ∧
    ctime ∈ st_ctime_ns <$> stats ∧
    (∀ st, st ∈ stats → (ctime ≤ st_ctime_ns st)%Z).
Proof.
  intros Hsync Hvalid.
  destruct (_create_project_valid fs d Hsync Hvalid)
    as (project & fs1 & data & stats & mtime & ctime & _ & Hrun & _ & _ & _ & _ & _
        & _ & _ & Hall & Hne & Hmax & Hmod & Hmin & Hcre).
  destruct (py_max_spec (st_mtime_ns <$> stats)) as (m & Hm & Hmin_in & Hmle).
  { by destruct stats. }
  destruct (py_min_spec (st_ctime_ns <$> stats)) as (c & Hc & Hcin & Hcle).
  { by destruct stats. }
  rewrite Hmax in Hm. rewrite Hmin in Hc. simplify_eq.
  exists project, fs1, stats, m, c. split_and!; try done.
  - intros st Hst. apply Hmle. apply list_elem_of_fmap. eauto.
  - intros st Hst. apply Hcle. apply list_elem_of_fmap. eauto.
Qed.

Lemma next_language_Ok (stored : string) (language : QCLanguage) :
  next_language (VStr stored) = Ok language → (stored, language) ∈ QCLanguage_members.
Proof.
  unfold next_language. intros Hn.
  destruct (List.find _ QCLanguage_members) as [[k v] |] eqn:Hf; [| done].
  apply find_some in Hf as [Hin Hk]. apply bool_decide_eq_true in Hk.
  simpl in *. simplify_eq. by apply list_elem_of_In.
Qed.

Lemma next_language_member (stored : string) :
  is_ok (next_language (VStr stored)) = true ↔ stored ∈ QCLanguage_members.*1.
Proof.
  split.
  - destruct (next_language (VStr stored)) as [v |] eqn:Hn; [intros _ | done].
    apply next_language_Ok in Hn. apply list_elem_of_fmap. by exists (stored, v).
  - intros Hin. apply list_elem_of_fmap in Hin as ([k v] & -> & Hin).
    unfold next_language.
    destruct (List.find _ QCLanguage_members) as [kv |] eqn:Hf; [done |].
    apply list_elem_of_In in Hin. eapply find_none in Hf; [| done].
    simpl in Hf. by rewrite bool_decide_eq_true_2 in Hf.
Qed.

(** When the derivation of the metadata returns a record, the language of
    the record is what the lookup by name gives for the stored value. *)
Lemma _create_project_language (fs fs1 : FS) (d : path) (data : gmap string value)
    (project : QCProject) :
  sidecar fs d = Some data →
  _create_project d fs = (Ok project, fs1) →
  next_language (default (VStr "Python") (data !! "language")) = Ok (language project).
Proof.
  intros Hside Hrun. unfold _create_project in Hrun.
  assert (∃ local_id fs0 data0,
    get_local_id d fs = (Ok local_id, fs0) ∧ sidecar fs0 d = Some data0 ∧
    data0 !! "language" = data !! "language") as (local_id & fs0 & data0 & Hid & Hs0 & Hl0).
  { destruct (get_local_id d fs) as [[local_id | e] fs0] eqn:Hid.
    2:{ by rewrite (bind_raise _ _ _ _ _ Hid) in Hrun. }
    exists local_id, fs0. unfold get_local_id in Hid.
    rewrite (bind_ok _ _ _ _ _ (get_project_config_run _ _ _ Hside)) in Hid.
    simpl in Hid. destruct (data !! "local-id") as [[s0 | z | d0] |] eqn:Hz;
      unfold_monad; simplify_eq.
    - eauto.
    - destruct (Storage_set_run fs d data data "local-id"
                  (VInt (new_local_id fs d)) Hside) as (fs' & Hset & Hs' & _).
      rewrite Hset in Hid. simplify_eq. eexists. split; [done |]. split; [done |].
      by rewrite lookup_insert_ne. }
  rewrite (bind_ok _ _ _ _ _ Hid) in Hrun.
  rewrite (bind_ok _ _ _ _ _ (get_project_config_run _ _ _ Hs0)) in Hrun.
  assert (Storage_get {| file := config_file d; _data := data0 |} "language"
            (VStr "Python") = default (VStr "Python") (data !! "language")) as Hgl.
  { unfold Storage_get. simpl. rewrite Hl0. by destruct (data !! "language"). }
  rewrite Hgl in Hrun. unfold_monad.
  repeat case_match; simplify_eq; reflexivity.
Qed.

(** C6: for a sidecar that stores a language string, the derivation of
    the metadata returns a record only when the string is the name of a
    member of the language enum, the record then carrying that member; for
    any other stored string it raises, and substitutes no language.  The
    lookup is an exact comparison with the names of the members. *)
Theorem language_must_name_a_member (fs : FS) (d : path)
    (data : gmap string value) (stored : string) :
  sidecar fs d = Some data →
  data !! "language" = Some (VStr stored) →
  (∀ project fs1,
     _create_project d fs = (Ok project, fs1) →
     (stored, language project) ∈ QCLanguage_members) ∧
  (stored ∉ QCLanguage_members.*1 →
     ∃ e fs1, _create_project d fs = (Raise e, fs1)) ∧
  (is_ok (next_language (VStr stored)) = true ↔ stored ∈ QCLanguage_members.*1) ∧
  (lists_existing_files → valid_project fs d →
     ∃ project fs1, _create_project d fs = (Ok project, fs1)).
Proof.
  intros Hside Hstored.
  assert (∀ project fs1, _create_project d fs = (Ok project, fs1) →
            (stored, language project) ∈ QCLanguage_members) as Honly.
  { intros project fs1 Hrun. apply next_language_Ok.
    rewrite <- (_create_project_language _ _ _ _ _ Hside Hrun). by rewrite Hstored. }
  split_and!; [done | | apply next_language_member |].
  - intros Hnot. destruct (_create_project d fs) as [[project | e] fs1] eqn:Hrun; [| eauto].
    exfalso. apply Hnot. apply list_elem_of_fmap.
    exists (stored, language project). split; [done |]. by eapply Honly.
  - intros Hsync Hvalid.
    destruct (_create_project_valid fs d Hsync Hvalid) as (project & fs1 & ? & ? & ? & ? & _ & Hrun & _).
    eauto.
Qed.

(** ** Creating a project *)

(** C10: [_projects_create] compares the language field with the literal
    [Py]: the scaffolding is called for a Python project when the field
    is exactly [Py], and for a C# project for every other value, [Python]
    among them. *)
Theorem create_language_only_Py (input : Input) (name language : string) (fs : FS) :
  input !! "name" = Some name →
  input !! "language" = Some language →
  _projects_create input fs =
    (create_project_callback (lstrip "/" name)
       (if decide (language = "Py") then "python" else "csharp")
     ≫= λ _, created_record (lstrip "/" name)) fs ∧
  (language = "Py" → create_language language = "python") ∧
  (language ≠ "Py" → create_language language = "csharp") ∧
  create_language "Python" = "csharp".
Proof.
  intros Hname Hlang. split_and!.
  - unfold _projects_create, getitem. rewrite Hname, Hlang. reflexivity.
  - intros ->. reflexivity.
  - intros Hne. unfold create_language. by rewrite decide_False.
  - reflexivity.
Qed.

(** ** The indexed parameters of a request *)

Global Instance parameters_key_inj : Inj (=) (=) parameters_key.
Proof.
  intros i j Heq. unfold parameters_key in Heq.
  apply String.app_inj, string_app_inj_r in Heq. by apply (inj pretty) in Heq.
Qed.

(** As many consecutive indices as are present, so many fields the request
    has at least. *)
Lemma present_keys_bound (input : Input) (n : nat) :
  (∀ i, (i < n)%nat → is_Some (input !! parameters_key i)) →
  (n ≤ size input)%nat.
Proof.
  intros Hall.
  rewrite <- (size_dom (D := gset string)).
  replace n with (length (parameters_key <$> seq 0 n))
    by (by rewrite length_fmap, length_seq).
  rewrite <- (size_list_to_set (C := gset string))
    by (apply (NoDup_fmap_2 _), NoDup_seq).
  apply subseteq_size. intros k Hk.
  apply elem_of_list_to_set, list_elem_of_fmap in Hk as (i & -> & Hi).
  apply elem_of_seq in Hi. apply elem_of_dom, Hall. lia.
Qed.

(** The loop ends before the fuel does. *)
Lemma parameters_loop_total (input : Input) (fuel index : nat)
    (parameters : gmap string string) :
  (∀ i, (i < index)%nat → is_Some (input !! parameters_key i)) →
  (size input < fuel + index)%nat →
  is_Some (parameters_loop fuel input index parameters).
Proof.
  revert index parameters. induction fuel as [| fuel IH]; intros index parameters Hall Hlt.
  - apply present_keys_bound in Hall. lia.
  - simpl. destruct (input !! parameters_key index) as [k |] eqn:Hk; [| eauto].
    destruct (input !! parameters_value index) as [v |]; [| eauto].
    apply IH; [| lia]. intros i Hi.
    destruct (decide (i = index)) as [-> | Hne]; [eauto | apply Hall; lia].
Qed.

Lemma indexed_parameters_total (input : Input) (fs : FS) :
  ∃ r, parameters_loop (S (size input)) input 0 ∅ = Some r ∧
       indexed_parameters input fs = (r, fs).
Proof.
  destruct (parameters_loop_total input (S (size input)) 0 ∅) as [r Hr];
    [intros i Hi; lia | lia |].
  exists r. split; [done |]. unfold indexed_parameters. by rewrite Hr.
Qed.

(** On the pair list that a request encodes, the loop builds the map of
    the pairs. *)
Lemma parameters_loop_pairs (input : Input) (pairs : list (string * string))
    (fuel index : nat) (parameters : gmap string string) :
  (∀ i k v, pairs !! i = Some (k, v) →
     input !! parameters_key (index + i) = Some k ∧
     input !! parameters_value (index + i) = Some v) →
  input !! parameters_key (index + length pairs) = None →
  (length pairs < fuel)%nat →
  parameters_loop fuel input index parameters
    = Some (Ok (foldl (λ m kv, <[kv.1 := kv.2]> m) parameters pairs)).
Proof.
  revert fuel index parameters.
  induction pairs as [| [k v] pairs IH]; intros fuel index parameters Hall Hend Hfuel.
  - destruct fuel as [| fuel]; [simpl in Hfuel; lia |]. simpl in *.
    rewrite Nat.add_0_r in Hend. by rewrite Hend.
  - destruct fuel as [| fuel]; [simpl in Hfuel; lia |]. simpl in *.
    destruct (Hall 0%nat k v eq_refl) as [Hk Hv]. rewrite Nat.add_0_r in Hk, Hv.
    rewrite Hk, Hv. apply IH; [| | lia].
    + intros i k' v' Hi. replace (S index + i)%nat with (index + S i)%nat by lia.
      by apply Hall.
    + by replace (S index + length pairs)%nat with (index + S (length pairs))%nat by lia.
Qed.

Lemma indexed_parameters_pairs (input : Input) (pairs : list (string * string))
    (fs : FS) :
  encodes_parameters input pairs →
  indexed_parameters input fs = (Ok (dict_of_pairs pairs), fs).
Proof.
  intros (_ & _ & Hall & Hend). unfold indexed_parameters.
  rewrite (parameters_loop_pairs input pairs); [done | done | done |].
  assert (length pairs ≤ size input)%nat; [| lia].
  apply present_keys_bound. intros i Hi.
  destruct (lookup_lt_is_Some_2 pairs i Hi) as [[k v] Hkv].
  destruct (Hall i k v Hkv) as [-> _]. eauto.
Qed.

(** ** Updating a project *)

Lemma contains_key_true (key : string) (input : Input) :
  contains_key key input = true ↔ is_Some (input !! key).
Proof. unfold contains_key. apply bool_decide_eq_true. Qed.

Lemma contains_key_false (key : string) (input : Input) :
  contains_key key input = false ↔ input !! key = None.
Proof.
  unfold contains_key. rewrite bool_decide_eq_false. symmetry. apply eq_None_not_Some.
Qed.

Lemma update_description_run (input : Input) (fs : FS) (d : path)
    (data : gmap string value) :
  sidecar fs d = Some data →
  ∃ fs1,
    update_description input {| file := config_file d; _data := data |} fs
      = (Ok {| file := config_file d; _data := described input data |}, fs1) ∧
    rewrites_sidecar fs fs1 d (described input data) ∧
    (input !! "description" = None → fs1 = fs).
Proof.
  intros Hs. unfold update_description, described, contains_key, getitem.
  destruct (input !! "description") as [description |] eqn:Hd.
  - rewrite bool_decide_eq_true_2 by eauto.
    destruct (Storage_set_run fs d data data "description" (VStr description) Hs)
      as (fs1 & Hset & Hrw).
    exists fs1. unfold_monad. by rewrite Hset.
  - rewrite bool_decide_eq_false_2 by (by intros [? ?]).
    exists fs. split; [done |]. split; [by apply rewrites_sidecar_refl | done].
Qed.

Lemma update_parameters_run (input : Input) (fs : FS) (d : path)
    (data : gmap string value) :
  sidecar fs d = Some data →
  match requested_parameters input with
  | KeepParameters =>
      update_parameters input {| file := config_file d; _data := data |} fs
        = (Ok {| file := config_file d; _data := data |}, fs)
  | SetParameters (Ok parameters) =>
      ∃ fs2,
        update_parameters input {| file := config_file d; _data := data |} fs
          = (Ok {| file := config_file d;
                   _data := <["parameters" := VDict parameters]> data |}, fs2) ∧
        rewrites_sidecar fs fs2 d (<["parameters" := VDict parameters]> data)
  | SetParameters (Raise e) =>
      update_parameters input {| file := config_file d; _data := data |} fs
        = (Raise e, fs)
  end.
Proof.
  intros Hs. unfold update_parameters, requested_parameters.
  destruct (contains_key "parameters" input).
  { destruct (Storage_set_run fs d data data "parameters" (VDict ∅) Hs)
      as (fs2 & Hset & Hrw). eauto. }
  destruct (contains_key "parameters[0][key]" input); [| done].
  destruct (indexed_parameters_total input fs) as (r & -> & Hrun).
  destruct r as [parameters | e].
  - destruct (Storage_set_run fs d data data "parameters" (VDict parameters) Hs)
      as (fs2 & Hset & Hrw).
    exists fs2. split; [| done]. by rewrite (bind_ok _ _ _ _ _ Hrun).
  - by rewrite (bind_raise _ _ _ _ _ Hrun).
Qed.

Lemma update_name_run (input : Input) (d : path) (fs : FS) :
  match input !! "name" with
  | None => update_name input d fs = (Ok tt, fs)
  | Some name =>
      let new_dir := truediv get_cli_root_directory (lstrip "/" name) in
      update_name input d fs =
        if is_dir fs new_dir
        then (Raise (RuntimeError (conflict_message name)), fs)
        else fs_op (shutil_move d new_dir) fs
  end.
Proof.
  unfold update_name, contains_key, getitem.
  destruct (input !! "name") as [name |] eqn:Hn.
  - rewrite bool_decide_eq_true_2 by eauto. unfold_monad.
    by destruct (is_dir fs _).
  - by rewrite bool_decide_eq_false_2 by (by intros [? ?]).
Qed.

(** The steps of [_projects_update] on a project that the id resolves to:
    the description, then the parameters, then the name. *)
Lemma _projects_update_steps (input : Input) (fs : FS) (project_id : string)
    (local_id : Z) (d : path) (data : gmap string value) :
  input !! "projectId" = Some project_id →
  int project_id = Ok local_id →
  find_project_by_id local_id fs = (Ok d, fs) →
  sidecar fs d = Some data →
  ∃ fs1,
    rewrites_sidecar fs fs1 d (described input data) ∧
    (input !! "description" = None → fs1 = fs) ∧
    match requested_parameters input with
    | KeepParameters => _projects_update input fs = update_name input d fs1
    | SetParameters (Ok parameters) =>
        ∃ fs2,
          rewrites_sidecar fs1 fs2 d
            (<["parameters" := VDict parameters]> (described input data)) ∧
          _projects_update input fs = update_name input d fs2
    | SetParameters (Raise e) => _projects_update input fs = (Raise e, fs1)
    end.
Proof.
  intros Hid Hint Hfind Hs.
  destruct (update_description_run input fs d data Hs) as (fs1 & Hdesc & Hrw1 & Hsame).
  exists fs1. split; [done |]. split; [done |].
  pose proof Hrw1 as (Hs1 & _).
  pose proof (update_parameters_run input fs1 d (described input data) Hs1) as Hpar.
  assert (_projects_update input fs =
      (update_parameters input
         {| file := config_file d; _data := described input data |} ≫= λ
         project_config, update_name input d) fs1) as Hhead.
  { unfold _projects_update, getitem. rewrite Hid.
    unfold_monad. rewrite Hint, Hfind.
    rewrite (get_project_config_run _ _ _ Hs). by rewrite Hdesc. }
  destruct (requested_parameters input) as [| [parameters | e]].
  - by rewrite Hhead, (bind_ok _ _ _ _ _ Hpar).
  - destruct Hpar as (fs2 & Hrun & Hrw2). exists fs2. split; [done |].
    by rewrite Hhead, (bind_ok _ _ _ _ _ Hrun).
  - by rewrite Hhead, (bind_raise _ _ _ _ _ Hpar).
Qed.

(** C3: in one call of [_projects_update] each of the three partial
    updates is applied only if its field is in the request, each on its
    own key, and in the order description, parameters, name: the sidecar is
    first rewritten with the description (or left as it is), then with the
    parameters on top of that (a failure of the parameter loop leaving the
    description written and the name unchanged), and the rename runs last,
    on the file system that the two other steps have left. *)
Theorem update_steps_in_order (input : Input) (fs : FS) (project_id : string)
    (local_id : Z) (d : path) (data : gmap string value) :
  input !! "projectId" = Some project_id →
  int project_id = Ok local_id →
  find_project_by_id local_id fs = (Ok d, fs) →
  sidecar fs d = Some data →
  ∃ fs1 fs2,
    rewrites_sidecar fs fs1 d (described input data) ∧
    (input !! "description" = None → fs1 = fs ∧ described input data = data) ∧
    (∀ description, input !! "description" = Some description →
       described input data !! "description" = Some (VStr description) ∧
       ∀ k, k ≠ "description" → described input data !! k = data !! k) ∧
    match requested_parameters input with
    | KeepParameters =>
        fs2 = fs1 ∧ _projects_update input fs = update_name input d fs2
    | SetParameters (Ok parameters) =>
        rewrites_sidecar fs1 fs2 d
          (<["parameters" := VDict parameters]> (described input data)) ∧
        _projects_update input fs = update_name input d fs2
    | SetParameters (Raise e) =>
        fs2 = fs1 ∧ _projects_update input fs = (Raise e, fs1)
    end ∧
    (requested_parameters input = KeepParameters ↔
       input !! "parameters" = None ∧ input !! "parameters[0][key]" = None) ∧
    match input !! "name" with
    | None => update_name input d fs2 = (Ok tt, fs2)
    | Some name =>
        let new_dir := truediv get_cli_root_directory (lstrip "/" name) in
        update_name input d fs2 =
          if is_dir fs2 new_dir
          then (Raise (RuntimeError (conflict_message name)), fs2)
          else fs_op (shutil_move d new_dir) fs2
    end.
Proof.
  intros Hid Hint Hfind Hs.
  destruct (_projects_update_steps input fs project_id local_id d data Hid Hint Hfind Hs)
    as (fs1 & Hrw1 & Hsame & Hpar).
  assert (requested_parameters input = KeepParameters ↔
          input !! "parameters" = None ∧ input !! "parameters[0][key]" = None) as Hkeep.
  { unfold requested_parameters. rewrite <- !contains_key_false.
    destruct (contains_key "parameters" input);
      destruct (contains_key "parameters[0][key]" input);
      try destruct (parameters_loop _ _ _ _); intuition congruence. }
  assert (∃ fs2,
    match requested_parameters input with
    | KeepParameters =>
        fs2 = fs1 ∧ _projects_update input fs = update_name input d fs2
    | SetParameters (Ok parameters) =>
        rewrites_sidecar fs1 fs2 d
          (<["parameters" := VDict parameters]> (described input data)) ∧
        _projects_update input fs = update_name input d fs2
    | SetParameters (Raise e) =>
        fs2 = fs1 ∧ _projects_update input fs = (Raise e, fs1)
    end) as [fs2 Hfs2].
  { destruct (requested_parameters input) as [| [parameters | e]]; [by exists fs1 | | by exists fs1].
    destruct Hpar as (fs2 & ? & ?). by exists fs2. }
  exists fs1, fs2. split_and!; [done | | | done | done | apply update_name_run].
  - intros Hnone. split; [by apply Hsame |]. unfold described. by rewrite Hnone.
  - intros description Hd. unfold described. rewrite Hd.
    split; [by rewrite lookup_insert_eq |]. intros k Hk. by rewrite lookup_insert_ne.
Qed.

(** ** Reading a project after an update *)

Lemma stored_local_id_sidecar (fs : FS) (d : path) :
  stored_local_id fs d =
    match sidecar fs d with
    | Some data => match data !! "local-id" with
                   | Some (VInt z) => Some z
                   | _ => None
                   end
    | None => None
    end.
Proof.
  unfold stored_local_id, sidecar.
  by destruct (fs !! config_file d) as [[st | st [b | data]] |].
Qed.

(** Rewriting a sidecar file without touching the stored id changes the id
    of no directory, and so not what an id resolves to. *)
Lemma stored_local_id_rewrites (fs fs' : FS) (d d' : path)
    (data data' : gmap string value) :
  sidecar fs d = Some data → rewrites_sidecar fs fs' d data' →
  data' !! "local-id" = data !! "local-id" →
  stored_local_id fs' d' = stored_local_id fs d'.
Proof.
  intros Hs Hrw Hid. rewrite !stored_local_id_sidecar.
  destruct (decide (d' = d)) as [-> | Hne].
  - destruct Hrw as (-> & _). by rewrite Hs, Hid.
  - by rewrite (rewrites_sidecar_other _ _ _ _ _ Hrw Hne).
Qed.

Lemma find_project_by_id_rewrites (fs fs' : FS) (d d0 : path)
    (data data' : gmap string value) (local_id : Z) :
  sidecar fs d = Some data → rewrites_sidecar fs fs' d data' →
  data' !! "local-id" = data !! "local-id" →
  find_project_by_id local_id fs = (Ok d0, fs) →
  find_project_by_id local_id fs' = (Ok d0, fs').
Proof.
  intros Hs Hrw Hid. unfold find_project_by_id. unfold_monad.
  pose proof Hrw as (_ & Hdom & _).
  rewrite (project_directories_dom _ _ Hdom).
  assert (List.find (λ d1, bool_decide (stored_local_id fs' d1 = Some local_id))
            (project_directories fs)
          = List.find (λ d1, bool_decide (stored_local_id fs d1 = Some local_id))
              (project_directories fs)) as ->.
  { apply find_ext_in. intros d1 _.
    by rewrite (stored_local_id_rewrites _ _ _ _ _ _ Hs Hrw Hid). }
  destruct (List.find _ (project_directories fs)); intros; by simplify_eq.
Qed.

Lemma find_project_by_id_Ok (fs fs' : FS) (d : path) (local_id : Z) :
  find_project_by_id local_id fs = (Ok d, fs') →
  fs' = fs ∧ d ∈ project_directories fs ∧ stored_local_id fs d = Some local_id.
Proof.
  unfold find_project_by_id. unfold_monad.
  destruct (List.find _ (project_directories fs)) as [d0 |] eqn:Hf; intros; simplify_eq.
  apply find_some in Hf as [Hin Hid]. apply bool_decide_eq_true in Hid.
  by rewrite list_elem_of_In.
Qed.

Lemma valid_project_rewrites (fs fs' : FS) (d : path) (data' : gmap string value) :
  valid_project fs d → rewrites_sidecar fs fs' d data' → readable_config data' →
  valid_project fs' d.
Proof.
  intros (Hroot & Hdir & data & Hs & _) Hrw Hread. split_and!; [done | |].
  - rewrite <- Hdir. eapply rewrites_sidecar_is_dir; [| done]. right. eauto.
  - exists data'. split; [by destruct Hrw | done].
Qed.

Lemma requested_parameters_signal (input : Input) :
  is_Some (input !! "parameters") → requested_parameters input = SetParameters (Ok ∅).
Proof.
  intros Hp. unfold requested_parameters.
  by rewrite (proj2 (contains_key_true _ _) Hp).
Qed.

Lemma requested_parameters_pairs (input : Input) (pairs : list (string * string)) :
  encodes_parameters input pairs →
  requested_parameters input = SetParameters (Ok (dict_of_pairs pairs)).
Proof.
  intros Henc. pose proof Henc as (Hno & Hne & Hall & Hend).
  unfold requested_parameters.
  rewrite (proj2 (contains_key_false _ _) Hno).
  destruct pairs as [| [k v] pairs]; [done |].
  destruct (Hall 0%nat k v eq_refl) as [Hk _].
  change (parameters_key 0) with "parameters[0][key]" in Hk.
  rewrite (proj2 (contains_key_true _ _)) by eauto.
  assert (length ((k, v) :: pairs) ≤ size input)%nat as Hlen.
  { apply present_keys_bound. intros i Hi.
    destruct (lookup_lt_is_Some_2 ((k, v) :: pairs) i Hi) as [[k' v'] Hkv].
    destruct (Hall i k' v' Hkv) as [-> _]. eauto. }
  by rewrite (parameters_loop_pairs input ((k, v) :: pairs) _ 0 ∅ Hall Hend) by lia.
Qed.

(** The map of a pair list: a later pair wins over an earlier one. *)
Lemma dict_of_pairs_reverse (pairs : list (string * string)) :
  dict_of_pairs pairs = list_to_map (reverse pairs).
Proof.
  unfold dict_of_pairs.
  assert (∀ acc : gmap string string,
    foldl (λ m kv, <[kv.1 := kv.2]> m) acc pairs
    = foldr (λ kv m, <[kv.1 := kv.2]> m) acc (reverse pairs)) as Hgen.
  { induction pairs as [| kv pairs IH]; intros acc; simpl; [done |].
    by rewrite reverse_cons, foldr_app, IH. }
  rewrite Hgen. unfold list_to_map. f_equal.
Qed.

Lemma readable_config_updated (input : Input) (data : gmap string value)
    (parameters : gmap string string) :
  readable_config data →
  readable_config (<["parameters" := VDict parameters]> (described input data)) ∧
  (<["parameters" := VDict parameters]> (described input data)) !! "local-id"
    = data !! "local-id".
Proof.
  intros (Hid & Hlang & Hpar & Hdesc). unfold readable_config, described.
  destruct (input !! "description") as [description |];
    rewrite ?lookup_insert_eq, ?lookup_insert_ne, ?lookup_insert_eq by done;
    split_and!; eauto.
Qed.

Lemma _projects_read_one (read_input : Input) (fs : FS) (project_id : string)
    (local_id : Z) (d : path) :
  read_input !! "projectId" = Some project_id →
  int project_id = Ok local_id →
  find_project_by_id local_id fs = (Ok d, fs) →
  _projects_read read_input fs =
    match _create_project d fs with
    | (Ok project, fs') => (Ok [project], fs')
    | (Raise e, fs') => (Raise e, fs')
    end.
Proof.
  intros Hid Hint Hfind. unfold _projects_read. rewrite Hid. unfold_monad.
  rewrite Hint, Hfind. by destruct (_create_project d fs) as [[project | e] fs'].
Qed.

(** Updating the parameters of a valid project and reading it back. *)
Lemma update_parameters_then_read (input read_input : Input) (fs : FS)
    (project_id : string) (local_id : Z) (d : path)
    (parameters : gmap string string) :
  lists_existing_files →
  input !! "projectId" = Some project_id →
  read_input !! "projectId" = Some project_id →
  int project_id = Ok local_id →
  find_project_by_id local_id fs = (Ok d, fs) →
  valid_project fs d →
  input !! "name" = None →
  requested_parameters input = SetParameters (Ok parameters) →
  ∃ fs2 project fs3,
    _projects_update input fs = (Ok tt, fs2) ∧
    _projects_read read_input fs2 = (Ok [project], fs3) ∧
    ProjectServer.parameters project =
      (λ kv, {| key := kv.1; value_ := kv.2 |}) <$> map_to_list parameters.
Proof.
  intros Hsync Hid Hrid Hint Hfind Hvalid Hname Hreq.
  pose proof Hvalid as (_ & _ & data & Hs & Hread).
  destruct (_projects_update_steps input fs project_id local_id d data Hid Hint Hfind Hs)
    as (fs1 & Hrw1 & _ & Hpar).
  rewrite Hreq in Hpar. destruct Hpar as (fs2 & Hrw2 & Hrun).
  pose proof (update_name_run input d fs2) as Hmv. rewrite Hname in Hmv.
  rewrite Hmv in Hrun.
  pose proof (rewrites_sidecar_trans _ _ _ _ _ _ Hrw1 Hrw2) as Hrw.
  destruct (readable_config_updated input data parameters Hread) as [Hread2 Hid2].
  pose proof (valid_project_rewrites _ _ _ _ Hvalid Hrw Hread2) as Hvalid2.
  pose proof (find_project_by_id_rewrites _ _ _ _ _ _ _ Hs Hrw Hid2 Hfind) as Hfind2.
  destruct (_create_project_valid fs2 d Hsync Hvalid2)
    as (project & fs3 & data2 & ? & ? & ? & Hs2 & Hcreate & _ & _ & _ & _ & _ & Hp & _).
  destruct Hrw as (Hs2' & _). rewrite Hs2' in Hs2. simplify_eq.
  rewrite lookup_insert_eq in Hp.
  exists fs2, project, fs3. split; [done |]. split; [| done].
  rewrite (_projects_read_one _ _ _ _ _ Hrid Hint Hfind2). by rewrite Hcreate.
Qed.

(** C4: on a valid project, an update that carries the empty-parameters
    signal followed by a read gives a record without parameters; an
    update that carries an indexed pair list (consecutive from index 0)
    followed by a read gives a record whose parameters are exactly the
    map formed from the pairs, a later pair replacing an earlier one with
    the same key. *)
Theorem parameters_round_trip (input read_input : Input) (fs : FS)
    (project_id : string) (local_id : Z) (d : path) :
  lists_existing_files →
  input !! "projectId" = Some project_id →
  read_input !! "projectId" = Some project_id →
  int project_id = Ok local_id →
  find_project_by_id local_id fs = (Ok d, fs) →
  valid_project fs d →
  input !! "name" = None →
  (is_Some (input !! "parameters") →
     ∃ fs2 project fs3,
       _projects_update input fs = (Ok tt, fs2) ∧
       _projects_read read_input fs2 = (Ok [project], fs3) ∧
       ProjectServer.parameters project = []) ∧
  (∀ pairs, encodes_parameters input pairs →
     ∃ fs2 project fs3,
       _projects_update input fs = (Ok tt, fs2) ∧
       _projects_read read_input fs2 = (Ok [project], fs3) ∧
       parameters_dict project = dict_of_pairs pairs ∧
       parameters_dict project = list_to_map (reverse pairs)).
Proof.
  intros Hsync Hid Hrid Hint Hfind Hvalid Hname. split.
  - intros Hsignal.
    destruct (update_parameters_then_read input read_input fs project_id local_id d ∅
                Hsync Hid Hrid Hint Hfind Hvalid Hname
                (requested_parameters_signal _ Hsignal))
      as (fs2 & project & fs3 & Hup & Hread & Hp).
    exists fs2, project, fs3. split_and!; [done | done |].
    by rewrite Hp, map_to_list_empty.
  - intros pairs Henc.
    destruct (update_parameters_then_read input read_input fs project_id local_id d
                (dict_of_pairs pairs) Hsync Hid Hrid Hint Hfind Hvalid Hname
                (requested_parameters_pairs _ _ Henc))
      as (fs2 & project & fs3 & Hup & Hread & Hp).
    exists fs2, project, fs3.
    assert (parameters_dict project = dict_of_pairs pairs) as Hdict.
    { unfold parameters_dict. rewrite Hp, <- list_fmap_compose.
      rewrite (list_fmap_ext _ Datatypes.id (map_to_list (dict_of_pairs pairs)))
        by (by intros ? []).
      rewrite list_fmap_id. apply list_to_map_to_list. }
    split_and!; [done | done | done |]. by rewrite Hdict, dict_of_pairs_reverse.
Qed.

(** ** Renaming a project *)

Lemma lstrip_not_absolute (name : string) : is_absolute (lstrip "/" name) = false.
Proof.
  destruct (lstrip_spec "/" name) as (n & _ & Hno).
  destruct (lstrip "/" name) as [| c s'] eqn:Hl; [done |]. simpl.
  destruct (Ascii.eqb_spec c "/") as [-> | Hne]; [| done]. by destruct (Hno s').
Qed.

Lemma rewrites_sidecar_kinds (fs fs' : FS) (d : path) (data data' : gmap string value) :
  sidecar fs d = Some data → rewrites_sidecar fs fs' d data' →
  ∀ q, is_dir fs' q = is_dir fs q ∧ (fs' !! q = None ↔ fs !! q = None).
Proof.
  intros Hs Hrw q. split; [eapply rewrites_sidecar_is_dir; eauto |].
  destruct Hrw as (_ & Hdom & _).
  rewrite <- !(not_elem_of_dom (D := gset path)). by rewrite Hdom.
Qed.

Lemma free_rewrites (fs fs' : FS) (d p : path) (data data' : gmap string value) :
  sidecar fs d = Some data → rewrites_sidecar fs fs' d data' →
  free fs p → free fs' p.
Proof.
  intros Hs Hrw Hfree q Hq.
  by apply (rewrites_sidecar_kinds _ _ _ _ _ Hs Hrw q), Hfree.
Qed.

(** The move of a directory to a free path outside of it. *)
Lemma shutil_move_free (src dst : path) (fs : FS) :
  free fs dst → ¬ src `prefix_of` dst →
  is_ok (makedirs (parent dst) fs) = true →
  ∃ fs',
    shutil_move src dst fs = Ok fs' ∧
    ∀ rel, fs' !! (dst ++ rel) = fs !! (src ++ rel) ∧ fs' !! (src ++ rel) = None.
Proof.
  intros Hfree Hout Hmk. unfold shutil_move.
  assert (fs !! dst = None) as Hdst by (by apply Hfree).
  assert (is_dir fs dst = false) as -> by (unfold is_dir; by rewrite Hdst).
  assert (exists_ fs dst = false) as ->.
  { unfold exists_. rewrite Hdst. by apply bool_decide_eq_false_2, is_Some_None. }
  simpl. rewrite decide_False by done.
  destruct (makedirs (parent dst) fs) as [fs1 |] eqn:Hm; [| done].
  eexists. split; [reflexivity |]. intros rel.
  pose proof (makedirs_parent_free _ _ _ Hm Hfree) as Hfree1. split.
  - rewrite rename_tree_moved by done. by eapply makedirs_parent_outside.
  - by apply rename_tree_source.
Qed.

(** C2, as the code has it, for a request whose project id resolves to a
    project with a sidecar file and whose parameter fields, if it has any,
    are complete, so that the steps before the rename do not fail: the new
    path is the working root joined with the name stripped of its leading
    separators.  For a new path without a [..] component: if the new path is
    an existing directory the call fails with the conflict error, and the
    file system is as the description and parameter steps left it: no name
    has appeared or disappeared and nothing but the content of the sidecar
    file differs, so the project directory is not moved.  If nothing
    exists at the new path or below it, which is not inside the project
    directory and whose parents are or can be made directories, the
    directory and all its contents are at the new path afterwards and
    nothing is left at the old one. *)
Theorem rename_conflicts_or_moves (input : Input) (fs : FS) (project_id : string)
    (local_id : Z) (d : path) (data : gmap string value) (name : string) :
  input !! "projectId" = Some project_id →
  int project_id = Ok local_id →
  find_project_by_id local_id fs = (Ok d, fs) →
  sidecar fs d = Some data →
  input !! "name" = Some name →
  (∀ e, requested_parameters input ≠ SetParameters (Raise e)) →
  let new_dir := get_cli_root_directory ++ parts (lstrip "/" name) in
  plain new_dir →
  truediv get_cli_root_directory (lstrip "/" name) = new_dir ∧
  ∃ fs2 data2,
    rewrites_sidecar fs fs2 d data2 ∧
    (input !! "description" = None → requested_parameters input = KeepParameters →
       fs2 = fs) ∧
    (is_dir fs new_dir = true →
       _projects_update input fs
         = (Raise (RuntimeError (conflict_message name)), fs2) ∧
       is_dir fs2 d = is_dir fs d) ∧
    (free fs new_dir → ¬ d `prefix_of` new_dir →
     is_ok (makedirs (parent new_dir) fs) = true →
       ∃ fs3,
         _projects_update input fs = (Ok tt, fs3) ∧
         ∀ rel, fs3 !! (new_dir ++ rel) = fs2 !! (d ++ rel) ∧
                fs3 !! (d ++ rel) = None).
Proof.
  intros Hid Hint Hfind Hs Hname Hloop new_dir Hplain.
  assert (truediv get_cli_root_directory (lstrip "/" name) = new_dir) as Hnew.
  { unfold truediv. by rewrite lstrip_not_absolute. }
  split; [done |].
  destruct (_projects_update_steps input fs project_id local_id d data Hid Hint Hfind Hs)
    as (fs1 & Hrw1 & Hsame & Hpar).
  assert (∃ fs2 data2,
    rewrites_sidecar fs fs2 d data2 ∧
    (input !! "description" = None → requested_parameters input = KeepParameters →
       fs2 = fs) ∧
    _projects_update input fs = update_name input d fs2) as (fs2 & data2 & Hrw & Hnop & Hrun).
  { destruct (requested_parameters input) as [| [parameters | e]] eqn:Hreq.
    - exists fs1, (described input data). split_and!; [done | | done]. intros Hd _. by apply Hsame.
    - destruct Hpar as (fs2 & Hrw2 & Hrun). exists fs2. eexists.
      split_and!; [by eapply rewrites_sidecar_trans | done | done].
    - by destruct (Hloop e). }
  exists fs2, data2. split; [done |]. split; [done |].
  pose proof (rewrites_sidecar_kinds _ _ _ _ _ Hs Hrw) as Hkinds.
  pose proof (update_name_run input d fs2) as Hmv. rewrite Hname in Hmv.
  simpl in Hmv. rewrite Hnew in Hmv. rewrite Hrun, Hmv. split.
  - intros Hdir. rewrite (proj1 (Hkinds new_dir)), Hdir.
    split; [done | apply Hkinds].
  - intros Hfree Hout Hmk.
    pose proof (free_rewrites _ _ _ _ _ _ Hs Hrw Hfree) as Hfree2.
    assert (is_dir fs2 new_dir = false) as ->.
    { unfold is_dir. by rewrite (Hfree2 new_dir). }
    destruct (shutil_move_free d new_dir fs2 Hfree2 Hout) as (fs3 & Hmove & Hmoved).
    { rewrite <- Hmk. unfold makedirs. by apply makedirs_go_same_kinds. }
    exists fs3. split; [| done]. unfold fs_op. by rewrite Hmove.
Qed.

(** ** Listing all projects *)

Lemma readable_config_local_id (data : gmap string value) (z : Z) :
  readable_config data → readable_config (<["local-id" := VInt z]> data).
Proof.
  intros (Hid & Hlang & Hpar & Hdesc). unfold readable_config.
  rewrite lookup_insert_eq, !lookup_insert_ne by done. split_and!; eauto.
Qed.

(** What the derivation of one record does to the file system: the id is
    stored, no stored id changes, valid projects stay valid. *)
Lemma _create_project_step (fs : FS) (d : path) :
  lists_existing_files → valid_project fs d →
  ∃ project fs1,
    _create_project d fs = (Ok project, fs1) ∧
    name project = as_posix_relative (drop (length get_cli_root_directory) d) ∧
    dom fs1 = dom fs ∧
    stored_local_id fs1 d = Some (projectId project) ∧
    (∀ d0 z, stored_local_id fs d0 = Some z → stored_local_id fs1 d0 = Some z) ∧
    (∀ d', valid_project fs d' → valid_project fs1 d').
Proof.
  intros Hsync Hvalid.
  destruct (_create_project_valid fs d Hsync Hvalid)
    as (project & fs1 & data & ? & ? & ? & Hs & Hrun & Hrw & Hst & _ & Hname & _).
  pose proof Hrw as (Hs1 & Hdom & Hother).
  assert (stored_local_id fs1 d = Some (projectId project)) as Hid1.
  { by rewrite stored_local_id_sidecar, Hs1, lookup_insert_eq. }
  exists project, fs1. split_and!; try done.
  - intros d0 z Hz. destruct (decide (d0 = d)) as [-> | Hne].
    + rewrite stored_local_id_sidecar, Hs in Hz.
      destruct (data !! "local-id") as [[s0 | z0 | d0] |] eqn:Hl; simplify_eq.
      destruct (Hst _ eq_refl) as [<- _]. done.
    + rewrite stored_local_id_sidecar in *.
      by rewrite (rewrites_sidecar_other _ _ _ _ _ Hrw Hne).
  - intros d' Hv'. destruct (decide (d' = d)) as [-> | Hne].
    + destruct Hvalid as (_ & _ & data' & Hs' & Hread). simplify_eq.
      eapply valid_project_rewrites; [done | done |].
      by apply readable_config_local_id.
    + destruct Hv' as (Hroot & Hdir & data' & Hs' & Hread). split_and!; [done | |].
      * rewrite <- Hdir. eapply rewrites_sidecar_is_dir; [| done]. right. eauto.
      * exists data'. by rewrite (rewrites_sidecar_other _ _ _ _ _ Hrw Hne).
Qed.

Lemma list_comprehension_create (dirs : list path) (fs : FS) :
  lists_existing_files → Forall (valid_project fs) dirs →
  ∃ projects fs',
    list_comprehension _create_project dirs fs = (Ok projects, fs') ∧
    Forall2 (λ d project,
               name project = as_posix_relative (drop (length get_cli_root_directory) d) ∧
               stored_local_id fs' d = Some (projectId project)) dirs projects ∧
    dom fs' = dom fs ∧
    (∀ d0 z, stored_local_id fs d0 = Some z → stored_local_id fs' d0 = Some z) ∧
    (∀ d', valid_project fs d' → valid_project fs' d').
Proof.
  intros Hsync. revert fs. induction dirs as [| d dirs IH]; intros fs Hall.
  - exists [], fs. simpl. split_and!; [done | constructor | done | done | done].
  - apply Forall_cons in Hall as [Hd Hall].
    destruct (_create_project_step fs d Hsync Hd)
      as (project & fs1 & Hrun & Hname & Hdom1 & Hid1 & Hstay1 & Hvalid1).
    destruct (IH fs1) as (projects & fs' & Hrest & Hall2 & Hdom & Hstay & Hvalid).
    { eapply Forall_impl; [done | apply Hvalid1]. }
    exists (project :: projects), fs'. simpl.
    rewrite (bind_ok _ _ _ _ _ Hrun), (bind_ok _ _ _ _ _ Hrest).
    split_and!; [done | | congruence | by auto | by auto].
    constructor; [| done]. split; [done | by apply Hstay].
Qed.

(** C7: a read without a project id, over a working root all of whose
    project directories are valid, returns a list (the empty list when
    there is no project directory) and no error; the list has exactly one
    record for each directory at or below the working root that holds a
    sidecar file, each directory being listed once; and a second read
    returns the same ids, record by record. *)
Theorem read_lists_every_project_once (input : Input) (fs : FS) :
  lists_existing_files →
  input !! "projectId" = None →
  (∀ d, d ∈ project_directories fs → valid_project fs d) →
  ∃ projects fs1,
    _projects_read input fs = (Ok projects, fs1) ∧
    NoDup (project_directories fs) ∧
    (∀ d, d ∈ project_directories fs ↔
          get_cli_root_directory `prefix_of` d ∧
          is_Some (fs !! (d ++ [PROJECT_CONFIG_FILE_NAME]))) ∧
    Forall2 (λ d project,
               name project = as_posix_relative (drop (length get_cli_root_directory) d))
      (project_directories fs) projects ∧
    (project_directories fs = [] → projects = []) ∧
    ∃ projects2 fs2,
      _projects_read input fs1 = (Ok projects2, fs2) ∧
      projectId <$> projects2 = projectId <$> projects ∧
      name <$> projects2 = name <$> projects.
Proof.
  intros Hsync Hall Hvalid.
  destruct (list_comprehension_create (project_directories fs) fs Hsync)
    as (projects & fs1 & Hrun & Hrec & Hdom & Hstay & Hvalid1).
  { by apply Forall_forall. }
  destruct (list_comprehension_create (project_directories fs) fs1 Hsync)
    as (projects2 & fs2 & Hrun2 & Hrec2 & _ & Hstay2 & _).
  { apply Forall_forall. auto. }
  exists projects, fs1. split_and!.
  - unfold _projects_read. by rewrite Hall.
  - apply NoDup_project_directories.
  - apply elem_of_project_directories.
  - eapply Forall2_impl; [done |]. by intros d project [? _].
  - intros Hnil. rewrite Hnil in Hrec. by apply Forall2_nil_inv_l in Hrec.
  - exists projects2, fs2. split_and!.
    + unfold _projects_read. rewrite Hall. unfold_monad.
      by rewrite (project_directories_dom _ _ Hdom).
    + eapply (Forall2_field_agree projectId
                (λ d z, stored_local_id fs1 d = Some z)
                (λ d z, stored_local_id fs2 d = Some z)).
      * intros d x y Hx Hy. apply Hstay2 in Hx. congruence.
      * eapply Forall2_impl; [exact Hrec |]. by intros d project [_ ?].
      * eapply Forall2_impl; [exact Hrec2 |]. by intros d project [_ ?].
    + eapply (Forall2_field_agree name
                (λ d n, n = as_posix_relative (drop (length get_cli_root_directory) d))
                (λ d n, n = as_posix_relative (drop (length get_cli_root_directory) d))).
      * intros d x y -> ->. done.
      * eapply Forall2_impl; [exact Hrec |]. by intros d project [? _].
      * eapply Forall2_impl; [exact Hrec2 |]. by intros d project [? _].
Qed.

End project_server.

(** ** The scenario of the project handler *)

Section project_scenario.
Import Fs ProjectServer ProjectScenario.
Existing Instance Scenario.os.
Existing Instance ProjectScenario.collaborators.

Lemma scenario_lists_existing_files : lists_existing_files.
Proof.
  intros fs project_dir p Hp. simpl in Hp.
  apply list_elem_of_filter in Hp as [_ Hp].
  by apply elem_of_elements, elem_of_dom in Hp.
Qed.

Lemma scenario_project_directories : project_directories disk = [gamma; alpha].
Proof. by_evaluation. Qed.

Lemma scenario_valid_alpha : valid_project disk alpha.
Proof.
  split_and!; [by exists ["alpha"] | by vm_compute |].
  exists alpha_config. split; [by_evaluation |].
  split_and!; [right; by exists 1%Z | by vm_compute | by left | right; by exists "first"].
Qed.

Lemma scenario_valid_gamma : valid_project disk gamma.
Proof.
  split_and!; [by exists ["gamma"] | by vm_compute |].
  exists {[ "language" := VStr "CSharp" ]}. split; [by_evaluation |].
  split_and!; [by left | by vm_compute | by left | by left].
Qed.

Lemma scenario_find_alpha : find_project_by_id 1 disk = (Ok alpha, disk).
Proof. by_evaluation. Qed.

Lemma scenario_sidecar_alpha : sidecar disk alpha = Some alpha_config.
Proof. by_evaluation. Qed.

(** Renaming [alpha] to [gamma], which is a directory, is refused. *)
Lemma rename_conflicts_or_moves_witness :
  ∃ fs2,
    _projects_update {[ "projectId" := "1"; "name" := "/gamma" ]} disk
      = (Raise (RuntimeError (conflict_message "/gamma")), fs2) ∧
    is_dir fs2 alpha = true.
Proof.
  destruct (rename_conflicts_or_moves
              {[ "projectId" := "1"; "name" := "/gamma" ]} disk "1" 1 alpha
              alpha_config "/gamma")
    as (_ & fs2 & data2 & _ & _ & Hconflict & _).
  { by_evaluation. }
  { by_evaluation. }
  { exact scenario_find_alpha. }
  { exact scenario_sidecar_alpha. }
  { by_evaluation. }
  { intros e He. vm_compute in He. discriminate He. }
  { unfold plain. apply (bool_decide_eq_true_1 _). by_evaluation. }
  destruct Hconflict as [Hrun Hdir]; [by_evaluation |].
  exists fs2. split; [exact Hrun |]. rewrite Hdir. by_evaluation.
Defined.

(** The claim of the spec fails on two requests.  With the name of a
    regular file the target path exists, and the call does not fail with
    the conflict error: the move is attempted and raises.  With a name
    inside the project directory the target path does not exist, and the
    directory is not moved: the move raises and the file system is as
    before. *)
Lemma rename_claim_counterexample :
  exists_ disk (truediv root (lstrip "/" "notes.txt")) = true ∧
  (_projects_update {[ "projectId" := "1"; "name" := "notes.txt" ]} disk).1
    = Raise (OSError "File exists") ∧
  (_projects_update {[ "projectId" := "1"; "name" := "notes.txt" ]} disk).1
    ≠ Raise (RuntimeError (conflict_message "notes.txt")) ∧
  exists_ disk (truediv root (lstrip "/" "alpha/v2")) = false ∧
  _projects_update {[ "projectId" := "1"; "name" := "alpha/v2" ]} disk
    = (Raise (ShutilError "Cannot move a directory into itself"), disk).
Proof.
  split_and!; try by_evaluation.
  intros Heq. vm_compute in Heq. discriminate Heq.
Qed.

(** Renaming [alpha] to the free name [delta] moves the sidecar file and
    the sources. *)
Example scenario_rename :
  let fs' := (_projects_update {[ "projectId" := "1"; "name" := "/delta" ]} disk).2 in
  fs' !! (root ++ ["delta"; "main.py"]) = disk !! (alpha ++ ["main.py"]) ∧
  fs' !! (root ++ ["delta"; "config.json"]) = disk !! (alpha ++ ["config.json"]) ∧
  fs' !! (alpha ++ ["main.py"]) = None ∧
  fs' !! alpha = None ∧
  fs' !! gamma = disk !! gamma.
Proof. intros fs'. split_and!; by_evaluation. Qed.

(** A request with a description and the empty-parameters signal. *)
Lemma update_steps_in_order_witness :
  ∃ fs1 fs2,
    rewrites_sidecar disk fs1 alpha (<["description" := VStr "second"]> alpha_config) ∧
    rewrites_sidecar fs1 fs2 alpha
      (<["parameters" := VDict ∅]> (<["description" := VStr "second"]> alpha_config)) ∧
    _projects_update
      {[ "projectId" := "1"; "description" := "second"; "parameters" := "" ]} disk
      = (Ok tt, fs2).
Proof.
  destruct (update_steps_in_order
              {[ "projectId" := "1"; "description" := "second"; "parameters" := "" ]}
              disk "1" 1 alpha alpha_config)
    as (fs1 & fs2 & Hdesc & _ & _ & Hpar & _ & Hname).
  { by_evaluation. }
  { by_evaluation. }
  { exact scenario_find_alpha. }
  { exact scenario_sidecar_alpha. }
  exists fs1, fs2.
  assert (requested_parameters
            {[ "projectId" := "1"; "description" := "second"; "parameters" := "" ]}
          = SetParameters (Ok ∅)) as Hreq by by_evaluation.
  rewrite Hreq in Hpar. destruct Hpar as [Hrw Hrun].
  assert (described
            {[ "projectId" := "1"; "description" := "second"; "parameters" := "" ]}
            alpha_config
          = <["description" := VStr "second"]> alpha_config) as Hd by by_evaluation.
  rewrite Hd in Hdesc, Hrw.
  assert (({[ "projectId" := "1"; "description" := "second"; "parameters" := "" ]}
             : Input) !! "name" = None) as Hn by by_evaluation.
  rewrite Hn in Hname.
  split; [exact Hdesc |]. split; [exact Hrw |]. rewrite Hrun. exact Hname.
Defined.

(** The example of the spec: the pairs [a: 1] and [b: 2]. *)
Lemma parameters_round_trip_witness :
  ∃ fs2 project fs3,
    _projects_update
      {[ "projectId" := "1";
         "parameters[0][key]" := "a"; "parameters[0][value]" := "1";
         "parameters[1][key]" := "b"; "parameters[1][value]" := "2" ]} disk
      = (Ok tt, fs2) ∧
    _projects_read {[ "projectId" := "1" ]} fs2 = (Ok [project], fs3) ∧
    parameters_dict project = {[ "a" := "1"; "b" := "2" ]}.
Proof.
  destruct (parameters_round_trip
              {[ "projectId" := "1";
                 "parameters[0][key]" := "a"; "parameters[0][value]" := "1";
                 "parameters[1][key]" := "b"; "parameters[1][value]" := "2" ]}
              {[ "projectId" := "1" ]} disk "1" 1 alpha)
    as [_ Hpairs].
  { exact scenario_lists_existing_files. }
  { by vm_compute. }
  { by_evaluation. }
  { by_evaluation. }
  { exact scenario_find_alpha. }
  { exact scenario_valid_alpha. }
  { by vm_compute. }
  destruct (Hpairs [("a", "1"); ("b", "2")])
    as (fs2 & project & fs3 & Hup & Hread & Hdict & _).
  { split_and!; [by_evaluation | discriminate | | by_evaluation].
    intros [| [| i]] k v Hi; simpl in Hi; simplify_eq; split; by_evaluation. }
  exists fs2, project, fs3. split; [exact Hup |]. split; [exact Hread |].
  rewrite Hdict. by_evaluation.
Defined.

(** Clearing the parameters of [alpha] and reading it back, evaluated. *)
Example scenario_clear_parameters :
  (λ projects : list QCProject, parameters <$> projects) <$>
    (_projects_read {[ "projectId" := "1" ]}
       (_projects_update {[ "projectId" := "1"; "parameters" := "" ]} disk).2).1
    = Ok [[]].
Proof. by_evaluation. Qed.

(** The record of [alpha]: two tracked files. *)
Lemma timestamps_from_tracked_files_witness :
  ∃ project fs1, _create_project alpha disk = (Ok project, fs1).
Proof.
  destruct (timestamps_from_tracked_files disk alpha
              scenario_lists_existing_files scenario_valid_alpha)
    as (project & fs1 & stats & mtime & ctime & Hrun & _).
  exists project, fs1. exact Hrun.
Defined.

(** The timestamps of the scenario, evaluated: for [alpha] the greater
    of the modification times 20 and 30 and the lesser of the creation
    times 7 and 5; for [gamma], which has no tracked file, those of the
    directory. *)
Example scenario_timestamps :
  (λ project, (modified project, created project)) <$> (_create_project alpha disk).1
    = Ok (30%Z, 5%Z) ∧
  (λ project, (modified project, created project)) <$> (_create_project gamma disk).1
    = Ok (40%Z, 3%Z).
Proof. split; by_evaluation. Qed.

(** The project [beta] stores the language [Ruby]: no record. *)
Lemma language_must_name_a_member_witness :
  ∃ e fs1, _create_project beta disk_with_beta = (Raise e, fs1).
Proof.
  destruct (language_must_name_a_member disk_with_beta beta
              {[ "language" := VStr "Ruby" ]} "Ruby")
    as (_ & Hraise & _).
  { by_evaluation. }
  { by_evaluation. }
  apply Hraise. simpl. intros Hin.
  repeat (apply elem_of_cons in Hin as [Hin | Hin]; [discriminate Hin |]).
  by apply elem_of_nil in Hin.
Defined.

(** The error of the lookup, and the two names that the enum has,
    evaluated. *)
Example scenario_languages :
  (_create_project beta disk_with_beta).1 = Raise StopIteration ∧
  next_language (VStr "Python") = Ok Python ∧
  next_language (VStr "CSharp") = Ok CSharp ∧
  next_language (VStr "python") = Raise StopIteration ∧
  next_language (VStr "Py") = Raise StopIteration.
Proof. split_and!; by_evaluation. Qed.

(** Reading all projects of the scenario: one record for [gamma] and one
    for [alpha]. *)
Lemma read_lists_every_project_once_witness :
  ∃ projects fs1,
    _projects_read ∅ disk = (Ok projects, fs1) ∧
    name <$> projects = ["gamma"; "alpha"].
Proof.
  destruct (read_lists_every_project_once ∅ disk)
    as (projects & fs1 & Hrun & _ & _ & Hnames & _).
  { exact scenario_lists_existing_files. }
  { by_evaluation. }
  { intros d Hd. rewrite scenario_project_directories in Hd.
    apply elem_of_cons in Hd as [-> | Hd]; [exact scenario_valid_gamma |].
    apply elem_of_cons in Hd as [-> | Hd]; [exact scenario_valid_alpha |].
    by apply elem_of_nil in Hd. }
  exists projects, fs1. split; [exact Hrun |].
  rewrite scenario_project_directories in Hnames.
  apply Forall2_cons_inv_l in Hnames as (p1 & ps & Hn1 & Hnames & ->).
  apply Forall2_cons_inv_l in Hnames as (p2 & ps' & Hn2 & Hnames & ->).
  apply Forall2_nil_inv_l in Hnames as ->.
  simpl. rewrite Hn1, Hn2. by_evaluation.
Defined.

(** The claim of the spec fails on a working root with the project
    [beta]: the request has no project id, the root has three directories
    with a sidecar file, and the read returns an error, not a list. *)
Lemma read_all_claim_counterexample :
  (∅ : Input) !! "projectId" = None ∧
  project_directories disk_with_beta = [beta; gamma; alpha] ∧
  (_projects_read ∅ disk_with_beta).1 = Raise StopIteration.
Proof. split_and!; by_evaluation. Qed.

(** The ids of two reads in a row, evaluated: [gamma] gets its id in the
    first read and keeps it in the second. *)
Example scenario_stable_ids :
  (λ projects : list QCProject, projectId <$> projects) <$> (_projects_read ∅ disk).1
    = Ok [100000009%Z; 1%Z] ∧
  (λ projects : list QCProject, projectId <$> projects) <$>
    (_projects_read ∅ (_projects_read ∅ disk).2).1
    = Ok [100000009%Z; 1%Z] ∧
  (_projects_read ∅ ∅).1 = Ok [].
Proof. split_and!; by_evaluation. Qed.

(** A create request with the language [Python] scaffolds a C# project. *)
Lemma create_language_only_Py_witness :
  sidecar (_projects_create {[ "name" := "/delta"; "language" := "Python" ]} disk).2
    (root ++ ["delta"])
  = Some {[ "language" := VStr "CSharp"; "local-id" := VInt 100000011 ]}.
Proof.
  destruct (create_language_only_Py
              {[ "name" := "/delta"; "language" := "Python" ]} "/delta" "Python" disk)
    as (Hrun & _ & _ & _).
  { by_evaluation. }
  { by_evaluation. }
  rewrite Hrun. by_evaluation.
Defined.

(** The two languages of [_projects_create], evaluated. *)
Example scenario_create :
  sidecar (_projects_create {[ "name" := "delta"; "language" := "Py" ]} disk).2
    (root ++ ["delta"])
  = Some {[ "language" := VStr "Python"; "local-id" := VInt 100000011 ]} ∧
  sidecar (_projects_create {[ "name" := "delta"; "language" := "C#" ]} disk).2
    (root ++ ["delta"])
  = Some {[ "language" := VStr "CSharp"; "local-id" := VInt 100000011 ]}.
Proof. split; by_evaluation. Qed.

End project_scenario.

(** * Further properties *)

(** ** The route dispatcher and the account handler *)

Section dispatcher_more.
Import Flask ApiServer.
Context {matching : UrlMatching}.

(** X1: every response of the dispatcher, of a handler that returned as
    of one that raised, carries the three CORS headers with the value
    [*]. *)
Theorem every_response_allows_any_origin (app : list url_rule) (request : Request)
    (log : Log) :
  ∃ response,
    (full_dispatch_request app request log).1 = Ok response ∧
    headers response !! "Access-Control-Allow-Origin" = Some "*" ∧
    headers response !! "Access-Control-Allow-Headers" = Some "*" ∧
    headers response !! "Access-Control-Allow-Methods" = Some "*".
Proof.
  destruct (full_dispatch_request_eq app request log) as (rv & log' & Heq & _).
  eexists. rewrite Heq. split; [reflexivity |].
  split_and!; apply _after_request_headers; set_solver.
Qed.

(** X2: what one request adds to the debug log.  A request whose body
    decodes adds one line, the method and the URL, followed by the body only
    when the body is not empty, and one entry more, the traceback, only if
    the routing or the handler raises something other than a routing
    redirect; a handler that returns, Flask's own answer to an OPTIONS
    request, and a redirect add nothing: responses are not logged.  A
    request whose body does not decode adds the traceback of that failure
    and no request line.  What was in the log stays. *)
Theorem request_logged_once_failure_once (app : list url_rule) (request : Request)
    (log : Log) :
  (full_dispatch_request app request log).2 =
    log
    ++ match data_decode request with
       | NotUtf8 msg => [Traceback (UnicodeDecodeError msg)]
       | Text body =>
           [Message ("<-- " +:+ method request +:+ " " +:+ url request +:+
                     (if decide (body = "") then ""
                      else " with body:" +:+ String "010" body))]
           ++ match dispatch_request app request with
              | Ok _ | Raise (RequestRedirect _ _) => []
              | Raise e => [Traceback e]
              end
       end.
Proof.
  destruct (full_dispatch_request_eq app request log) as (rv & log' & Heq & Hrv).
  rewrite Heq. simpl. unfold request_line in Hrv.
  destruct (data_decode request) as [body | msg].
  - destruct (dispatch_request app request) as [rv0 | e].
    + destruct Hrv as [_ ->]. by rewrite ?app_nil_r.
    + rewrite handle_user_exception_eq in Hrv.
      destruct e; injection Hrv as _ ->; by rewrite ?app_nil_r, <- ?app_assoc.
  - rewrite handle_user_exception_eq in Hrv. by injection Hrv as _ ->.
Qed.

Lemma cors_headers_twice (h : gmap string string) :
  let cors h :=
    <["Access-Control-Allow-Methods" := "*"]>
      (<["Access-Control-Allow-Headers" := "*"]>
         (<["Access-Control-Allow-Origin" := "*"]> h)) in
  cors (cors h) = cors h.
Proof.
  intros cors. apply map_eq. intros k. unfold cors.
  destruct (decide (k = "Access-Control-Allow-Methods")) as [-> | H1];
    [by rewrite !lookup_insert_eq |].
  rewrite !(lookup_insert_ne _ "Access-Control-Allow-Methods") by done.
  destruct (decide (k = "Access-Control-Allow-Headers")) as [-> | H2];
    [by rewrite !lookup_insert_eq |].
  rewrite !(lookup_insert_ne _ "Access-Control-Allow-Headers") by done.
  destruct (decide (k = "Access-Control-Allow-Origin")) as [-> | H3];
    [by rewrite !lookup_insert_eq |].
  rewrite !(lookup_insert_ne _ "Access-Control-Allow-Origin") by done.
  by rewrite !lookup_insert_ne by done.
Qed.

(** X3: the after-request hook is idempotent, and it leaves the payload
    of a response that is not JSON as it is: such a response gets the
    headers and no [success] field. *)
Theorem _after_request_idempotent (response : Response) :
  _after_request (_after_request response) = _after_request response ∧
  ∀ s, payload response = Raw s → payload (_after_request response) = Raw s.
Proof.
  split.
  - unfold _after_request. simpl.
    destruct response as [h [d | s]]; simpl.
    + destruct (decide ("success" ∈ dom d)) as [Hin | Hout]; simpl.
      * rewrite decide_True by done. f_equal. apply cors_headers_twice.
      * rewrite decide_True by (rewrite dom_insert_L; set_solver).
        f_equal. apply cors_headers_twice.
    + f_equal. apply cors_headers_twice.
  - intros s Hs. unfold _after_request. simpl. by rewrite Hs.
Qed.

(** X4: a POST request that is routed to the account rule, with a body
    that decodes and a JSON object whose organization id is a string, is
    answered with the credit balance 1000, that organization id, or the
    placeholder id when the object has none or has [null], and
    [success: true]; the handler does not raise. *)
Theorem account_read_answer (request : Request) (text : string) (body : dict)
    (log : Log) (organization_id : string) :
  url_match _app request
    = Ok {| rule_path := "/account/read"; rule_view := AccountServer._read;
            rule_methods := ["POST"] |} →
  method request = "POST" →
  data_decode request = Text text →
  request_json request = JsonObject body →
  match body !! "organizationId" with
  | None | Some JNull => organization_id = "fake-organization-id"
  | Some (JStr s) => organization_id = s
  | Some _ => False
  end →
  AccountServer._read request
    = Ok {[ "organizationId" := JStr organization_id; "creditBalance" := JNum 1000 ]} ∧
  ∃ response,
    (full_dispatch_request _app request log).1 = Ok response ∧
    payload response =
      Json {[ "organizationId" := JStr organization_id; "creditBalance" := JNum 1000;
              "success" := JBool true ]}.
Proof.
  intros Hrule Hmethod Hdata Hjson Hid.
  assert (AccountServer._read request
          = Ok {[ "organizationId" := JStr organization_id;
                  "creditBalance" := JNum 1000 ]}) as Hread.
  { unfold AccountServer._read. rewrite Hjson.
    destruct (body !! "organizationId") as [[] |]; try done; by subst. }
  split; [done |].
  destruct (full_dispatch_request_eq _app request log) as (rv & log' & Heq & Hrv).
  rewrite Hdata, (account_dispatch _ request Hrule Hmethod), Hread in Hrv.
  simpl in Hrv. destruct Hrv as [-> _].
  eexists. rewrite Heq. split; [reflexivity |].
  rewrite (_after_request_payload _
             {[ "organizationId" := JStr organization_id;
                "creditBalance" := JNum 1000 ]}) by done.
  rewrite decide_False.
  2:{ rewrite dom_insert_L, dom_singleton_L.
      intros [Hx | Hx]%elem_of_union; apply elem_of_singleton in Hx; discriminate Hx. }
  f_equal.
Qed.

End dispatcher_more.

(** A request of the organization [org-1]. *)
Lemma account_read_answer_witness :
  AccountServer._read
    (RouteScenario.account_request
       (Flask.JsonObject {[ "organizationId" := JStr "org-1" ]}))
  = Ok {[ "organizationId" := JStr "org-1"; "creditBalance" := JNum 1000 ]}.
Proof.
  destruct (@account_read_answer RouteScenario.matching
              (RouteScenario.account_request
                 (Flask.JsonObject {[ "organizationId" := JStr "org-1" ]}))
              "" {[ "organizationId" := JStr "org-1" ]} [] "org-1")
    as [Hread _].
  { by_evaluation. }
  { reflexivity. }
  { reflexivity. }
  { reflexivity. }
  { by vm_compute. }
  exact Hread.
Defined.

(** The account handler on bodies that are not as expected, evaluated:
    a number as organization id is answered as its text, a list is refused,
    and a JSON body that is no object has no [get]. *)
Example account_read_validation :
  AccountServer._read
    (RouteScenario.account_request (Flask.JsonObject {[ "organizationId" := JNum 5 ]}))
  = Ok {[ "organizationId" := JStr "5"; "creditBalance" := JNum 1000 ]} ∧
  is_ok (AccountServer._read
           (RouteScenario.account_request
              (Flask.JsonObject {[ "organizationId" := JArr [] ]}))) = false ∧
  AccountServer._read (RouteScenario.account_request (Flask.JsonValue JNull))
  = Raise (AttributeError "'NoneType' object has no attribute 'get'").
Proof. split_and!; by_evaluation. Qed.

(** ** The data downloader *)

Section data_downloader_more.
Import Fs DataDownloader.
Context {os : Os} {collaborators : Collaborators}.

(** What one call of [_download_file] adds to the events: no progress
    line. *)
Lemma _download_file_events (relative_file : string) (overwrite_flag : bool)
    (data_directory : path) (organization_id : string) (s s' : State)
    (r : Result unit) :
  _download_file relative_file overwrite_flag data_directory organization_id s
    = (r, s') →
  ∃ evs, events s' = events s ++ evs ∧ List.filter is_info evs = [].
Proof.
  unfold _download_file, fetch_and_write, _should_overwrite, log,
    set_force_overwrite, on_fs. unfold_monad.
  destruct s as [disk force evs0]. simpl. intros Hrun.
  repeat (case_match; simpl in *; simplify_eq);
    simpl; rewrite <- ?app_assoc; eexists; (split; [reflexivity | reflexivity]).
Qed.

Lemma download_loop_events (files : list string) (total index : nat)
    (overwrite_flag : bool) (data_dir : path) (organization_id : string)
    (s s' : State) (r : Result unit) :
  download_loop total index files overwrite_flag data_dir organization_id s = (r, s') →
  ∃ evs,
    events s' = events s ++ evs ∧
    List.filter is_info evs `prefix_of` progress_lines total index files ∧
    (r = Ok tt → List.filter is_info evs = progress_lines total index files).
Proof.
  revert index s. induction files as [| file files IH]; intros index s Hrun.
  { simpl in Hrun. unfold_monad. simplify_eq. exists []. by rewrite app_nil_r. }
  simpl in Hrun. unfold log in Hrun. unfold_monad. simpl in Hrun.
  destruct (_download_file file overwrite_flag data_dir organization_id _)
    as [r1 s1] eqn:Hone.
  apply _download_file_events in Hone as (evs1 & Hev1 & Hno1). simpl in Hev1.
  destruct r1 as [[] | e].
  - apply IH in Hrun as (evs2 & Hev2 & Hpre & Hall).
    eexists. split; [by rewrite Hev2, Hev1, <- !app_assoc |].
    simpl. rewrite !List.filter_app, Hno1. simpl.
    split; [by apply prefix_cons | intros Hr; by rewrite Hall].
  - simplify_eq. eexists. split; [by rewrite Hev1, <- !app_assoc |].
    simpl. rewrite ?List.filter_app, Hno1. simpl.
    split; [apply prefix_cons, prefix_nil | done].
Qed.

(** X5: a run of [download_files] only adds to the events; of progress
    lines it adds one for each file it starts, numbered from 1 and in the
    order of the list, and when the run completes, one for every file. *)
Theorem progress_line_per_file (files : list string) (overwrite_flag : bool)
    (organization_id : string) (s : State) :
  let run := download_files files overwrite_flag organization_id s in
  ∃ evs,
    events run.2 = events s ++ evs ∧
    List.filter is_info evs `prefix_of` progress_lines (length files) 0 files ∧
    (run.1 = Ok tt →
     List.filter is_info evs = progress_lines (length files) 0 files).
Proof.
  intros run. unfold download_files in run.
  destruct run as [r s'] eqn:Hrun. subst run. simpl.
  by apply download_loop_events in Hrun.
Qed.

(** X6: with the overwrite flag set nobody is asked and the remembered
    answer is not touched, whatever is on the disk; every file that the
    run reaches is requested from the remote, so a run that completes has
    made one request for each file of the list. *)
Theorem overwrite_flag_never_prompts (files : list string) (organization_id : string)
    (s : State) :
  let run := download_files files true organization_id s in
  prompts (events run.2) = prompts (events s) ∧
  _force_overwrite run.2 = _force_overwrite s ∧
  (downloads (events run.2) ≤ downloads (events s) + length files)%nat ∧
  (run.1 = Ok tt →
   downloads (events run.2) = (downloads (events s) + length files)%nat).
Proof.
  intros run. unfold download_files in run.
  assert (∀ total index s r s',
    download_loop total index files true get_data_directory organization_id s = (r, s') →
    prompts (events s') = prompts (events s) ∧
    _force_overwrite s' = _force_overwrite s ∧
    (downloads (events s') ≤ downloads (events s) + length files)%nat ∧
    (r = Ok tt → downloads (events s') = (downloads (events s) + length files)%nat))
    as Hgen.
  { clear run s. induction files as [| file files IH]; intros total index s r s' Hrun.
    { simpl in Hrun. unfold_monad. simplify_eq. simpl.
      split_and!; [done | done | lia | lia]. }
    destruct (download_loop_cons total index file files true get_data_directory
                organization_id s) as (s0 & Hfs0 & Hf0 & Hp0 & Hd0 & Heq).
    rewrite Hrun in Heq.
    destruct (_download_file file true get_data_directory organization_id s0)
      as [r1 s1] eqn:Hone.
    apply _download_file_inv in Hone as (Hf1 & Hp1 & Hd1 & _).
    assert (asks_user true s0 (truediv get_data_directory file) = false) as Ha.
    { unfold asks_user. simpl. by rewrite andb_false_r. }
    assert (goes_to_remote true s0 (truediv get_data_directory file) = true) as Hg.
    { unfold goes_to_remote. simpl. by rewrite orb_true_r. }
    rewrite Ha in Hf1, Hp1. rewrite Hg in Hd1.
    destruct r1 as [[] | e].
    - symmetry in Heq. apply IH in Heq as (Hp & Hf & Hle & Hd).
      simpl. split_and!; [lia | congruence | lia |]. intros Hr. specialize (Hd Hr). lia.
    - simplify_eq. simpl. split_and!; [lia | congruence | lia | done]. }
  destruct run as [r s'] eqn:Hrun. subst run. simpl. by eapply Hgen.
Qed.

(** X7: a run of [download_files] deletes nothing: whatever exists on the
    local disk before the run exists after it, and what is a directory
    stays a directory, also when the run ends in an error. *)
Theorem download_never_deletes (files : list string) (overwrite_flag : bool)
    (organization_id : string) (s : State) (p : path) :
  let run := download_files files overwrite_flag organization_id s in
  (is_Some (fs s !! p) → is_Some (fs run.2 !! p)) ∧
  (is_dir (fs s) p = true → is_dir (fs run.2) p = true).
Proof.
  intros run. unfold download_files in run.
  assert (∀ total index s r s',
    download_loop total index files overwrite_flag get_data_directory
      organization_id s = (r, s') →
    (is_Some (fs s !! p) → is_Some (fs s' !! p)) ∧
    (is_dir (fs s) p = true → is_dir (fs s') p = true)) as Hgen.
  { clear run s. induction files as [| file files IH]; intros total index s r s' Hrun.
    { simpl in Hrun. unfold_monad. by simplify_eq. }
    destruct (download_loop_cons total index file files overwrite_flag
                get_data_directory organization_id s) as (s0 & Hfs0 & _ & _ & _ & Heq).
    rewrite Hrun in Heq.
    destruct (_download_file_decision file overwrite_flag get_data_directory
                organization_id s0) as (s1 & Hone & Hfs1 & _).
    assert (∃ r2 s2,
      _download_file file overwrite_flag get_data_directory organization_id s0
        = (r2, s2) ∧
      (is_Some (fs s !! p) → is_Some (fs s2 !! p)) ∧
      (is_dir (fs s) p = true → is_dir (fs s2) p = true)) as (r2 & s2 & Hrun2 & Hk2).
    { rewrite Hone. destruct (goes_to_remote _ _ _).
      - destruct (fetch_and_write file _ organization_id s1) as [r2 s2] eqn:Hfw.
        exists r2, s2. split; [done |].
        apply (fetch_and_write_keeps _ _ _ _ _ _ p) in Hfw.
        by rewrite Hfs1, Hfs0 in Hfw.
      - exists (Ok tt), s1. split; [done |]. by rewrite Hfs1, Hfs0. }
    rewrite Hrun2 in Heq. destruct r2 as [[] | e].
    - symmetry in Heq. apply IH in Heq. destruct Hk2, Heq. split; auto.
    - by simplify_eq. }
  destruct run as [r s'] eqn:Hrun. subst run. simpl. by eapply Hgen.
Qed.

(** X8: when [_download_file] goes to the remote for a path that exists
    locally and the remote returns content, a regular file is overwritten
    with that content; if the local path is a directory the write raises
    and the directory stays. *)
Theorem overwrite_replaces_content (file : string) (overwrite_flag : bool)
    (organization_id : string) (s : State) (node : node) (content : string) :
  let local_path := truediv get_data_directory file in
  fs s !! local_path = Some node →
  goes_to_remote overwrite_flag s local_path = true →
  download_file file organization_id = Ok content →
  is_ok (makedirs (parent local_path) (fs s)) = true →
  ∃ r s',
    _download_file file overwrite_flag get_data_directory organization_id s = (r, s') ∧
    match node with
    | File st _ =>
        r = Ok tt ∧
        fs s' !! local_path = Some (File (stat_on_write (Some st)) (Bytes content))
    | Dir st =>
        r = Raise (OSError "Is a directory") ∧ fs s' !! local_path = Some (Dir st)
    end.
Proof.
  intros local_path Hnode Hgo Hd Hmk.
  destruct (_download_file_decision file overwrite_flag get_data_directory
              organization_id s) as (s1 & Hone & Hfs1 & _).
  fold local_path in Hone. rewrite Hgo in Hone. rewrite Hone.
  destruct (makedirs (parent local_path) (fs s)) as [disk1 |] eqn:Hm; [| done].
  pose proof (makedirs_parent_lookup _ _ _ Hm) as Hlp. rewrite Hnode in Hlp.
  unfold fetch_and_write, log, on_fs. unfold_monad. simpl.
  rewrite Hd, Hfs1. simpl. rewrite Hm. simpl. unfold write_file. rewrite Hlp.
  destruct node as [st | st old]; simpl.
  - eexists _, _. split; [reflexivity |]. simpl. done.
  - eexists _, _. split; [reflexivity |]. simpl. by rewrite lookup_insert_eq.
Qed.



End data_downloader_more.

(** ** The project handler *)

Section project_server_more.
Import Fs ProjectServer.
Context {os : Os} {collaborators : Collaborators}.

Local Abbreviation config_file d := (d ++ [PROJECT_CONFIG_FILE_NAME]).

(** The fields of a record that do not depend on the project. *)
Lemma _create_project_constants (fs fs1 : FS) (d : path) (project : QCProject) :
  _create_project d fs = (Ok project, fs1) →
  organizationId project = FAKE_ORGANIZATION_id ∧
  ProjectServer.collaborators project =
    [ {| id := 0; uid := FAKE_ORGANIZATION_member_id; blivecontrol := true;
         epermission := "write";
         profileimage := "https://cdn.quantconnect.com/i/tu/qc-logo.svg";
         collaborator_name := FAKE_ORGANIZATION_member_name; owner := true |} ] ∧
  leanVersionId project = (-1)%Z ∧
  leanPinnedToMaster project = true ∧
  liveResults project = {| eStatus := "Undefined" |} ∧
  libraries project = [].
Proof.
  intros Hrun. unfold _create_project in Hrun. unfold_monad.
  repeat case_match; simplify_eq; simpl; done.
Qed.

Lemma Forall2_stat_functional (fs : FS) (l : list path) (stats stats' : list stat_result) :
  Forall2 (λ p st, stat fs p = Ok st) l stats →
  Forall2 (λ p st, stat fs p = Ok st) l stats' →
  stats' = stats.
Proof.
  intros H1. revert stats'. induction H1 as [| p st l stats Hp _ IH]; intros stats' H2.
  - by apply Forall2_nil_inv_l in H2.
  - apply Forall2_cons_inv_l in H2 as (st' & stats0 & Hp' & H2 & ->).
    f_equal; [congruence | by apply IH].
Qed.

(** X10: deriving the metadata of a valid project a second time returns
    the same record and changes nothing: the one write of the derivation,
    the local id of a directory that had none, happens the first time
    only. *)
Theorem metadata_derivation_idempotent (fs : FS) (d : path) :
  lists_existing_files → valid_project fs d →
  ∃ project fs1,
    _create_project d fs = (Ok project, fs1) ∧
    _create_project d fs1 = (Ok project, fs1).
Proof.
  intros Hsync Hvalid.
  destruct (_create_project_valid fs d Hsync Hvalid)
    as (project & fs1 & data & stats & mtime & ctime & Hs & Hrun & Hrw & _ & _ & Hname
        & Hlang & Hpar & Hdesc & Hall & _ & Hmax & Hmod & Hmin & Hcre).
  assert (valid_project fs1 d) as Hvalid1.
  { destruct Hvalid as (? & ? & data0 & Hs0 & Hread). simplify_eq.
    eapply valid_project_rewrites; [by split_and!; eauto | done |].
    by apply readable_config_local_id. }
  destruct (_create_project_valid fs1 d Hsync Hvalid1)
    as (project' & fs2 & data' & stats' & mtime' & ctime' & Hs' & Hrun' & _ & Hst' & _
        & Hname' & Hlang' & Hpar' & Hdesc' & Hall' & _ & Hmax' & Hmod' & Hmin' & Hcre').
  destruct Hrw as (Hs1 & _). rewrite Hs1 in Hs'. simplify_eq.
  destruct (Hst' (projectId project)) as [Hid ->]; [by rewrite lookup_insert_eq |].
  rewrite !lookup_insert_ne in * by done.
  pose proof (Forall2_stat_functional _ _ _ _ Hall Hall') as ->.
  rewrite Hmax in Hmax'. rewrite Hmin in Hmin'. rewrite Hlang in Hlang'.
  exists project, fs1. split; [done |]. rewrite Hrun'. f_equal. f_equal.
  destruct (_create_project_constants _ _ _ _ Hrun) as (? & ? & ? & ? & ? & ?).
  destruct (_create_project_constants _ _ _ _ Hrun') as (? & ? & ? & ? & ? & ?).
  destruct project, project'. simpl in *. simplify_eq. by f_equal.
Qed.

(** X11: the defaults of the derivation: a valid project whose sidecar
    stores no language, no description and no parameters has the member
    named [Python] for its language, the empty description and no
    parameters. *)
Theorem metadata_defaults (fs : FS) (d : path) (data : gmap string value) :
  lists_existing_files → valid_project fs d →
  sidecar fs d = Some data →
  data !! "language" = None →
  data !! "description" = None →
  data !! "parameters" = None →
  ∃ project fs1,
    _create_project d fs = (Ok project, fs1) ∧
    ("Python", language project) ∈ QCLanguage_members ∧
    description project = "" ∧
    ProjectServer.parameters project = [].
Proof.
  intros Hsync Hvalid Hs Hl Hd Hp.
  destruct (_create_project_valid fs d Hsync Hvalid)
    as (project & fs1 & data' & ? & ? & ? & Hs' & Hrun & _ & _ & _ & _
        & Hlang & Hpar & Hdesc & _).
  simplify_eq. rewrite Hl in Hlang. rewrite Hp in Hpar. rewrite Hd in Hdesc.
  exists project, fs1. split_and!; [done | by apply next_language_Ok | done | done].
Qed.

(** X12: a read with a project id that resolves to a valid project
    returns exactly one record, the one of that project: its id is the id
    asked for and its name the directory relative to the working root;
    the read changes nothing. *)
Theorem read_by_id_returns_that_project (input : Input) (fs : FS)
    (project_id : string) (local_id : Z) (d : path) :
  lists_existing_files →
  input !! "projectId" = Some project_id →
  int project_id = Ok local_id →
  find_project_by_id local_id fs = (Ok d, fs) →
  valid_project fs d →
  ∃ project,
    _projects_read input fs = (Ok [project], fs) ∧
    projectId project = local_id ∧
    name project = as_posix_relative (drop (length get_cli_root_directory) d).
Proof.
  intros Hsync Hid Hint Hfind Hvalid.
  destruct (_create_project_valid fs d Hsync Hvalid)
    as (project & fs1 & data & ? & ? & ? & Hs & Hrun & _ & Hst & _ & Hname & _).
  apply find_project_by_id_Ok in Hfind as Hfound. destruct Hfound as (_ & _ & Hstored).
  rewrite stored_local_id_sidecar, Hs in Hstored.
  destruct (data !! "local-id") as [[s0 | z | d0] |] eqn:Hl; simplify_eq.
  destruct (Hst _ eq_refl) as [Hz ->].
  exists project. split_and!; [| done | done].
  rewrite (_projects_read_one _ _ _ _ _ Hid Hint Hfind). by rewrite Hrun.
Qed.

Lemma list_comprehension_footprint (dirs : list path) (fs : FS) :
  lists_existing_files → Forall (valid_project fs) dirs →
  ∃ projects fs',
    list_comprehension _create_project dirs fs = (Ok projects, fs') ∧
    dom fs' = dom fs ∧
    (∀ q, (∀ d, d ∈ dirs → q ≠ config_file d) → fs' !! q = fs !! q) ∧
    ((∀ d, d ∈ dirs → is_Some (stored_local_id fs d)) → fs' = fs).
Proof.
  intros Hsync. revert fs. induction dirs as [| d dirs IH]; intros fs Hall.
  { exists [], fs. simpl. by split_and!. }
  apply Forall_cons in Hall as [Hd Hall].
  destruct (_create_project_valid fs d Hsync Hd)
    as (project & fs1 & data & ? & ? & ? & Hs & Hrun & Hrw & Hst & _).
  destruct (_create_project_step fs d Hsync Hd)
    as (project0 & fs10 & Hrun0 & _ & _ & _ & Hstay & Hvalid1).
  rewrite Hrun in Hrun0. simplify_eq.
  destruct (IH fs10) as (projects & fs' & Hrest & Hdom & Hother & Hsame).
  { eapply Forall_impl; [done | apply Hvalid1]. }
  destruct Hrw as (_ & Hdom1 & Hother1).
  exists (project0 :: projects), fs'. simpl.
  rewrite (bind_ok _ _ _ _ _ Hrun), (bind_ok _ _ _ _ _ Hrest).
  split_and!; [done | congruence | |].
  - intros q Hq. rewrite Hother, Hother1; [done | |].
    + apply Hq. by left.
    + intros d' Hd'. apply Hq. by right.
  - intros Hstored.
    assert (fs10 = fs) as ->.
    { destruct (Hstored d) as [z Hz]; [by left |].
      rewrite stored_local_id_sidecar, Hs in Hz.
      destruct (data !! "local-id") as [[s0 | z0 | d0] |] eqn:Hl; simplify_eq.
      by destruct (Hst _ eq_refl). }
    apply Hsame. intros d' Hd'. apply Hstored. by right.
Qed.

(** X13: a read of all projects, over valid project directories, creates
    and deletes no file and changes nothing but sidecar files of project
    directories; when every project directory has its local id stored
    already, the read changes nothing at all. *)
Theorem read_all_footprint (input : Input) (fs : FS) :
  lists_existing_files →
  input !! "projectId" = None →
  (∀ d, d ∈ project_directories fs → valid_project fs d) →
  ∃ projects fs1,
    _projects_read input fs = (Ok projects, fs1) ∧
    dom fs1 = dom fs ∧
    (∀ q, (∀ d, d ∈ project_directories fs → q ≠ d ++ [PROJECT_CONFIG_FILE_NAME]) →
          fs1 !! q = fs !! q) ∧
    ((∀ d, d ∈ project_directories fs → is_Some (stored_local_id fs d)) → fs1 = fs).
Proof.
  intros Hsync Hnone Hvalid.
  destruct (list_comprehension_footprint (project_directories fs) fs Hsync)
    as (projects & fs1 & Hrun & Hrest); [by apply Forall_forall |].
  exists projects, fs1. split; [| done].
  unfold _projects_read. by rewrite Hnone.
Qed.

(** ** Deleting a project *)

Lemma rmtree_lookup (d p : path) (fs fs' : FS) :
  rmtree d fs = Ok fs' →
  fs' !! p = if decide (d `prefix_of` p) then None else fs !! p.
Proof.
  unfold rmtree. destruct (fs !! d) as [[st | st c] |]; intros; simplify_eq.
  destruct (decide (d `prefix_of` p)) as [Hin | Hout].
  - apply map_lookup_filter_None_2. right. intros x _ Hx. by apply Hx.
  - destruct (fs !! p) as [x |] eqn:Hp.
    + by apply map_lookup_filter_Some_2.
    + apply map_lookup_filter_None_2. by left.
Qed.

(** X14: a delete request whose id resolves to a directory removes the
    directory and everything below it and nothing else; the directory is
    no project directory afterwards, and no project directory appears. *)
Theorem delete_removes_the_tree (input : Input) (fs : FS) (project_id : string)
    (local_id : Z) (d : path) :
  input !! "projectId" = Some project_id →
  int project_id = Ok local_id →
  find_project_by_id local_id fs = (Ok d, fs) →
  is_dir fs d = true →
  ∃ fs',
    _projects_delete input fs = (Ok tt, fs') ∧
    (∀ p, d `prefix_of` p → fs' !! p = None) ∧
    (∀ p, ¬ d `prefix_of` p → fs' !! p = fs !! p) ∧
    (d ∉ project_directories fs') ∧
    (∀ d', d' ∈ project_directories fs' → d' ∈ project_directories fs).
Proof.
  intros Hid Hint Hfind Hdir.
  assert (∃ fs', rmtree d fs = Ok fs') as [fs' Hrm].
  { unfold rmtree. unfold is_dir in Hdir. destruct (fs !! d) as [[st | st c] |]; eauto; done. }
  exists fs'. split_and!.
  - unfold _projects_delete, getitem. rewrite Hid. unfold_monad.
    rewrite Hint, Hfind. unfold fs_op. by rewrite Hrm.
  - intros p Hp. rewrite (rmtree_lookup _ _ _ _ Hrm). by rewrite decide_True.
  - intros p Hp. rewrite (rmtree_lookup _ _ _ _ Hrm). by rewrite decide_False.
  - intros Hin. apply elem_of_project_directories in Hin as [_ [x Hx]].
    rewrite (rmtree_lookup _ _ _ _ Hrm) in Hx.
    by rewrite decide_True in Hx by (by apply prefix_app_r).
  - intros d' Hin. apply elem_of_project_directories in Hin as [Hroot [x Hx]].
    apply elem_of_project_directories. split; [done |].
    rewrite (rmtree_lookup _ _ _ _ Hrm) in Hx. case_decide; [done | eauto].
Qed.

(** ** Requests that are not carried out *)

(** X15: a request that lacks a field its handler requires raises the
    [KeyError] of that field, an update, delete or read whose project id
    is not an integer raises the error of [int], and one whose id the
    resolver refuses, leaving the file system as it is, raises the error of
    the resolver; in each case the handler has changed nothing: no sidecar
    is written, nothing is moved or removed, and [_projects_create] has not
    run the scaffolding. *)
Theorem rejected_requests_change_nothing (input : Input) (fs : FS) :
  match input !! "projectId" with
  | None =>
      _projects_update input fs = (Raise (KeyError "projectId"), fs) ∧
      _projects_delete input fs = (Raise (KeyError "projectId"), fs)
  | Some project_id =>
      match int project_id with
      | Raise e =>
          _projects_update input fs = (Raise e, fs) ∧
          _projects_delete input fs = (Raise e, fs) ∧
          _projects_read input fs = (Raise e, fs)
      | Ok local_id =>
          ∀ e, find_project_by_id local_id fs = (Raise e, fs) →
               _projects_update input fs = (Raise e, fs) ∧
               _projects_delete input fs = (Raise e, fs) ∧
               _projects_read input fs = (Raise e, fs)
      end
  end ∧
  (input !! "name" = None →
     _projects_create input fs = (Raise (KeyError "name"), fs)) ∧
  (is_Some (input !! "name") → input !! "language" = None →
     _projects_create input fs = (Raise (KeyError "language"), fs)).
Proof.
  split_and!.
  - unfold _projects_update, _projects_delete, _projects_read, getitem.
    destruct (input !! "projectId") as [project_id |]; [| done]. unfold_monad.
    destruct (int project_id) as [local_id | e]; [| done].
    intros e He. by rewrite He.
  - intros Hn. unfold _projects_create, getitem. by rewrite Hn.
  - intros [name Hn] Hl. unfold _projects_create, getitem. by rewrite Hn, Hl.
Qed.

(** ** The edges of the parameter fields *)

Lemma parameters_loop_missing_value (input : Input) (pairs : list (string * string))
    (fuel index : nat) (parameters : gmap string string) :
  (∀ i k v, pairs !! i = Some (k, v) →
     input !! parameters_key (index + i) = Some k ∧
     input !! parameters_value (index + i) = Some v) →
  is_Some (input !! parameters_key (index + length pairs)) →
  input !! parameters_value (index + length pairs) = None →
  (length pairs < fuel)%nat →
  parameters_loop fuel input index parameters
    = Some (Raise (KeyError (parameters_value (index + length pairs)))).
Proof.
  revert fuel index parameters.
  induction pairs as [| [k v] pairs IH]; intros fuel index parameters Hall [k0 Hk] Hv Hfuel.
  - destruct fuel as [| fuel]; [simpl in Hfuel; lia |]. simpl in *.
    rewrite Nat.add_0_r in *. by rewrite Hk, Hv.
  - destruct fuel as [| fuel]; [simpl in Hfuel; lia |]. simpl in *.
    destruct (Hall 0%nat k v eq_refl) as [Hk' Hv']. rewrite Nat.add_0_r in Hk', Hv'.
    rewrite Hk', Hv'.
    replace (index + S (length pairs))%nat with (S index + length pairs)%nat in * by lia.
    apply IH; [| eauto | done | lia].
    intros i k' v' Hi. replace (S index + i)%nat with (index + S i)%nat by lia.
    by apply Hall.
Qed.

(** X16: an indexed pair list in which the pair at some index has a key
    and no value makes the update fail with the [KeyError] of the missing
    value field.  The sidecar file then holds what it held, but for the
    description of the request if it has one: the stored parameters are as
    they were, the pairs before that index being dropped with the rest;
    without a description the file system is as before.  The project is
    not renamed. *)
Theorem missing_value_keeps_parameters (input : Input) (fs : FS)
    (project_id : string) (local_id : Z) (d : path) (data : gmap string value)
    (pairs : list (string * string)) :
  input !! "projectId" = Some project_id →
  int project_id = Ok local_id →
  find_project_by_id local_id fs = (Ok d, fs) →
  sidecar fs d = Some data →
  input !! "parameters" = None →
  (∀ i k v, pairs !! i = Some (k, v) →
     input !! parameters_key i = Some k ∧ input !! parameters_value i = Some v) →
  is_Some (input !! parameters_key (length pairs)) →
  input !! parameters_value (length pairs) = None →
  ∃ fs1,
    _projects_update input fs
      = (Raise (KeyError (parameters_value (length pairs))), fs1) ∧
    sidecar fs1 d =
      Some (match input !! "description" with
            | Some description => <["description" := VStr description]> data
            | None => data
            end) ∧
    dom fs1 = dom fs ∧
    (∀ q, q ≠ d ++ [PROJECT_CONFIG_FILE_NAME] → fs1 !! q = fs !! q) ∧
    (input !! "description" = None → fs1 = fs).
Proof.
  intros Hid Hint Hfind Hs Hno Hall Hkey Hval.
  destruct (_projects_update_steps input fs project_id local_id d data Hid Hint Hfind Hs)
    as (fs1 & Hrw1 & Hsame & Hpar).
  assert (requested_parameters input
          = SetParameters (Raise (KeyError (parameters_value (length pairs))))) as Hreq.
  { unfold requested_parameters. rewrite (proj2 (contains_key_false _ _) Hno).
    assert (is_Some (input !! "parameters[0][key]")) as H0.
    { destruct pairs as [| [k v] pairs]; [exact Hkey |].
      destruct (Hall 0%nat k v eq_refl) as [Hk _]. exact (mk_is_Some _ _ Hk). }
    rewrite (proj2 (contains_key_true _ _) H0).
    assert (length pairs < size input)%nat as Hlen.
    { apply (present_keys_bound input (S (length pairs))). intros i Hi.
      destruct (decide (i = length pairs)) as [-> | Hne]; [done |].
      destruct (lookup_lt_is_Some_2 pairs i) as [[k v] Hkv]; [lia |].
      destruct (Hall i k v Hkv) as [-> _]. eauto. }
    by rewrite (parameters_loop_missing_value input pairs _ 0 ∅ Hall Hkey Hval) by lia. }
  rewrite Hreq in Hpar. exists fs1. destruct Hrw1 as (Hs1 & Hdom & Hother).
  by split_and!.
Qed.

(** X17: an update request with none of the fields [description],
    [parameters], [parameters[0][key]] and [name] succeeds and changes
    nothing, whatever else it carries: indexed parameters that do not
    start at index 0 are not looked at. *)
Theorem update_without_fields_is_noop (input : Input) (fs : FS)
    (project_id : string) (local_id : Z) (d : path) (data : gmap string value) :
  input !! "projectId" = Some project_id →
  int project_id = Ok local_id →
  find_project_by_id local_id fs = (Ok d, fs) →
  sidecar fs d = Some data →
  input !! "description" = None →
  input !! "parameters" = None →
  input !! "parameters[0][key]" = None →
  input !! "name" = None →
  _projects_update input fs = (Ok tt, fs).
Proof.
  intros Hid Hint Hfind Hs Hd Hp Hp0 Hn.
  destruct (_projects_update_steps input fs project_id local_id d data Hid Hint Hfind Hs)
    as (fs1 & _ & Hsame & Hpar).
  rewrite (Hsame Hd) in Hpar.
  assert (requested_parameters input = KeepParameters) as Hreq.
  { unfold requested_parameters.
    by rewrite (proj2 (contains_key_false _ _) Hp), (proj2 (contains_key_false _ _) Hp0). }
  rewrite Hreq in Hpar. rewrite Hpar.
  pose proof (update_name_run input d fs) as Hmv. by rewrite Hn in Hmv.
Qed.

(** ** A renamed project *)

(** A path is free when no listed name is at or below it. *)
Lemma free_by_listing (fs : FS) (p : path) :
  forallb (λ q, bool_decide (¬ (p `prefix_of` q))) (elements (dom fs)) = true →
  free fs p.
Proof.
  intros Hall q Hq. apply eq_None_not_Some. intros Hsome.
  rewrite forallb_forall in Hall. specialize (Hall q).
  rewrite <- list_elem_of_In, elem_of_elements, elem_of_dom in Hall.
  apply Hall, bool_decide_eq_true in Hsome. by apply Hsome.
Qed.

Lemma rename_tree_lookup_inv (src dst k : path) (fs : FS) (x : node) :
  rename_tree src dst fs !! k = Some x →
  ∃ q, fs !! q = Some x ∧ rebase src dst q = k.
Proof.
  unfold rename_tree. intros Hk. apply elem_of_list_to_map_2 in Hk.
  apply list_elem_of_fmap in Hk as ([q y] & Heq & Hy). simpl in Heq.
  injection Heq as -> ->. apply elem_of_map_to_list in Hy. eauto.
Qed.

(** [mkdir(parents=True, exist_ok=True)] makes directories only. *)
Lemma makedirs_go_files (rest base q : path) (fs fs' : FS) (st : stat_result)
    (c : content) :
  makedirs_go base rest fs = Ok fs' →
  fs' !! q = Some (File st c) → fs !! q = Some (File st c).
Proof.
  revert base fs. induction rest as [| a rest IH]; intros base fs; simpl.
  - intros; by simplify_eq.
  - destruct (mkdir_exist_ok (base ++ [a]) fs) as [fs1 |] eqn:Hmk; [| done].
    intros Hgo Hq. specialize (IH _ _ Hgo Hq). unfold mkdir_exist_ok in Hmk.
    destruct (fs !! (base ++ [a])) as [[st' | st' c'] |] eqn:Hl; simplify_eq; [done |].
    destruct (decide (q = base ++ [a])) as [-> | Hne].
    + by rewrite lookup_insert_eq in IH.
    + by rewrite lookup_insert_ne in IH.
Qed.

(** Where the files are from after a move to a free path: from below the
    source, or from where they are. *)
Lemma shutil_move_free_files (src dst k : path) (fs fs' : FS) (st : stat_result)
    (c : content) :
  free fs dst → ¬ src `prefix_of` dst →
  shutil_move src dst fs = Ok fs' →
  fs' !! k = Some (File st c) →
  (∃ rel, k = dst ++ rel ∧ fs !! (src ++ rel) = Some (File st c)) ∨
  (¬ src `prefix_of` k ∧ fs !! k = Some (File st c)).
Proof.
  intros Hfree Hout. unfold shutil_move.
  assert (fs !! dst = None) as Hdst by (by apply Hfree).
  assert (is_dir fs dst = false) as -> by (unfold is_dir; by rewrite Hdst).
  assert (exists_ fs dst = false) as ->.
  { unfold exists_. rewrite Hdst. by apply bool_decide_eq_false_2, is_Some_None. }
  simpl. rewrite decide_False by done.
  destruct (makedirs (parent dst) fs) as [fs1 |] eqn:Hm; [| done].
  intros [= <-] Hk. apply rename_tree_lookup_inv in Hk as (q & Hq & <-).
  apply (makedirs_go_files _ _ _ _ _ _ _ Hm) in Hq. unfold rebase.
  destruct (decide (src `prefix_of` q)) as [[rel ->] | Ho].
  - left. exists rel. by rewrite drop_app_length.
  - by right.
Qed.

Lemma stored_local_id_Some (fs : FS) (d : path) (z : Z) :
  stored_local_id fs d = Some z ↔
  ∃ st data, fs !! config_file d = Some (File st (Config data)) ∧
             data !! "local-id" = Some (VInt z).
Proof.
  unfold stored_local_id. split.
  - destruct (fs !! config_file d) as [[st | st [b | data]] |]; try done.
    destruct (data !! "local-id") as [[s | z' | m] |] eqn:Hl; intros; simplify_eq. eauto.
  - intros (st & data & -> & ->). done.
Qed.

Lemma readable_config_described (input : Input) (data : gmap string value) :
  readable_config data →
  readable_config (described input data) ∧
  described input data !! "local-id" = data !! "local-id".
Proof.
  intros (Hid & Hlang & Hpar & Hdesc). unfold readable_config, described.
  destruct (input !! "description") as [description |];
    rewrite ?lookup_insert_eq, ?lookup_insert_ne by done; split_and!; eauto.
Qed.

(** X18: a project that is renamed keeps its identity.  When an update
    request renames a valid project, the only one with its id, to a free
    path outside of it that has no [..] component, the old directory is no
    project directory afterwards, the same id resolves to the new
    directory, and the metadata derived there has the same id and, as its
    name, the new name in normal form (no leading separators, no empty or
    [.] components); deriving it writes nothing. *)
Theorem renamed_project_keeps_its_id (input : Input) (fs : FS) (project_id : string)
    (local_id : Z) (d : path) (new_name : string) :
  lists_existing_files →
  input !! "projectId" = Some project_id →
  int project_id = Ok local_id →
  find_project_by_id local_id fs = (Ok d, fs) →
  valid_project fs d →
  (∀ d', d' ∈ project_directories fs → stored_local_id fs d' = Some local_id → d' = d) →
  input !! "name" = Some new_name →
  (∀ e, requested_parameters input ≠ SetParameters (Raise e)) →
  let new_dir := get_cli_root_directory ++ parts (lstrip "/" new_name) in
  plain new_dir →
  free fs new_dir → ¬ d `prefix_of` new_dir →
  is_ok (makedirs (parent new_dir) fs) = true →
  ∃ fs3 project,
    _projects_update input fs = (Ok tt, fs3) ∧
    (d ∉ project_directories fs3) ∧
    find_project_by_id local_id fs3 = (Ok new_dir, fs3) ∧
    _create_project new_dir fs3 = (Ok project, fs3) ∧
    projectId project = local_id ∧
    name project = as_posix_relative (parts (lstrip "/" new_name)).
Proof.
  intros Hsync Hid Hint Hfind Hvalid Huniq Hname Hloop new_dir Hplain Hfree Hout Hmk.
  pose proof Hvalid as (Hroot & Hdir & data & Hs & Hread).
  destruct (find_project_by_id_Ok _ _ _ _ Hfind) as (_ & Hin & Hstored).
  assert (data !! "local-id" = Some (VInt local_id)) as Hlid.
  { apply stored_local_id_Some in Hstored as (st & data0 & Hl & Hz).
    apply sidecar_Some in Hs as [st' Hs]. congruence. }
  assert (truediv get_cli_root_directory (lstrip "/" new_name) = new_dir) as Hnew.
  { unfold truediv. by rewrite lstrip_not_absolute. }
  destruct (_projects_update_steps input fs project_id local_id d data Hid Hint Hfind Hs)
    as (fs1 & Hrw1 & Hsame & Hpar).
  assert (∃ fs2 data2,
    rewrites_sidecar fs fs2 d data2 ∧ readable_config data2 ∧
    data2 !! "local-id" = data !! "local-id" ∧
    _projects_update input fs = update_name input d fs2)
    as (fs2 & data2 & Hrw & Hread2 & Hlid2 & Hrun).
  { destruct (requested_parameters input) as [| [parameters | e]] eqn:Hreq.
    - exists fs1, (described input data).
      destruct (readable_config_described input data Hread). by split_and!.
    - destruct Hpar as (fs2 & Hrw2 & Hrun). exists fs2. eexists.
      destruct (readable_config_updated input data parameters Hread).
      split_and!; [by eapply rewrites_sidecar_trans | done | done | done].
    - by destruct (Hloop e). }
  pose proof (rewrites_sidecar_kinds _ _ _ _ _ Hs Hrw) as Hkinds.
  pose proof (update_name_run input d fs2) as Hmv. rewrite Hname in Hmv.
  simpl in Hmv. rewrite Hnew in Hmv.
  pose proof (free_rewrites _ _ _ _ _ _ Hs Hrw Hfree) as Hfree2.
  assert (is_dir fs2 new_dir = false) as Hnd.
  { unfold is_dir. by rewrite (Hfree2 new_dir). }
  rewrite Hnd in Hmv.
  destruct (shutil_move_free d new_dir fs2 Hfree2 Hout) as (fs3 & Hmove & Hmoved).
  { rewrite <- Hmk. unfold makedirs. by apply makedirs_go_same_kinds. }
  unfold fs_op in Hmv. rewrite Hmove in Hmv.
  pose proof Hrw as (Hs2 & _ & _).
  assert (sidecar fs3 new_dir = Some data2) as Hs3.
  { unfold sidecar in *. by rewrite (proj1 (Hmoved _)). }
  assert (valid_project fs3 new_dir) as Hvalid3.
  { split_and!; [by apply prefix_app_r | | eauto].
    rewrite <- Hdir, <- (proj1 (Hkinds d)). unfold is_dir.
    rewrite <- (app_nil_r new_dir), (proj1 (Hmoved [])). by rewrite app_nil_r. }
  assert (stored_local_id fs3 new_dir = Some local_id) as Hstored3.
  { rewrite stored_local_id_sidecar, Hs3, Hlid2, Hlid. done. }
  assert (new_dir ∈ project_directories fs3) as Hin3.
  { apply elem_of_project_directories. split; [by apply prefix_app_r |].
    apply sidecar_Some in Hs3 as [st ->]. eauto. }
  assert (∀ d', d' ∈ project_directories fs3 →
            stored_local_id fs3 d' = Some local_id → d' = new_dir) as Huniq3.
  { intros d' Hd' Hz. apply elem_of_project_directories in Hd' as [Hroot' _].
    assert (∀ d0, get_cli_root_directory `prefix_of` d0 →
              stored_local_id fs2 d0 = Some local_id → d0 = d) as Huniq2.
    { intros d0 Hr0 Hz0.
      rewrite (stored_local_id_rewrites _ _ _ d0 _ _ Hs Hrw Hlid2) in Hz0.
      apply Huniq; [| done]. apply elem_of_project_directories. split; [done |].
      apply stored_local_id_Some in Hz0 as (st & data0 & -> & _). eauto. }
    apply stored_local_id_Some in Hz as (st & data0 & Hl & Hz).
    destruct (shutil_move_free_files _ _ _ _ _ _ _ Hfree2 Hout Hmove Hl)
      as [(rel & Hk & Hfrom) | [Hnot Hfrom]].
    - destruct (decide (rel = [])) as [-> | Hne].
      + rewrite app_nil_r in Hfrom. pose proof (proj1 (Hkinds d)) as Hd2.
        unfold is_dir in Hd2 at 1. rewrite Hfrom, Hdir in Hd2. done.
      + destruct (exists_last Hne) as (rel' & x & ->).
        rewrite app_assoc in Hk. apply app_inj_tail in Hk as [-> <-].
        rewrite app_assoc in Hfrom.
        assert (d ++ rel' = d) as Heq.
        { apply Huniq2; [by trans d; [| apply prefix_app_r] |].
          apply stored_local_id_Some. eauto. }
        apply (f_equal length) in Heq. rewrite length_app in Heq.
        assert (rel' = []) as -> by (apply nil_length_inv; lia).
        by rewrite app_nil_r.
    - exfalso. apply Hnot.
      assert (d' = d) as ->; [| by apply prefix_app_r].
      apply Huniq2; [done |]. apply stored_local_id_Some. eauto. }
  destruct (_create_project_valid fs3 new_dir Hsync Hvalid3)
    as (project & fs4 & data3 & stats & mtime & ctime & Hs3' & Hcreate & _ & Hkeep
        & _ & Hpname & _).
  assert (data3 = data2) as -> by congruence.
  destruct (Hkeep local_id) as [Hpid ->]; [congruence |].
  exists fs3, project. split_and!.
  - by rewrite Hrun, Hmv.
  - intros Hd. apply elem_of_project_directories in Hd as [_ [x Hx]].
    by rewrite (proj2 (Hmoved _)) in Hx.
  - unfold find_project_by_id. unfold_monad.
    destruct (List.find _ (project_directories fs3)) as [d' |] eqn:Hf.
    + apply find_some in Hf as [Hd' Hz]. apply bool_decide_eq_true in Hz.
      rewrite <- list_elem_of_In in Hd'. by rewrite (Huniq3 d' Hd' Hz).
    + pose proof (find_none _ _ Hf new_dir) as Hno.
      rewrite <- list_elem_of_In in Hno. specialize (Hno Hin3).
      by rewrite bool_decide_eq_true_2 in Hno.
  - done.
  - done.
  - rewrite Hpname. unfold new_dir. by rewrite drop_app_length.
Qed.

(** ** A created project *)

(** X19: the record of a created project.  When the scaffolding returns
    and has left a sidecar file in the new directory (with no id, or an
    integer one), [_projects_create] returns one record: its name is the
    requested name stripped of its leading separators, both of its times
    are the one reading of the clock, and its id is the one the sidecar
    stores afterwards, the one it stored before if it stored one.  When
    the scaffolding raises, the error is returned and no id is assigned. *)
Theorem created_record_id_is_stored (input : Input) (fs fs1 : FS)
    (new_name language : string) :
  input !! "name" = Some new_name →
  input !! "language" = Some language →
  let project_dir := truediv get_cli_root_directory (lstrip "/" new_name) in
  (∀ e, create_project_callback (lstrip "/" new_name) (create_language language) fs
          = (Raise e, fs1) →
        _projects_create input fs = (Raise e, fs1)) ∧
  (∀ data,
     create_project_callback (lstrip "/" new_name) (create_language language) fs
       = (Ok tt, fs1) →
     sidecar fs1 project_dir = Some data →
     (data !! "local-id" = None ∨ ∃ z, data !! "local-id" = Some (VInt z)) →
     ∃ local_id fs2,
       _projects_create input fs
         = (Ok [ {| created_projectId := local_id;
                    created_name := lstrip "/" new_name;
                    created_modified := datetime_now;
                    created_created := datetime_now |} ], fs2) ∧
       stored_local_id fs2 project_dir = Some local_id ∧
       rewrites_sidecar fs1 fs2 project_dir (<["local-id" := VInt local_id]> data) ∧
       (∀ z, data !! "local-id" = Some (VInt z) → local_id = z ∧ fs2 = fs1)).
Proof.
  intros Hname Hlang project_dir.
  assert (_projects_create input fs =
    (create_project_callback (lstrip "/" new_name) (create_language language)
     ≫= λ _, created_record (lstrip "/" new_name)) fs) as Hhead.
  { unfold _projects_create, getitem. by rewrite Hname, Hlang. }
  split.
  - intros e Hcb. by rewrite Hhead, (bind_raise _ _ _ _ _ Hcb).
  - intros data Hcb Hs Hlid.
    destruct (get_local_id_run fs1 project_dir data Hs Hlid)
      as (local_id & fs2 & Hrun & Hrw & Hkeep).
    exists local_id, fs2. split_and!; [| | done | done].
    + rewrite Hhead, (bind_ok _ _ _ _ _ Hcb). unfold created_record.
      fold project_dir. by rewrite (bind_ok _ _ _ _ _ Hrun).
    + destruct Hrw as (Hs2 & _). rewrite stored_local_id_sidecar, Hs2.
      by rewrite lookup_insert_eq.
Qed.

End project_server_more.

(** ** The further properties on the scenarios *)

(** A response that is not JSON keeps its payload. *)
Lemma _after_request_idempotent_witness :
  Flask.payload
    (ApiServer._after_request {| Flask.headers := ∅; Flask.payload := Flask.Raw "ok" |})
  = Flask.Raw "ok".
Proof.
  exact (proj2 (_after_request_idempotent
                  {| Flask.headers := ∅; Flask.payload := Flask.Raw "ok" |})
           "ok" eq_refl).
Defined.

(** An update request whose project id is not a number. *)
Lemma rejected_requests_change_nothing_witness :
  @ProjectServer._projects_update Scenario.os ProjectScenario.collaborators
    {[ "projectId" := "abc"; "name" := "delta" ]} ProjectScenario.disk
  = (Raise (ValueError "invalid literal for int() with base 10"), ProjectScenario.disk).
Proof.
  pose proof (@rejected_requests_change_nothing Scenario.os ProjectScenario.collaborators
                {[ "projectId" := "abc"; "name" := "delta" ]} ProjectScenario.disk)
    as [Hid _].
  assert (({[ "projectId" := "abc"; "name" := "delta" ]} : ProjectServer.Input)
            !! "projectId" = Some "abc") as Hl by by_evaluation.
  rewrite Hl in Hid.
  assert (@ProjectServer.int ProjectScenario.collaborators "abc"
          = Raise (ValueError "invalid literal for int() with base 10")) as Hi
    by by_evaluation.
  rewrite Hi in Hid. exact (proj1 Hid).
Defined.

Section data_scenario_more.
Import Fs DataDownloader Scenario.
Existing Instance Scenario.os.
Existing Instance Scenario.remote.

(** With the flag set, both files of the scenario get their progress
    line. *)
Lemma progress_line_per_file_witness :
  ∃ evs,
    events (download_files ["a.zip"; "b.zip"] true "org" (init disk)).2 = [] ++ evs ∧
    List.filter is_info evs = progress_lines 2 0 ["a.zip"; "b.zip"].
Proof.
  pose proof (progress_line_per_file ["a.zip"; "b.zip"] true "org" (init disk)) as Hrun.
  cbv zeta in Hrun. destruct Hrun as (evs & Hev & _ & Hall).
  exists evs. split; [exact Hev |]. apply Hall. by_evaluation.
Defined.

(** With the flag set, nobody is asked and both files are requested. *)
Lemma overwrite_flag_never_prompts_witness :
  prompts (events (download_files ["a.zip"; "b.zip"] true "org" (init disk)).2)
    = prompts [] ∧
  downloads (events (download_files ["a.zip"; "b.zip"] true "org" (init disk)).2)
    = (downloads [] + 2)%nat.
Proof.
  pose proof (overwrite_flag_never_prompts ["a.zip"; "b.zip"] "org" (init disk)) as Hrun.
  cbv zeta in Hrun. destruct Hrun as (Hp & _ & _ & Hd).
  split; [exact Hp |]. apply Hd. by_evaluation.
Defined.

(** The local [a.zip] is there after a run, whatever the run does. *)
Lemma download_never_deletes_witness :
  is_Some (fs (download_files ["a.zip"; "b.zip"] false "org" (init disk)).2
             !! ["data"; "a.zip"]).
Proof.
  apply (proj1 (download_never_deletes ["a.zip"; "b.zip"] false "org" (init disk)
                  ["data"; "a.zip"])).
  exists (File epoch (Bytes "old")). by_evaluation.
Defined.

(** The stale [b.zip] is overwritten when the flag is set. *)
Lemma overwrite_replaces_content_witness :
  ∃ s',
    _download_file "b.zip" true get_data_directory "org" (init stale_disk) = (Ok tt, s') ∧
    fs s' !! truediv get_data_directory "b.zip"
      = Some (File (stat_on_write (Some epoch)) (Bytes "b-bytes")).
Proof.
  destruct (overwrite_replaces_content "b.zip" true "org" (init stale_disk)
              (File epoch (Bytes "stale")) "b-bytes")
    as (r & s' & Hrun & Hr & Hfs).
  { by_evaluation. }
  { by_evaluation. }
  { by_evaluation. }
  { by_evaluation. }
  exists s'. rewrite Hrun, Hr. split; [reflexivity | exact Hfs].
Defined.

End data_scenario_more.

Section project_scenario_more.
Import Fs ProjectServer ProjectScenario.
Existing Instance Scenario.os.
Existing Instance ProjectScenario.collaborators.

Lemma scenario_valid_delta : valid_project bare_disk delta.
Proof.
  split_and!; [by exists ["delta"] | by vm_compute |].
  exists ∅. split; [by_evaluation |].
  split_and!; [by left | by vm_compute | by left | by left].
Qed.

Lemma scenario_all_valid (d : path) : d ∈ project_directories disk → valid_project disk d.
Proof.
  intros Hd. rewrite scenario_project_directories in Hd.
  apply elem_of_cons in Hd as [-> | Hd]; [exact scenario_valid_gamma |].
  apply elem_of_cons in Hd as [-> | Hd]; [exact scenario_valid_alpha |].
  by apply elem_of_nil in Hd.
Qed.

(** The project [gamma], which has no id yet: it gets one in the first
    derivation, and the second returns the same record. *)
Lemma metadata_derivation_idempotent_witness :
  ∃ project fs1,
    _create_project gamma disk = (Ok project, fs1) ∧
    _create_project gamma fs1 = (Ok project, fs1).
Proof.
  exact (metadata_derivation_idempotent disk gamma
           scenario_lists_existing_files scenario_valid_gamma).
Defined.

(** The project [delta] of the bare disk has the defaults. *)
Lemma metadata_defaults_witness :
  ∃ project fs1,
    _create_project delta bare_disk = (Ok project, fs1) ∧
    ("Python", language project) ∈ QCLanguage_members ∧
    description project = "" ∧
    ProjectServer.parameters project = [].
Proof.
  apply (metadata_defaults bare_disk delta ∅
           scenario_lists_existing_files scenario_valid_delta).
  - by_evaluation.
  - by_evaluation.
  - by_evaluation.
  - by_evaluation.
Defined.

(** A read of the project with the id 1. *)
Lemma read_by_id_returns_that_project_witness :
  ∃ project,
    _projects_read {[ "projectId" := "1" ]} disk = (Ok [project], disk) ∧
    projectId project = 1%Z ∧
    name project = "alpha".
Proof.
  destruct (read_by_id_returns_that_project {[ "projectId" := "1" ]} disk "1" 1 alpha)
    as (project & Hrun & Hid & Hname).
  { exact scenario_lists_existing_files. }
  { by_evaluation. }
  { by_evaluation. }
  { exact scenario_find_alpha. }
  { exact scenario_valid_alpha. }
  exists project. split; [exact Hrun |]. split; [exact Hid |].
  rewrite Hname. by_evaluation.
Defined.

(** A read of all projects of the scenario leaves the names as they
    are. *)
Lemma read_all_footprint_witness :
  ∃ projects fs1,
    _projects_read ∅ disk = (Ok projects, fs1) ∧ dom fs1 = dom disk.
Proof.
  destruct (read_all_footprint ∅ disk)
    as (projects & fs1 & Hrun & Hdom & _).
  { exact scenario_lists_existing_files. }
  { by_evaluation. }
  { exact scenario_all_valid. }
  exists projects, fs1. split; [exact Hrun | exact Hdom].
Defined.

(** Deleting [alpha]: its sources are gone, [gamma] is as before. *)
Lemma delete_removes_the_tree_witness :
  ∃ fs',
    _projects_delete {[ "projectId" := "1" ]} disk = (Ok tt, fs') ∧
    fs' !! (alpha ++ ["main.py"]) = None ∧
    fs' !! gamma = disk !! gamma.
Proof.
  destruct (delete_removes_the_tree {[ "projectId" := "1" ]} disk "1" 1 alpha)
    as (fs' & Hrun & Hin & Hout & _).
  { by_evaluation. }
  { by_evaluation. }
  { exact scenario_find_alpha. }
  { by_evaluation. }
  exists fs'. split; [exact Hrun |]. split.
  - apply Hin. by exists ["main.py"].
  - apply Hout. apply (bool_decide_eq_false_1 (alpha `prefix_of` gamma)). by_evaluation.
Defined.

(** The second pair of the request has a key and no value. *)
Lemma missing_value_keeps_parameters_witness :
  _projects_update
    {[ "projectId" := "1";
       "parameters[0][key]" := "a"; "parameters[0][value]" := "1";
       "parameters[1][key]" := "b" ]} disk
  = (Raise (KeyError (parameters_value 1)), disk).
Proof.
  destruct (missing_value_keeps_parameters
              {[ "projectId" := "1";
                 "parameters[0][key]" := "a"; "parameters[0][value]" := "1";
                 "parameters[1][key]" := "b" ]}
              disk "1" 1 alpha alpha_config [("a", "1")])
    as (fs1 & Hrun & _ & _ & _ & Hsame).
  { by_evaluation. }
  { by_evaluation. }
  { exact scenario_find_alpha. }
  { exact scenario_sidecar_alpha. }
  { by_evaluation. }
  { intros [| i] k v Hi; simpl in Hi; simplify_eq; split; by_evaluation. }
  { exists "b". by_evaluation. }
  { by_evaluation. }
  rewrite Hrun. f_equal. apply Hsame. by_evaluation.
Defined.

(** A request with a pair at index 1 only. *)
Lemma update_without_fields_is_noop_witness :
  _projects_update {[ "projectId" := "1"; "parameters[1][key]" := "b" ]} disk
  = (Ok tt, disk).
Proof.
  apply (update_without_fields_is_noop
           {[ "projectId" := "1"; "parameters[1][key]" := "b" ]} disk "1" 1 alpha
           alpha_config).
  - by_evaluation.
  - by_evaluation.
  - exact scenario_find_alpha.
  - exact scenario_sidecar_alpha.
  - by_evaluation.
  - by_evaluation.
  - by_evaluation.
  - by_evaluation.
Defined.

(** Renaming [alpha] to [delta]: the id 1 resolves to [delta]. *)
Lemma renamed_project_keeps_its_id_witness :
  ∃ fs3 project,
    _projects_update {[ "projectId" := "1"; "name" := "/delta" ]} disk = (Ok tt, fs3) ∧
    find_project_by_id 1 fs3
      = (Ok (get_cli_root_directory ++ parts (lstrip "/" "/delta")), fs3) ∧
    projectId project = 1%Z ∧
    name project = "delta".
Proof.
  destruct (renamed_project_keeps_its_id
              {[ "projectId" := "1"; "name" := "/delta" ]} disk "1" 1 alpha "/delta")
    as (fs3 & project & Hrun & _ & Hfind & _ & Hid & Hname).
  { exact scenario_lists_existing_files. }
  { by_evaluation. }
  { by_evaluation. }
  { exact scenario_find_alpha. }
  { exact scenario_valid_alpha. }
  { intros d' Hd' Hz. rewrite scenario_project_directories in Hd'.
    apply elem_of_cons in Hd' as [-> | Hd'].
    { vm_compute in Hz. discriminate Hz. }
    apply elem_of_cons in Hd' as [-> | Hd']; [reflexivity |].
    by apply elem_of_nil in Hd'. }
  { by_evaluation. }
  { intros e He. vm_compute in He. discriminate He. }
  { unfold plain. apply (bool_decide_eq_true_1 _). by_evaluation. }
  { apply free_by_listing. by_evaluation. }
  { apply (bool_decide_eq_false_1 (alpha `prefix_of` _)). by_evaluation. }
  { by_evaluation. }
  exists fs3, project. split; [exact Hrun |]. split; [exact Hfind |].
  split; [exact Hid |]. rewrite Hname. by_evaluation.
Defined.

(** Creating [delta]: the id of the record is the one the sidecar holds
    afterwards. *)
Lemma created_record_id_is_stored_witness :
  ∃ local_id fs2,
    _projects_create {[ "name" := "/delta"; "language" := "Py" ]} disk
      = (Ok [ {| created_projectId := local_id; created_name := lstrip "/" "/delta";
                 created_modified := datetime_now; created_created := datetime_now |} ],
         fs2) ∧
    stored_local_id fs2 (truediv get_cli_root_directory (lstrip "/" "/delta"))
      = Some local_id.
Proof.
  destruct (created_record_id_is_stored
              {[ "name" := "/delta"; "language" := "Py" ]} disk
              (create_project_callback (lstrip "/" "/delta") (create_language "Py")
                 disk).2
              "/delta" "Py")
    as [_ Hok].
  { by_evaluation. }
  { by_evaluation. }
  destruct (Hok {[ "language" := VStr "Python" ]})
    as (local_id & fs2 & Hrun & Hstored & _).
  { by_evaluation. }
  { by_evaluation. }
  { left. by_evaluation. }
  exists local_id, fs2. split; [exact Hrun | exact Hstored].
Defined.

End project_scenario_more.
